(** * Intents operator: reconcilers and admission webhook

    A shallow embedding of the network-policy reconciler, the Kafka ACL
    reconciler and the ProtectedService admission webhook, together with
    the properties their specification states about them.

    The Kubernetes API server, the broker admin client and the other
    collaborators are modelled as explicit state: every call a reconciler
    makes is written to a trace, and an oracle decides which calls fail. *)

From Stdlib Require Import Ascii String.
From stdpp Require Import gmap strings list fin_maps.

Open Scope string_scope.
Open Scope list_scope.

(** ** Shared vocabulary *)

(** [types.NamespacedName], as the pair (namespace, name). *)
Abbreviation NamespacedName := (string * string)%type.

Definition mkNamespacedName (name namespace : string) : NamespacedName :=
  (namespace, name).

(** The errors of [k8s.io/apimachinery/pkg/api/errors] that the code tells
    apart, and everything else. Go's [error] is [option K8sError]: [None]
    is [nil]. *)
Inductive K8sError : Type :=
  | ErrNotFound
  | ErrConflict
  | ErrAlreadyExists
  | ErrOther (reason : string).

Abbreviation error := (option K8sError).

Definition IsNotFound (err : error) : bool :=
  match err with Some ErrNotFound => true | _ => false end.

Definition IsConflict (err : error) : bool :=
  match err with Some ErrConflict => true | _ => false end.

(** [ctrl.Result]. *)
Record Result : Type := mkResult { Requeue : bool }.

Definition emptyResult : Result := {| Requeue := false |}.

(** [ctrl.Request]. *)
Record Request : Type := mkRequest { reqNamespace : string; reqName : string }.

Definition reqNamespacedName (req : Request) : NamespacedName :=
  mkNamespacedName (reqName req) (reqNamespace req).

(** Object metadata: deletion timestamp ([None] is the zero time) and the
    finalizer list. *)
Definition ContainsFinalizerIn (fs : list string) (f : string) : bool :=
  bool_decide (f ∈ fs).

Definition AddFinalizerTo (fs : list string) (f : string) : list string :=
  if ContainsFinalizerIn fs f then fs else fs ++ [f].

Definition RemoveFinalizerFrom (fs : list string) (f : string) : list string :=
  filter (λ g, g ≠ f) fs.

(** ** The network-policy reconciler (package reconcilers) *)

Module NetworkPolicy.

Definition NetworkPolicyFinalizerName : string :=
  "otterize-intents.policies/finalizer".
Definition OtterizeNetworkPolicy : string := "otterize/network-policy".

(** [fmt.Sprintf(OtterizeNetworkPolicyNameTemplate, server, namespace)] with
    the template ["access-to-%s-from-%s"]. *)
Definition OtterizeNetworkPolicyName (server namespace : string) : string :=
  "access-to-" +:+ server +:+ "-from-" +:+ namespace.

(** [otterizev1alpha1.Intent]: one Call. *)
Record Intent : Type := mkIntent { Server : string; Namespace : string }.

Record IntentsSpec : Type :=
  mkIntentsSpec { ServiceName : string; Calls : list Intent }.

(** [otterizev1alpha1.Intents]. *)
Record Intents : Type := mkIntents {
  ObjName : string;
  ObjNamespace : string;
  DeletionTimestamp : option nat;
  Finalizers : list string;
  Spec : option IntentsSpec
}.

Definition zeroIntents : Intents :=
  {| ObjName := ""; ObjNamespace := ""; DeletionTimestamp := None;
     Finalizers := []; Spec := None |}.

Definition intentsKey (o : Intents) : NamespacedName :=
  mkNamespacedName (ObjName o) (ObjNamespace o).

(** Modelled from the spec: [GetCallsList] is declared with the API types.
    It is the ordered list of Calls of the object. *)
Definition GetCallsList (o : Intents) : list Intent :=
  match Spec o with Some s => Calls s | None => [] end.

Definition ContainsFinalizer (o : Intents) (f : string) : bool :=
  ContainsFinalizerIn (Finalizers o) f.

Definition setFinalizers (o : Intents) (fs : list string) : Intents :=
  {| ObjName := ObjName o; ObjNamespace := ObjNamespace o;
     DeletionTimestamp := DeletionTimestamp o;
     Finalizers := fs; Spec := Spec o |}.

Definition AddFinalizer (o : Intents) (f : string) : Intents :=
  setFinalizers o (AddFinalizerTo (Finalizers o) f).

Definition RemoveFinalizer (o : Intents) (f : string) : Intents :=
  setFinalizers o (RemoveFinalizerFrom (Finalizers o) f).

(** [intent.Namespace = ns] when the Call names no namespace. *)
Definition defaultNamespace (intent : Intent) (ns : string) : Intent :=
  if bool_decide (Namespace intent = "") then
    {| Server := Server intent; Namespace := ns |}
  else intent.

(** [v1.NetworkPolicy], with the fields the reconciler fills in. *)
Record NetworkPolicyObj : Type := mkNetworkPolicyObj {
  PolicyName : string;
  PolicyNamespace : string;
  PolicyLabels : list (string * string);
  PodSelector : list (string * string);
  IngressFromPodSelector : list (string * string);
  IngressFromNamespaceSelector : list (string * string)
}.

Definition zeroPolicy : NetworkPolicyObj :=
  {| PolicyName := ""; PolicyNamespace := ""; PolicyLabels := [];
     PodSelector := []; IngressFromPodSelector := [];
     IngressFromNamespaceSelector := [] |}.

Definition policyKey (p : NetworkPolicyObj) : NamespacedName :=
  mkNamespacedName (PolicyName p) (PolicyNamespace p).

(** The calls the reconciler makes on its [client.Client]. *)
Inductive Op : Type :=
  | OpGetIntents (key : NamespacedName)
  | OpUpdateIntents (obj : Intents)
  | OpListIntents (server namespace : string)
  | OpGetPolicy (key : NamespacedName)
  | OpCreatePolicy (policy : NetworkPolicyObj)
  | OpDeletePolicy (key : NamespacedName).

(** The cluster as the reconciler sees it: the stored Intents objects, the
    stored network policies, and the calls made so far, oldest first. *)
Record Cluster : Type := mkCluster {
  intentsObjects : gmap NamespacedName Intents;
  networkPolicies : gmap NamespacedName NetworkPolicyObj;
  trace : list Op
}.

Definition M (A : Type) : Type := Cluster → A * Cluster.

#[export] Instance M_ret : MRet M := λ A a c, (a, c).
#[export] Instance M_bind : MBind M :=
  λ A B f m c, let '(a, c') := m c in f a c'.

Definition logOp (op : Op) (c : Cluster) : Cluster :=
  {| intentsObjects := intentsObjects c;
     networkPolicies := networkPolicies c;
     trace := trace c ++ [op] |}.

Definition setIntentsObjects (m : gmap NamespacedName Intents) (c : Cluster)
  : Cluster :=
  {| intentsObjects := m; networkPolicies := networkPolicies c;
     trace := trace c |}.

Definition setNetworkPolicies (m : gmap NamespacedName NetworkPolicyObj)
  (c : Cluster) : Cluster :=
  {| intentsObjects := intentsObjects c; networkPolicies := m;
     trace := trace c |}.

(** Modelled from the spec: the field index [OtterizeTargetServerIndexField]
    is registered with the manager, outside these sources. It is an index
    keyed on target-service name: an Intents object is listed under the
    server of each of its Calls. *)
Definition targetsServer (server : string) (o : Intents) : bool :=
  bool_decide (server ∈ Server <$> GetCallsList o).

Definition matchingIntents (server namespace : string)
  (m : gmap NamespacedName Intents) : list Intents :=
  filter (λ o, ObjNamespace o = namespace ∧ targetsServer server o = true)
         (map_to_list m).*2.

(** *** The name of a derived rule *)

Lemma string_length_app (s t : string) :
  String.length (s +:+ t) = String.length s + String.length t.
Proof. induction s as [|a s IH]; simpl; [done|]. by rewrite IH. Qed.

Lemma string_app_inv_tail (s1 s2 t : string) :
  s1 +:+ t = s2 +:+ t → s1 = s2.
Proof.
  revert s2. induction s1 as [|a s1 IH]; intros [|b s2] Heq; [done| | |].
  - apply (f_equal String.length) in Heq.
    change (String b s2 +:+ t) with (String b (s2 +:+ t)) in Heq.
    simpl in Heq. rewrite !string_length_app in Heq. simpl in Heq. lia.
  - apply (f_equal String.length) in Heq.
    change (String a s1 +:+ t) with (String a (s1 +:+ t)) in Heq.
    simpl in Heq. rewrite !string_length_app in Heq. simpl in Heq. lia.
  - change (String a (s1 +:+ t) = String b (s2 +:+ t)) in Heq.
    injection Heq as -> Heq. f_equal. by apply IH.
Qed.

Lemma OtterizeNetworkPolicyName_length server namespace :
  String.length (OtterizeNetworkPolicyName server namespace)
  = 16 + String.length server + String.length namespace.
Proof.
  unfold OtterizeNetworkPolicyName. rewrite !string_length_app. simpl. lia.
Qed.


(** Two targets called from one namespace get different names. *)
Lemma OtterizeNetworkPolicyName_inj_server s1 s2 namespace :
  OtterizeNetworkPolicyName s1 namespace = OtterizeNetworkPolicyName s2 namespace →
  s1 = s2.
Proof.
  unfold OtterizeNetworkPolicyName. intros Heq.
  apply (inj (String.app "access-to-")) in Heq.
  by apply string_app_inv_tail in Heq.
Qed.

(** One target called from two namespaces gets different names. *)
Lemma OtterizeNetworkPolicyName_inj_namespace server n1 n2 :
  OtterizeNetworkPolicyName server n1 = OtterizeNetworkPolicyName server n2 →
  n1 = n2.
Proof.
  unfold OtterizeNetworkPolicyName. intros Heq.
  apply (inj (String.app "access-to-")) in Heq.
  apply (inj (String.app server)) in Heq.
  by apply (inj (String.app "-from-")) in Heq.
Qed.

(** C7, as the code has it. The name of the rule of a Call is the plain
    concatenation [access-to-<target>-from-<namespace>]: it is a function
    of the target and the declaring namespace, it is never shortened and
    carries no hash, so its length is 16 plus the lengths of both, and two
    targets called from one namespace, or one target called from two
    namespaces, never share a name. *)
Theorem OtterizeNetworkPolicyName_plain server namespace :
  OtterizeNetworkPolicyName server namespace
  = "access-to-" +:+ server +:+ "-from-" +:+ namespace
  ∧ String.length (OtterizeNetworkPolicyName server namespace)
    = 16 + String.length server + String.length namespace
  ∧ (∀ server', OtterizeNetworkPolicyName server' namespace
                = OtterizeNetworkPolicyName server namespace → server' = server)
  ∧ (∀ namespace', OtterizeNetworkPolicyName server namespace'
                   = OtterizeNetworkPolicyName server namespace →
                   namespace' = namespace).
Proof.
  split; [done|]. split; [apply OtterizeNetworkPolicyName_length|].
  split.
  - intros server'. apply OtterizeNetworkPolicyName_inj_server.
  - intros namespace'. apply OtterizeNetworkPolicyName_inj_namespace.
Qed.

(** A target name of 61 characters, a legal DNS label. *)
Definition longServer : string :=
  "payments-ledger-reconciliation-worker-service-eu-west-blue-01".

(** C7, the claim as stated fails: the rule name of an over-length input is
    longer than 63 characters. *)
Lemma OtterizeNetworkPolicyName_exceeds_63 :
  (String.length longServer ≤ 63)%nat ∧
  (63 < String.length ("access-to-" +:+ longServer +:+ "-from-" +:+ "ns1"))%nat ∧
  ¬ (String.length (OtterizeNetworkPolicyName longServer "ns1") ≤ 63)%nat.
Proof. vm_compute. split; [lia|]. split; lia. Qed.

Section Reconciler.

(** The label scheme of package [v1alpha1], which the reconciler only
    passes through. *)
Variable GetFormattedOtterizeIdentity : string → string → string.
Variable OtterizeServerLabelKey : string.
Variable OtterizeAccessLabelKey : string → string.
Variable OtterizeNamespaceLabelKey : string.

(** [apiFault n op] is the failure injected into the call [op] when it is
    the [n]-th call of the trace; [None] lets the call through. *)
Variable apiFault : nat → Op → error.

Definition faultOf (op : Op) (c : Cluster) : error :=
  apiFault (length (trace c)) op.

(** [r.Get] on an Intents object. The object is left at its zero value
    when the call fails. *)
Definition GetIntents (key : NamespacedName) : M (error * Intents) :=
  λ c,
    let c1 := logOp (OpGetIntents key) c in
    match faultOf (OpGetIntents key) c with
    | Some e => ((Some e, zeroIntents), c1)
    | None =>
        match intentsObjects c !! key with
        | Some o => ((None, o), c1)
        | None => ((Some ErrNotFound, zeroIntents), c1)
        end
    end.

(** [r.Update] on an Intents object. The API server removes an object whose
    deletion timestamp is set once its last finalizer is gone. *)
Definition UpdateIntents (o : Intents) : M error :=
  λ c,
    let c1 := logOp (OpUpdateIntents o) c in
    match faultOf (OpUpdateIntents o) c with
    | Some e => (Some e, c1)
    | None =>
        match intentsObjects c !! intentsKey o with
        | None => (Some ErrNotFound, c1)
        | Some _ =>
            let m :=
              match DeletionTimestamp o, Finalizers o with
              | Some _, [] => delete (intentsKey o) (intentsObjects c)
              | _, _ => <[intentsKey o := o]> (intentsObjects c)
              end in
            (None, setIntentsObjects m c1)
        end
    end.

(** [r.List] with [MatchingFields{OtterizeTargetServerIndexField: server}]
    and [ListOptions{Namespace: namespace}]. *)
Definition ListIntents (server namespace : string) : M (error * list Intents) :=
  λ c,
    let c1 := logOp (OpListIntents server namespace) c in
    match faultOf (OpListIntents server namespace) c with
    | Some e => ((Some e, []), c1)
    | None => ((None, matchingIntents server namespace (intentsObjects c)), c1)
    end.

Definition GetPolicy (key : NamespacedName) : M (error * NetworkPolicyObj) :=
  λ c,
    let c1 := logOp (OpGetPolicy key) c in
    match faultOf (OpGetPolicy key) c with
    | Some e => ((Some e, zeroPolicy), c1)
    | None =>
        match networkPolicies c !! key with
        | Some p => ((None, p), c1)
        | None => ((Some ErrNotFound, zeroPolicy), c1)
        end
    end.

Definition CreatePolicy (p : NetworkPolicyObj) : M error :=
  λ c,
    let c1 := logOp (OpCreatePolicy p) c in
    match faultOf (OpCreatePolicy p) c with
    | Some e => (Some e, c1)
    | None =>
        match networkPolicies c !! policyKey p with
        | Some _ => (Some ErrAlreadyExists, c1)
        | None =>
            (None, setNetworkPolicies (<[policyKey p := p]> (networkPolicies c)) c1)
        end
    end.

Definition DeletePolicy (p : NetworkPolicyObj) : M error :=
  λ c,
    let c1 := logOp (OpDeletePolicy (policyKey p)) c in
    match faultOf (OpDeletePolicy (policyKey p)) c with
    | Some e => (Some e, c1)
    | None =>
        match networkPolicies c !! policyKey p with
        | None => (Some ErrNotFound, c1)
        | Some _ =>
            (None, setNetworkPolicies (delete (policyKey p) (networkPolicies c)) c1)
        end
    end.

(** [buildNetworkPolicyObjectForIntent]. *)
Definition buildNetworkPolicyObjectForIntent
  (intent : Intent) (policyName intentsObjNamespace : string) : NetworkPolicyObj :=
  let formattedTargetServer :=
    GetFormattedOtterizeIdentity (Server intent) (Namespace intent) in
  {| PolicyName := policyName;
     PolicyNamespace := Namespace intent;
     PolicyLabels := [(OtterizeNetworkPolicy, "true")];
     PodSelector := [(OtterizeServerLabelKey, formattedTargetServer)];
     IngressFromPodSelector :=
       [(OtterizeAccessLabelKey formattedTargetServer, "true")];
     IngressFromNamespaceSelector :=
       [(OtterizeNamespaceLabelKey, intentsObjNamespace)] |}.

(** [handleNetworkPolicyCreation]. *)
Definition handleNetworkPolicyCreation
  (intent : Intent) (intentsObjNamespace : string) : M error :=
  let policyName := OtterizeNetworkPolicyName (Server intent) intentsObjNamespace in
  '(err, _) ← GetPolicy (mkNamespacedName policyName (Namespace intent));
  if IsNotFound err then
    let policy :=
      buildNetworkPolicyObjectForIntent intent policyName intentsObjNamespace in
    err ← CreatePolicy policy;
    match err with
    | Some e => mret (Some e)
    | None => mret None
    end
  else
    match err with
    | Some e => mret (Some e)
    | None => mret None
    end.

(** [removeNetworkPolicy]. The error of [Delete] is tested and dropped, and
    a lookup error other than not-found falls into the [else] branch, where
    [policy] still is the zero object. *)
Definition removeNetworkPolicy
  (intent : Intent) (intentsObjNamespace : string) : M error :=
  let policyName := OtterizeNetworkPolicyName (Server intent) intentsObjNamespace in
  '(err, policy) ← GetPolicy (mkNamespacedName policyName (Namespace intent));
  if IsNotFound err then mret None
  else
    err ← DeletePolicy policy;
    match err with
    | Some _ => mret None
    | None => mret None
    end.

(** The body of the loop of [cleanFinalizerAndPolicies] over the Calls. *)
Fixpoint cleanPolicies (calls : list Intent) (intentsNamespace : string)
  : M error :=
  match calls with
  | [] => mret None
  | intent :: rest =>
      let intent := defaultNamespace intent intentsNamespace in
      '(err, items) ← ListIntents (Server intent) intentsNamespace;
      match err with
      | Some e => mret (Some e)
      | None =>
          if bool_decide (length items = 1) then
            err ← removeNetworkPolicy intent intentsNamespace;
            match err with
            | Some e => mret (Some e)
            | None => cleanPolicies rest intentsNamespace
            end
          else cleanPolicies rest intentsNamespace
      end
  end.

(** [cleanFinalizerAndPolicies]. *)
Definition cleanFinalizerAndPolicies (intents : Intents) : M error :=
  if ContainsFinalizer intents NetworkPolicyFinalizerName then
    err ← cleanPolicies (GetCallsList intents) (ObjNamespace intents);
    match err with
    | Some e => mret (Some e)
    | None =>
        let intents := RemoveFinalizer intents NetworkPolicyFinalizerName in
        err ← UpdateIntents intents;
        match err with
        | Some e => mret (Some e)
        | None => mret None
        end
    end
  else mret None.

(** The loop of [Reconcile] over the Calls of an active object. *)
Fixpoint createPolicies (calls : list Intent) (reqNs : string) : M error :=
  match calls with
  | [] => mret None
  | intent :: rest =>
      let intent := defaultNamespace intent reqNs in
      err ← handleNetworkPolicyCreation intent reqNs;
      match err with
      | Some e => mret (Some e)
      | None => createPolicies rest reqNs
      end
  end.

(** [NetworkPolicyReconciler.Reconcile]. *)
Definition Reconcile (req : Request) : M (Result * error) :=
  '(err, intents) ← GetIntents (reqNamespacedName req);
  if IsNotFound err then mret (emptyResult, None)
  else
    match err with
    | Some e => mret (emptyResult, Some e)
    | None =>
        match Spec intents with
        | None => mret (emptyResult, None)
        | Some _ =>
            if bool_decide (DeletionTimestamp intents ≠ None) then
              err ← cleanFinalizerAndPolicies intents;
              match err with
              | Some e =>
                  if IsConflict (Some e) then mret ({| Requeue := true |}, None)
                  else mret (emptyResult, Some e)
              | None => mret (emptyResult, None)
              end
            else
              '(err, intents) ←
                (if negb (ContainsFinalizer intents NetworkPolicyFinalizerName)
                 then
                   let intents := AddFinalizer intents NetworkPolicyFinalizerName in
                   err ← UpdateIntents intents;
                   mret (err, intents)
                 else mret (None, intents));
              match err with
              | Some e => mret (emptyResult, Some e)
              | None =>
                  err ← createPolicies (GetCallsList intents) (reqNamespace req);
                  match err with
                  | Some e => mret (emptyResult, Some e)
                  | None => mret (emptyResult, None)
                  end
              end
        end
    end.

(** *** Basic facts about the client calls *)

Definition refCount (server namespace : string) (c : Cluster) : nat :=
  length (matchingIntents server namespace (intentsObjects c)).

(** Every stored object is stored under its own name and namespace. *)
Definition wfCluster (c : Cluster) : Prop :=
  map_Forall (λ k p, policyKey p = k) (networkPolicies c) ∧
  map_Forall (λ k o, intentsKey o = k) (intentsObjects c).

(** The key under which the rule of a Call is stored, for an Intents
    object of namespace [ns]. *)
Definition callKey (ns : string) (call : Intent) : NamespacedName :=
  mkNamespacedName (OtterizeNetworkPolicyName (Server call) ns)
                   (Namespace (defaultNamespace call ns)).

Definition ruleKey (intents : Intents) (call : Intent) : NamespacedName :=
  callKey (ObjNamespace intents) call.

Definition noFaults : Prop := ∀ n op, apiFault n op = None.

Ltac run_monad :=
  unfold mbind, M_bind, mret, M_ret in *; simpl in *.

Lemma defaultNamespace_Server intent ns :
  Server (defaultNamespace intent ns) = Server intent.
Proof. unfold defaultNamespace. by case_bool_decide. Qed.

Lemma GetPolicy_state key c :
  (GetPolicy key c).2 = logOp (OpGetPolicy key) c.
Proof.
  unfold GetPolicy. destruct (faultOf _ c); [done|].
  by destruct (networkPolicies c !! key).
Qed.

Lemma ListIntents_state server ns c :
  (ListIntents server ns c).2 = logOp (OpListIntents server ns) c.
Proof. unfold ListIntents. by destruct (faultOf _ c). Qed.


Lemma DeletePolicy_intents p c :
  intentsObjects (DeletePolicy p c).2 = intentsObjects c.
Proof.
  unfold DeletePolicy. destruct (faultOf _ c); [done|].
  by destruct (networkPolicies c !! policyKey p).
Qed.



Lemma DeletePolicy_wf p c : wfCluster c → wfCluster (DeletePolicy p c).2.
Proof.
  intros [Hp Hi]. unfold DeletePolicy. destruct (faultOf _ c); [done|].
  destruct (networkPolicies c !! policyKey p); simpl; [|done].
  split; [|done]. simpl. by apply map_Forall_delete.
Qed.

(** *** [removeNetworkPolicy] *)

(** Whatever the lookup and the deletion answer, [removeNetworkPolicy]
    reports no error. *)
Lemma removeNetworkPolicy_no_error intent ns c :
  (removeNetworkPolicy intent ns c).1 = None.
Proof.
  unfold removeNetworkPolicy. run_monad.
  destruct (GetPolicy _ c) as [[err p] c1].
  destruct (IsNotFound err); [done|].
  by destruct (DeletePolicy p c1) as [[e|] c2].
Qed.

Lemma removeNetworkPolicy_intents intent ns c :
  intentsObjects (removeNetworkPolicy intent ns c).2 = intentsObjects c.
Proof.
  unfold removeNetworkPolicy. run_monad.
  pose proof (GetPolicy_state
    (mkNamespacedName (OtterizeNetworkPolicyName (Server intent) ns)
                      (Namespace intent)) c) as Hs.
  destruct (GetPolicy _ c) as [[err p] c1]. simpl in Hs. subst c1.
  destruct (IsNotFound err); [done|].
  pose proof (DeletePolicy_intents p (logOp (OpGetPolicy
    (mkNamespacedName (OtterizeNetworkPolicyName (Server intent) ns)
                      (Namespace intent))) c)) as Hd.
  by destruct (DeletePolicy p _) as [[e|] c2].
Qed.

Lemma removeNetworkPolicy_unfold intent ns c :
  let key := mkNamespacedName (OtterizeNetworkPolicyName (Server intent) ns)
                              (Namespace intent) in
  let c1 := logOp (OpGetPolicy key) c in
  (removeNetworkPolicy intent ns c).2 =
    if IsNotFound (GetPolicy key c).1.1 then c1
    else (DeletePolicy (GetPolicy key c).1.2 c1).2.
Proof.
  intros key c1. unfold removeNetworkPolicy. run_monad. fold key.
  pose proof (GetPolicy_state key c) as Hs.
  destruct (GetPolicy key c) as [[err p] c2]. simpl in *. subst c2.
  destruct (IsNotFound err); [done|].
  fold c1. by destruct (DeletePolicy p c1) as [[e|] c2].
Qed.




Lemma removeNetworkPolicy_wf intent ns c :
  wfCluster c → wfCluster (removeNetworkPolicy intent ns c).2.
Proof.
  intros Hwf. rewrite removeNetworkPolicy_unfold.
  destruct (IsNotFound _); [done|]. by apply DeletePolicy_wf.
Qed.


(** *** The loop of [cleanFinalizerAndPolicies] *)

Lemma cleanPolicies_cons intent rest ns c :
  let i := defaultNamespace intent ns in
  cleanPolicies (intent :: rest) ns c =
    match (ListIntents (Server i) ns c).1.1 with
    | Some e => (Some e, logOp (OpListIntents (Server i) ns) c)
    | None =>
        if bool_decide (length (ListIntents (Server i) ns c).1.2 = 1) then
          cleanPolicies rest ns
            (removeNetworkPolicy i ns (logOp (OpListIntents (Server i) ns) c)).2
        else cleanPolicies rest ns (logOp (OpListIntents (Server i) ns) c)
    end.
Proof.
  intros i. simpl. run_monad. fold i.
  pose proof (ListIntents_state (Server i) ns c) as Hs.
  destruct (ListIntents (Server i) ns c) as [[err items] c1].
  simpl in *. subst c1. destruct err; [done|].
  case_bool_decide; [|done].
  pose proof (removeNetworkPolicy_no_error i ns
                (logOp (OpListIntents (Server i) ns) c)) as He.
  destruct (removeNetworkPolicy i ns _) as [e c2]. simpl in *. by subst e.
Qed.

Lemma cleanPolicies_intents calls ns c :
  intentsObjects (cleanPolicies calls ns c).2 = intentsObjects c.
Proof.
  revert c. induction calls as [|intent rest IH]; intros c; [done|].
  rewrite cleanPolicies_cons.
  destruct (ListIntents _ ns c).1.1; [done|].
  case_bool_decide; rewrite IH; [|done].
  by rewrite removeNetworkPolicy_intents.
Qed.





Lemma UpdateIntents_policies o c :
  networkPolicies (UpdateIntents o c).2 = networkPolicies c.
Proof.
  unfold UpdateIntents. destruct (faultOf _ c); [done|].
  by destruct (intentsObjects c !! intentsKey o).
Qed.



Lemma callKey_inj_server ns call1 call2 :
  callKey ns call1 = callKey ns call2 → Server call1 = Server call2.
Proof.
  unfold callKey, mkNamespacedName. intros Heq.
  apply (f_equal snd) in Heq. simpl in Heq.
  by apply OtterizeNetworkPolicyName_inj_server in Heq.
Qed.


(** *** [Reconcile] *)

Lemma GetIntents_state key c :
  (GetIntents key c).2 = logOp (OpGetIntents key) c.
Proof.
  unfold GetIntents. destruct (faultOf _ c); [done|].
  by destruct (intentsObjects c !! key).
Qed.

(** When the object is not found, or is found without a Spec, [Reconcile]
    returns at once: the lookup is the only call made. *)
Lemma Reconcile_absent req c :
  let got := (GetIntents (reqNamespacedName req) c).1 in
  IsNotFound got.1 = true ∨ (got.1 = None ∧ Spec got.2 = None) →
  Reconcile req c
  = ((emptyResult, None), logOp (OpGetIntents (reqNamespacedName req)) c).
Proof.
  intros got Hgot. subst got. unfold Reconcile. run_monad.
  pose proof (GetIntents_state (reqNamespacedName req) c) as Hs.
  destruct (GetIntents _ c) as [[err o] c1]. simpl in *. subst c1.
  destruct Hgot as [Hnf | [-> Hspec]].
  - by rewrite Hnf.
  - simpl. by rewrite Hspec.
Qed.

(** C9. Conflict retryability. When the object is found with a Spec and
    a deletion timestamp, and its cleanup fails with a conflict error,
    [Reconcile] asks for a requeue and returns no error. *)
Theorem Reconcile_conflict_requeues req c intents :
  (GetIntents (reqNamespacedName req) c).1 = (None, intents) →
  Spec intents ≠ None →
  DeletionTimestamp intents ≠ None →
  IsConflict
    (cleanFinalizerAndPolicies intents
       (logOp (OpGetIntents (reqNamespacedName req)) c)).1 = true →
  (Reconcile req c).1 = ({| Requeue := true |}, None).
Proof.
  intros Hget Hspec Hdel Hconf. unfold Reconcile. run_monad.
  pose proof (GetIntents_state (reqNamespacedName req) c) as Hs.
  destruct (GetIntents _ c) as [[err o] c1]. simpl in *.
  injection Hget as -> ->. subst c1. simpl.
  destruct (Spec intents); [|done].
  rewrite bool_decide_eq_true_2 by done.
  destruct (cleanFinalizerAndPolicies intents _) as [[e|] c2]; simpl in *.
  - by rewrite Hconf.
  - done.
Qed.

(** *** The store stays well-formed *)

Lemma logOp_wf op c : wfCluster c → wfCluster (logOp op c).
Proof. done. Qed.

Lemma UpdateIntents_wf o c : wfCluster c → wfCluster (UpdateIntents o c).2.
Proof.
  intros [Hp Hi]. unfold UpdateIntents. destruct (faultOf _ c); [done|].
  destruct (intentsObjects c !! intentsKey o); [|done].
  split; [done|]. simpl.
  destruct (DeletionTimestamp o), (Finalizers o);
    (by apply map_Forall_delete) || (by apply map_Forall_insert_2).
Qed.

Lemma CreatePolicy_wf p c : wfCluster c → wfCluster (CreatePolicy p c).2.
Proof.
  intros [Hp Hi]. unfold CreatePolicy. destruct (faultOf _ c); [done|].
  destruct (networkPolicies c !! policyKey p); [done|].
  split; [|done]. simpl. by apply map_Forall_insert_2.
Qed.

Lemma handleNetworkPolicyCreation_wf intent ns c :
  wfCluster c → wfCluster (handleNetworkPolicyCreation intent ns c).2.
Proof.
  intros Hwf. unfold handleNetworkPolicyCreation. run_monad.
  pose proof (GetPolicy_state
    (mkNamespacedName (OtterizeNetworkPolicyName (Server intent) ns)
                      (Namespace intent)) c) as Hs.
  destruct (GetPolicy _ c) as [[err p] c1]. simpl in Hs. subst c1.
  destruct (IsNotFound err).
  - pose proof (CreatePolicy_wf
      (buildNetworkPolicyObjectForIntent intent
         (OtterizeNetworkPolicyName (Server intent) ns) ns)
      _ (logOp_wf (OpGetPolicy
           (mkNamespacedName (OtterizeNetworkPolicyName (Server intent) ns)
                             (Namespace intent))) c Hwf)) as Hc.
    by destruct (CreatePolicy _ _) as [[e|] c2].
  - by destruct err.
Qed.

Lemma createPolicies_wf calls ns c :
  wfCluster c → wfCluster (createPolicies calls ns c).2.
Proof.
  revert c. induction calls as [|intent rest IH]; intros c Hwf; [done|].
  simpl. run_monad.
  pose proof (handleNetworkPolicyCreation_wf (defaultNamespace intent ns) ns c Hwf)
    as Hh.
  destruct (handleNetworkPolicyCreation _ ns c) as [[e|] c1]; [done|].
  by apply IH.
Qed.

Lemma cleanPolicies_wf calls ns c :
  wfCluster c → wfCluster (cleanPolicies calls ns c).2.
Proof.
  revert c. induction calls as [|intent rest IH]; intros c Hwf; [done|].
  rewrite cleanPolicies_cons.
  destruct (ListIntents _ ns c).1.1; [done|].
  case_bool_decide; apply IH; [|done].
  by apply removeNetworkPolicy_wf.
Qed.

Lemma cleanFinalizerAndPolicies_wf intents c :
  wfCluster c → wfCluster (cleanFinalizerAndPolicies intents c).2.
Proof.
  intros Hwf. unfold cleanFinalizerAndPolicies.
  destruct (ContainsFinalizer intents _); [|done]. run_monad.
  pose proof (cleanPolicies_wf (GetCallsList intents) (ObjNamespace intents) c Hwf)
    as Hc.
  destruct (cleanPolicies _ _ c) as [[e|] c1]; [done|]. simpl in *.
  pose proof (UpdateIntents_wf
                (RemoveFinalizer intents NetworkPolicyFinalizerName) c1 Hc) as Hu.
  by destruct (UpdateIntents _ c1) as [[e|] c2].
Qed.

(** Whatever fails, [Reconcile] leaves every stored object under its own
    name and namespace. *)
Lemma Reconcile_wf req c : wfCluster c → wfCluster (Reconcile req c).2.
Proof.
  intros Hwf. unfold Reconcile. run_monad.
  pose proof (GetIntents_state (reqNamespacedName req) c) as Hs.
  destruct (GetIntents _ c) as [[err intents] c1]. simpl in Hs. subst c1.
  destruct (IsNotFound err); [done|]. destruct err as [e|]; [done|].
  destruct (Spec intents); [|done].
  set (c1 := logOp _ c). assert (wfCluster c1) as Hwf1 by done.
  case_bool_decide.
  - pose proof (cleanFinalizerAndPolicies_wf intents c1 Hwf1) as Hc.
    destruct (cleanFinalizerAndPolicies intents c1) as [[e|] c2]; [|done].
    by destruct e.
  - destruct (negb (ContainsFinalizer intents NetworkPolicyFinalizerName)).
    + run_monad.
      pose proof (UpdateIntents_wf
                    (AddFinalizer intents NetworkPolicyFinalizerName) c1 Hwf1)
        as Hu.
      destruct (UpdateIntents _ c1) as [[e|] c2]; [done|]. simpl in *.
      pose proof (createPolicies_wf
        (GetCallsList (AddFinalizer intents NetworkPolicyFinalizerName))
        (reqNamespace req) c2 Hu) as Hp.
      by destruct (createPolicies _ _ c2) as [[e|] c3].
    + run_monad.
      pose proof (createPolicies_wf (GetCallsList intents)
                    (reqNamespace req) c1 Hwf1) as Hp.
      by destruct (createPolicies _ _ c1) as [[e|] c3].
Qed.

(** *** The order of the calls *)

(** The calls added from [c] to [c'] all satisfy [P]. *)
Definition appends (P : Op → Prop) (c c' : Cluster) : Prop :=
  ∃ l, trace c' = trace c ++ l ∧ Forall P l.

#[local] Instance appends_preorder P : PreOrder (appends P).
Proof.
  split.
  - intros c. exists []. by rewrite app_nil_r.
  - intros c1 c2 c3 (l1 & H1 & F1) (l2 & H2 & F2). exists (l1 ++ l2). split.
    + by rewrite H2, H1, (assoc_L (++)).
    + by apply Forall_app.
Qed.

Lemma logOp_appends (P : Op → Prop) op c : P op → appends P c (logOp op c).
Proof. intros Hop. exists [op]. split; [done|]. by repeat constructor. Qed.

(** The calls of rule creation, and the calls of rule teardown. *)
Definition isCreationOp (op : Op) : Prop :=
  match op with OpGetPolicy _ | OpCreatePolicy _ => True | _ => False end.

Definition isTeardownOp (op : Op) : Prop :=
  match op with
  | OpListIntents _ _ | OpGetPolicy _ | OpDeletePolicy _ => True
  | _ => False
  end.

Lemma UpdateIntents_trace o c :
  trace (UpdateIntents o c).2 = trace c ++ [OpUpdateIntents o].
Proof.
  unfold UpdateIntents. destruct (faultOf _ c); [done|].
  by destruct (intentsObjects c !! intentsKey o).
Qed.

Lemma CreatePolicy_state_trace p c :
  trace (CreatePolicy p c).2 = trace c ++ [OpCreatePolicy p].
Proof.
  unfold CreatePolicy. destruct (faultOf _ c); [done|].
  by destruct (networkPolicies c !! policyKey p).
Qed.

Lemma DeletePolicy_trace p c :
  trace (DeletePolicy p c).2 = trace c ++ [OpDeletePolicy (policyKey p)].
Proof.
  unfold DeletePolicy. destruct (faultOf _ c); [done|].
  by destruct (networkPolicies c !! policyKey p).
Qed.

Lemma handleNetworkPolicyCreation_appends intent ns c :
  appends isCreationOp c (handleNetworkPolicyCreation intent ns c).2.
Proof.
  unfold handleNetworkPolicyCreation. run_monad.
  set (key := mkNamespacedName _ _).
  pose proof (GetPolicy_state key c) as Hs.
  destruct (GetPolicy key c) as [[err p] c1]. simpl in Hs. subst c1.
  assert (appends isCreationOp c (logOp (OpGetPolicy key) c)) as Hget.
  { by apply logOp_appends. }
  destruct (IsNotFound err).
  - set (policy := buildNetworkPolicyObjectForIntent _ _ _).
    pose proof (CreatePolicy_state_trace policy (logOp (OpGetPolicy key) c)) as Hc.
    destruct (CreatePolicy policy _) as [err' c2]. simpl in Hc.
    assert (appends isCreationOp c c2) as Hc2.
    { etrans; [exact Hget|]. exists [OpCreatePolicy policy].
      split; [done|]. by repeat constructor. }
    by destruct err'.
  - by destruct err.
Qed.

Lemma createPolicies_appends calls ns c :
  appends isCreationOp c (createPolicies calls ns c).2.
Proof.
  revert c. induction calls as [|intent rest IH]; intros c; [reflexivity|].
  simpl. run_monad.
  pose proof (handleNetworkPolicyCreation_appends
                (defaultNamespace intent ns) ns c) as Hh.
  destruct (handleNetworkPolicyCreation _ ns c) as [[e|] c1]; [done|].
  simpl in Hh. etrans; [exact Hh|]. apply IH.
Qed.

Lemma removeNetworkPolicy_appends intent ns c :
  appends isTeardownOp c (removeNetworkPolicy intent ns c).2.
Proof.
  rewrite removeNetworkPolicy_unfold. cbv zeta.
  set (key := mkNamespacedName _ _).
  assert (appends isTeardownOp c (logOp (OpGetPolicy key) c)) as Hget.
  { by apply logOp_appends. }
  destruct (IsNotFound _); [done|].
  etrans; [exact Hget|]. eexists. split; [apply DeletePolicy_trace|].
  by repeat constructor.
Qed.

Lemma cleanPolicies_appends calls ns c :
  appends isTeardownOp c (cleanPolicies calls ns c).2.
Proof.
  revert c. induction calls as [|intent rest IH]; intros c; [reflexivity|].
  rewrite cleanPolicies_cons. cbv zeta.
  set (i := defaultNamespace intent ns).
  assert (appends isTeardownOp c (logOp (OpListIntents (Server i) ns) c))
    as Hlist.
  { by apply logOp_appends. }
  destruct (ListIntents _ ns c).1.1; [done|].
  case_bool_decide.
  - etrans; [exact Hlist|]. etrans; [apply removeNetworkPolicy_appends|].
    apply IH.
  - etrans; [exact Hlist|]. apply IH.
Qed.

(** On the terminating path the update that clears the finalizer is the
    last call, it follows the teardown calls of every Call, and it is made
    only if the loop over the Calls returned no error. *)
Lemma cleanFinalizerAndPolicies_order intents c :
  ContainsFinalizer intents NetworkPolicyFinalizerName = true →
  let loop := cleanPolicies (GetCallsList intents) (ObjNamespace intents) c in
  ∃ l, Forall isTeardownOp l
       ∧ trace loop.2 = trace c ++ l
       ∧ trace (cleanFinalizerAndPolicies intents c).2
         = trace c ++ l ++
           match loop.1 with
           | None => [OpUpdateIntents
                        (RemoveFinalizer intents NetworkPolicyFinalizerName)]
           | Some _ => []
           end.
Proof.
  intros Hfin loop.
  destruct (cleanPolicies_appends (GetCallsList intents)
              (ObjNamespace intents) c) as (l & Hl & Hforall).
  exists l. split; [done|]. split; [done|].
  unfold cleanFinalizerAndPolicies. rewrite Hfin. run_monad. subst loop.
  destruct (cleanPolicies _ _ c) as [[e|] c1]; simpl in *.
  - by rewrite Hl, app_nil_r.
  - pose proof (UpdateIntents_trace
                  (RemoveFinalizer intents NetworkPolicyFinalizerName) c1) as Hu.
    destruct (UpdateIntents _ c1) as [[e|] c2]; simpl in *;
      by rewrite Hu, Hl, (assoc_L (++)).
Qed.

(** On the active path, for an object that lacks the finalizer, the update
    that attaches it is the first call after the lookup; a successful
    update stores the object with the finalizer; every later call belongs
    to rule creation; and none is made when the update fails. *)
Lemma Reconcile_active_order req c intents :
  wfCluster c →
  (GetIntents (reqNamespacedName req) c).1 = (None, intents) →
  Spec intents ≠ None →
  DeletionTimestamp intents = None →
  ContainsFinalizer intents NetworkPolicyFinalizerName = false →
  let withFinalizer := AddFinalizer intents NetworkPolicyFinalizerName in
  let update :=
    UpdateIntents withFinalizer (logOp (OpGetIntents (reqNamespacedName req)) c) in
  ContainsFinalizer withFinalizer NetworkPolicyFinalizerName = true
  ∧ (update.1 = None →
     intentsObjects update.2 !! reqNamespacedName req = Some withFinalizer)
  ∧ ∃ l, trace (Reconcile req c).2
         = trace c ++ [OpGetIntents (reqNamespacedName req);
                       OpUpdateIntents withFinalizer] ++ l
         ∧ Forall isCreationOp l
         ∧ (update.1 ≠ None → l = [] ∧ (Reconcile req c).1.2 = update.1).
Proof.
  intros Hwf Hget Hspec Hdel Hfin withFinalizer update.
  assert (intentsObjects c !! reqNamespacedName req = Some intents) as Hstored.
  { revert Hget. unfold GetIntents. destruct (faultOf _ c); [done|].
    destruct (intentsObjects c !! _); simpl; congruence. }
  assert (intentsKey withFinalizer = reqNamespacedName req) as Hkey.
  { destruct Hwf as [_ Hi]. by apply (Hi _ _ Hstored). }
  split; [|split].
  - unfold withFinalizer, ContainsFinalizer, AddFinalizer, AddFinalizerTo. simpl.
    unfold ContainsFinalizer in Hfin. rewrite Hfin.
    unfold ContainsFinalizerIn. apply bool_decide_eq_true_2.
    apply elem_of_app. right. by apply list_elem_of_singleton.
  - subst update. unfold UpdateIntents. destruct (faultOf _ _); [done|].
    simpl. rewrite Hkey, Hstored. simpl. intros _.
    change (DeletionTimestamp withFinalizer) with (DeletionTimestamp intents).
    rewrite Hdel. apply lookup_insert_eq.
  - unfold Reconcile. run_monad.
    pose proof (GetIntents_state (reqNamespacedName req) c) as Hs.
    destruct (GetIntents _ c) as [[err o] c1]. simpl in *.
    injection Hget as -> ->. subst c1. simpl.
    destruct (Spec intents) eqn:Hsp; [|done].
    rewrite bool_decide_eq_false_2 by (intros Hne; by apply Hne).
    rewrite Hfin. simpl. fold withFinalizer. fold update.
    pose proof (UpdateIntents_trace withFinalizer
                  (logOp (OpGetIntents (reqNamespacedName req)) c)) as Hu.
    fold update in Hu. destruct update as [[e|] c2]; simpl in *.
    + exists []. rewrite Hu, <- (assoc_L (++)). by repeat split.
    + destruct (createPolicies_appends (GetCallsList withFinalizer)
                  (reqNamespace req) c2) as (l & Hl & Hforall).
      exists l. split; [|by split].
      destruct (createPolicies _ _ c2) as [[e|] c3]; simpl in *;
        by rewrite Hl, Hu, <- !(assoc_L (++)).
Qed.

(** *** Creating the rules of an active object *)

(** The key [handleNetworkPolicyCreation] and [removeNetworkPolicy] look
    up for a Call whose namespace is already filled in. *)
Definition lookupKey (intent : Intent) (ns : string) : NamespacedName :=
  mkNamespacedName (OtterizeNetworkPolicyName (Server intent) ns)
                   (Namespace intent).

Lemma callKey_lookupKey ns call :
  callKey ns call = lookupKey (defaultNamespace call ns) ns.
Proof. unfold callKey, lookupKey. by rewrite defaultNamespace_Server. Qed.

Lemma buildNetworkPolicyObjectForIntent_key intent ns :
  policyKey (buildNetworkPolicyObjectForIntent intent
               (OtterizeNetworkPolicyName (Server intent) ns) ns)
  = lookupKey intent ns.
Proof. done. Qed.

Lemma handleNetworkPolicyCreation_unfold intent ns c :
  let key := lookupKey intent ns in
  let c1 := logOp (OpGetPolicy key) c in
  let policy :=
    buildNetworkPolicyObjectForIntent intent
      (OtterizeNetworkPolicyName (Server intent) ns) ns in
  handleNetworkPolicyCreation intent ns c =
    if IsNotFound (GetPolicy key c).1.1 then CreatePolicy policy c1
    else ((GetPolicy key c).1.1, c1).
Proof.
  intros key c1 policy. unfold handleNetworkPolicyCreation. run_monad.
  unfold lookupKey in key. fold key.
  pose proof (GetPolicy_state key c) as Hs.
  destruct (GetPolicy key c) as [[err p] c2]. simpl in *. subst c2.
  destruct (IsNotFound err).
  - fold c1. fold policy. by destruct (CreatePolicy policy c1) as [[e|] c2].
  - by destruct err.
Qed.

Lemma CreatePolicy_intents p c :
  intentsObjects (CreatePolicy p c).2 = intentsObjects c.
Proof.
  unfold CreatePolicy. destruct (faultOf _ c); [done|].
  by destruct (networkPolicies c !! policyKey p).
Qed.

Lemma CreatePolicy_lookup_ne p c k :
  k ≠ policyKey p →
  networkPolicies (CreatePolicy p c).2 !! k = networkPolicies c !! k.
Proof.
  intros Hne. unfold CreatePolicy. destruct (faultOf _ c); [done|].
  destruct (networkPolicies c !! policyKey p); simpl; [done|].
  by rewrite lookup_insert_ne.
Qed.

(** [Create] never replaces a stored rule. *)
Lemma CreatePolicy_keeps p c k q :
  networkPolicies c !! k = Some q →
  networkPolicies (CreatePolicy p c).2 !! k = Some q.
Proof.
  intros Hk. unfold CreatePolicy. destruct (faultOf _ c); [done|].
  destruct (networkPolicies c !! policyKey p) eqn:Hp; simpl; [done|].
  rewrite lookup_insert_ne; [done|]. intros <-. congruence.
Qed.

Lemma CreatePolicy_success p c :
  (CreatePolicy p c).1 = None →
  networkPolicies c !! policyKey p = None ∧
  networkPolicies (CreatePolicy p c).2 !! policyKey p = Some p.
Proof.
  unfold CreatePolicy. destruct (faultOf _ c); [done|].
  destruct (networkPolicies c !! policyKey p) eqn:Hp; simpl; [done|].
  intros _. split; [done|]. apply lookup_insert_eq.
Qed.

Lemma GetPolicy_None key c :
  (GetPolicy key c).1.1 = None → is_Some (networkPolicies c !! key).
Proof.
  unfold GetPolicy. destruct (faultOf _ c); [done|].
  destruct (networkPolicies c !! key); simpl; [eauto|done].
Qed.

Lemma handleNetworkPolicyCreation_intents intent ns c :
  intentsObjects (handleNetworkPolicyCreation intent ns c).2 = intentsObjects c.
Proof.
  rewrite handleNetworkPolicyCreation_unfold. cbv zeta.
  destruct (IsNotFound _); [|done]. by rewrite CreatePolicy_intents.
Qed.

Lemma handleNetworkPolicyCreation_lookup_ne intent ns c k :
  k ≠ lookupKey intent ns →
  networkPolicies (handleNetworkPolicyCreation intent ns c).2 !! k
  = networkPolicies c !! k.
Proof.
  intros Hne. rewrite handleNetworkPolicyCreation_unfold. cbv zeta.
  destruct (IsNotFound _); [|done].
  rewrite CreatePolicy_lookup_ne; [done|].
  by rewrite buildNetworkPolicyObjectForIntent_key.
Qed.

Lemma handleNetworkPolicyCreation_keeps intent ns c k q :
  networkPolicies c !! k = Some q →
  networkPolicies (handleNetworkPolicyCreation intent ns c).2 !! k = Some q.
Proof.
  intros Hk. rewrite handleNetworkPolicyCreation_unfold. cbv zeta.
  destruct (IsNotFound _); [|done]. by apply CreatePolicy_keeps.
Qed.

Lemma handleNetworkPolicyCreation_success intent ns c :
  (handleNetworkPolicyCreation intent ns c).1 = None →
  is_Some (networkPolicies (handleNetworkPolicyCreation intent ns c).2
             !! lookupKey intent ns).
Proof.
  rewrite handleNetworkPolicyCreation_unfold. cbv zeta.
  destruct (IsNotFound _) eqn:Hnf.
  - intros Hc. apply CreatePolicy_success in Hc as [_ Hc].
    rewrite buildNetworkPolicyObjectForIntent_key in Hc. eauto.
  - simpl. intros He. by apply GetPolicy_None.
Qed.

(** With no injected failure the call succeeds: a stored rule is found,
    a missing one is created. *)
Lemma handleNetworkPolicyCreation_noFaults intent ns c :
  noFaults →
  (handleNetworkPolicyCreation intent ns c).1 = None ∧
  networkPolicies (handleNetworkPolicyCreation intent ns c).2
    !! lookupKey intent ns
  = Some (default
            (buildNetworkPolicyObjectForIntent intent
               (OtterizeNetworkPolicyName (Server intent) ns) ns)
            (networkPolicies c !! lookupKey intent ns)).
Proof.
  intros Hnf. rewrite handleNetworkPolicyCreation_unfold. cbv zeta.
  unfold GetPolicy, faultOf. rewrite Hnf.
  destruct (networkPolicies c !! lookupKey intent ns) as [p|] eqn:Hk; simpl.
  - done.
  - unfold CreatePolicy, faultOf. rewrite Hnf.
    rewrite buildNetworkPolicyObjectForIntent_key. simpl. rewrite Hk. simpl.
    split; [done|]. apply lookup_insert_eq.
Qed.

Lemma createPolicies_cons intent rest ns c :
  let i := defaultNamespace intent ns in
  createPolicies (intent :: rest) ns c =
    match (handleNetworkPolicyCreation i ns c).1 with
    | Some e => (Some e, (handleNetworkPolicyCreation i ns c).2)
    | None => createPolicies rest ns (handleNetworkPolicyCreation i ns c).2
    end.
Proof.
  intros i. simpl. run_monad. fold i.
  by destruct (handleNetworkPolicyCreation i ns c) as [[e|] c1].
Qed.

Lemma createPolicies_intents calls ns c :
  intentsObjects (createPolicies calls ns c).2 = intentsObjects c.
Proof.
  revert c. induction calls as [|intent rest IH]; intros c; [done|].
  rewrite createPolicies_cons. cbv zeta.
  destruct (handleNetworkPolicyCreation _ ns c).1.
  - apply handleNetworkPolicyCreation_intents.
  - rewrite IH. apply handleNetworkPolicyCreation_intents.
Qed.

Lemma createPolicies_keeps calls ns c k q :
  networkPolicies c !! k = Some q →
  networkPolicies (createPolicies calls ns c).2 !! k = Some q.
Proof.
  revert c. induction calls as [|intent rest IH]; intros c Hk; [done|].
  rewrite createPolicies_cons. cbv zeta.
  destruct (handleNetworkPolicyCreation _ ns c).1.
  - by apply handleNetworkPolicyCreation_keeps.
  - by apply IH, handleNetworkPolicyCreation_keeps.
Qed.

Lemma createPolicies_lookup_ne calls ns c k :
  (∀ call, call ∈ calls → callKey ns call ≠ k) →
  networkPolicies (createPolicies calls ns c).2 !! k = networkPolicies c !! k.
Proof.
  revert c. induction calls as [|intent rest IH]; intros c Hcalls; [done|].
  rewrite createPolicies_cons. cbv zeta.
  assert (k ≠ lookupKey (defaultNamespace intent ns) ns) as Hne.
  { rewrite <- callKey_lookupKey. intros ->. by apply (Hcalls intent); [left|]. }
  destruct (handleNetworkPolicyCreation _ ns c).1.
  - by apply handleNetworkPolicyCreation_lookup_ne.
  - rewrite IH.
    + by apply handleNetworkPolicyCreation_lookup_ne.
    + intros call Hin. apply Hcalls. by right.
Qed.

Lemma createPolicies_success calls ns c call :
  (createPolicies calls ns c).1 = None →
  call ∈ calls →
  is_Some (networkPolicies (createPolicies calls ns c).2 !! callKey ns call).
Proof.
  revert c. induction calls as [|intent rest IH]; intros c Hok Hin.
  { by apply elem_of_nil in Hin. }
  revert Hok. rewrite createPolicies_cons. cbv zeta.
  destruct (handleNetworkPolicyCreation _ ns c).1 eqn:Hh; [done|]. intros Hok.
  apply elem_of_cons in Hin as [-> | Hin]; [|by apply IH].
  destruct (handleNetworkPolicyCreation_success _ ns c Hh) as [q Hq].
  rewrite <- callKey_lookupKey in Hq.
  exists q. by apply createPolicies_keeps.
Qed.

Lemma createPolicies_noFaults calls ns c :
  noFaults → (createPolicies calls ns c).1 = None.
Proof.
  intros Hnf. revert c. induction calls as [|intent rest IH]; intros c; [done|].
  rewrite createPolicies_cons. cbv zeta.
  destruct (handleNetworkPolicyCreation_noFaults (defaultNamespace intent ns)
              ns c Hnf) as [-> _].
  apply IH.
Qed.

(** When the rule of every Call is stored, the loop changes no rule,
    whichever calls fail. *)
Lemma createPolicies_present calls ns c :
  (∀ call, call ∈ calls → is_Some (networkPolicies c !! callKey ns call)) →
  networkPolicies (createPolicies calls ns c).2 = networkPolicies c.
Proof.
  intros Hall. apply map_eq. intros k.
  destruct (networkPolicies c !! k) as [q|] eqn:Hk.
  - by apply createPolicies_keeps.
  - rewrite createPolicies_lookup_ne; [done|]. intros call Hin <-.
    destruct (Hall call Hin) as [q Hq]. congruence.
Qed.

(** *** [Reconcile], path by path *)

Definition pathResult (r : error * Cluster) : (Result * error) * Cluster :=
  ((emptyResult, r.1), r.2).

Lemma GetIntents_stored key c intents :
  (GetIntents key c).1 = (None, intents) → intentsObjects c !! key = Some intents.
Proof.
  unfold GetIntents. destruct (faultOf _ c); [done|].
  destruct (intentsObjects c !! key); simpl; congruence.
Qed.

Lemma stored_key c key intents :
  wfCluster c → intentsObjects c !! key = Some intents → intentsKey intents = key.
Proof. intros [_ Hi] Hk. by apply (Hi key intents). Qed.

(** The active path: the finalizer is attached if it is missing, then the
    rules are created. *)
Lemma Reconcile_active req c intents :
  (GetIntents (reqNamespacedName req) c).1 = (None, intents) →
  Spec intents ≠ None →
  DeletionTimestamp intents = None →
  let c1 := logOp (OpGetIntents (reqNamespacedName req)) c in
  let update :=
    UpdateIntents (AddFinalizer intents NetworkPolicyFinalizerName) c1 in
  Reconcile req c =
    if ContainsFinalizer intents NetworkPolicyFinalizerName then
      pathResult (createPolicies (GetCallsList intents) (reqNamespace req) c1)
    else
      match update.1 with
      | Some e => ((emptyResult, Some e), update.2)
      | None =>
          pathResult
            (createPolicies (GetCallsList intents) (reqNamespace req) update.2)
      end.
Proof.
  intros Hget Hspec Hdel c1 update. unfold Reconcile. run_monad.
  pose proof (GetIntents_state (reqNamespacedName req) c) as Hs.
  destruct (GetIntents _ c) as [[err o] c2]. simpl in *.
  injection Hget as -> ->. subst c2. simpl.
  destruct (Spec intents) eqn:Hsp; [|done].
  rewrite bool_decide_eq_false_2 by (intros Hne; by apply Hne).
  fold c1. destruct (ContainsFinalizer intents _); simpl.
  - unfold pathResult. by destruct (createPolicies _ _ c1) as [[e|] c3].
  - fold update. destruct update as [[e|] c2]; simpl; [done|].
    change (GetCallsList (AddFinalizer intents NetworkPolicyFinalizerName))
      with (GetCallsList intents).
    unfold pathResult. by destruct (createPolicies _ _ c2) as [[e|] c3].
Qed.

(** The terminating path. *)
Lemma Reconcile_terminating req c intents :
  (GetIntents (reqNamespacedName req) c).1 = (None, intents) →
  Spec intents ≠ None →
  DeletionTimestamp intents ≠ None →
  let cleanup :=
    cleanFinalizerAndPolicies intents
      (logOp (OpGetIntents (reqNamespacedName req)) c) in
  Reconcile req c =
    (if IsConflict cleanup.1 then ({| Requeue := true |}, None)
     else (emptyResult, cleanup.1),
     cleanup.2).
Proof.
  intros Hget Hspec Hdel cleanup. unfold Reconcile. run_monad.
  pose proof (GetIntents_state (reqNamespacedName req) c) as Hs.
  destruct (GetIntents _ c) as [[err o] c2]. simpl in *.
  injection Hget as -> ->. subst c2. simpl.
  destruct (Spec intents) eqn:Hsp; [|done].
  rewrite bool_decide_eq_true_2 by done. fold cleanup.
  destruct cleanup as [[e|] c2]; simpl; [|done]. by destruct e.
Qed.

(** The paths that return right after the lookup. *)
Lemma Reconcile_early req c :
  (GetIntents (reqNamespacedName req) c).1.1 ≠ None
  ∨ Spec (GetIntents (reqNamespacedName req) c).1.2 = None →
  (Reconcile req c).2 = logOp (OpGetIntents (reqNamespacedName req)) c
  ∧ Requeue (Reconcile req c).1.1 = false.
Proof.
  intros Hearly. unfold Reconcile. run_monad.
  pose proof (GetIntents_state (reqNamespacedName req) c) as Hs.
  destruct (GetIntents _ c) as [[err o] c2]. simpl in *. subst c2.
  destruct (IsNotFound err); [done|]. destruct err as [e|]; [done|].
  destruct Hearly as [? | Hspec]; [done|]. by rewrite Hspec.
Qed.

Lemma UpdateIntents_stored o c :
  (UpdateIntents o c).1 = None →
  DeletionTimestamp o = None →
  intentsObjects (UpdateIntents o c).2 !! intentsKey o = Some o.
Proof.
  unfold UpdateIntents. destruct (faultOf _ c); [done|].
  destruct (intentsObjects c !! intentsKey o); simpl; [|done].
  intros _ ->. apply lookup_insert_eq.
Qed.

Lemma AddFinalizer_contains o f : ContainsFinalizer (AddFinalizer o f) f = true.
Proof.
  unfold ContainsFinalizer, AddFinalizer, AddFinalizerTo. simpl.
  destruct (ContainsFinalizerIn (Finalizers o) f) eqn:Hc; [done|].
  apply bool_decide_eq_true_2, elem_of_app. right.
  by apply list_elem_of_singleton.
Qed.

Lemma RemoveFinalizer_contains o f :
  ContainsFinalizer (RemoveFinalizer o f) f = false.
Proof.
  unfold ContainsFinalizer, RemoveFinalizer, RemoveFinalizerFrom,
    ContainsFinalizerIn. simpl.
  apply bool_decide_eq_false_2. intros Hin.
  by apply list_elem_of_filter in Hin as [Hne _].
Qed.

(** The object the active path leaves in the store. *)
Definition withFinalizerOf (intents : Intents) : Intents :=
  if ContainsFinalizer intents NetworkPolicyFinalizerName then intents
  else AddFinalizer intents NetworkPolicyFinalizerName.

Lemma Reconcile_active_facts req c intents :
  wfCluster c →
  (GetIntents (reqNamespacedName req) c).1 = (None, intents) →
  Spec intents ≠ None →
  DeletionTimestamp intents = None →
  let run := Reconcile req c in
  (noFaults → run.1 = (emptyResult, None))
  ∧ (run.1.2 = None →
     (∀ call, call ∈ GetCallsList intents →
        is_Some (networkPolicies run.2 !! callKey (reqNamespace req) call))
     ∧ intentsObjects run.2 !! reqNamespacedName req
       = Some (withFinalizerOf intents)).
Proof.
  intros Hwf Hget Hspec Hdel run. subst run.
  pose proof (GetIntents_stored _ _ _ Hget) as Hstored.
  pose proof (stored_key _ _ _ Hwf Hstored) as Hkey.
  rewrite (Reconcile_active req c intents Hget Hspec Hdel). cbv zeta.
  set (c1 := logOp _ c). unfold withFinalizerOf.
  set (withFinalizer := AddFinalizer intents NetworkPolicyFinalizerName).
  destruct (ContainsFinalizer intents NetworkPolicyFinalizerName) eqn:Hfin.
  - unfold pathResult. simpl. split.
    + intros Hnf. by rewrite createPolicies_noFaults.
    + intros Hok. split.
      * intros call Hin. by apply createPolicies_success.
      * by rewrite createPolicies_intents.
  - assert (intentsKey withFinalizer = reqNamespacedName req) as Hkey' by done.
    destruct (UpdateIntents withFinalizer c1).1 as [e|] eqn:Hu.
    + split; [|done]. intros Hnf. revert Hu.
      unfold UpdateIntents, faultOf. rewrite Hnf, Hkey'. simpl.
      by rewrite Hstored.
    + unfold pathResult. simpl. split.
      * intros Hnf. by rewrite createPolicies_noFaults.
      * intros Hok. split.
        -- intros call Hin. by apply createPolicies_success.
        -- rewrite createPolicies_intents, <- Hkey'.
           by apply UpdateIntents_stored.
Qed.


(** On an active object [Reconcile] leaves every stored rule as it is: no
    rule is deleted, and a rule that exists is not patched. *)
Theorem Reconcile_active_keeps_rules req c intents k q :
  (GetIntents (reqNamespacedName req) c).1 = (None, intents) →
  Spec intents ≠ None →
  DeletionTimestamp intents = None →
  networkPolicies c !! k = Some q →
  networkPolicies (Reconcile req c).2 !! k = Some q.
Proof.
  intros Hget Hspec Hdel Hk.
  rewrite (Reconcile_active req c intents Hget Hspec Hdel). cbv zeta.
  destruct (ContainsFinalizer intents _).
  - by apply createPolicies_keeps.
  - destruct (UpdateIntents _ _).1 eqn:Hu.
    + simpl. by rewrite UpdateIntents_policies.
    + apply createPolicies_keeps. by rewrite UpdateIntents_policies.
Qed.

(** [Reconcile] asks for a requeue only when the cleanup of a terminating
    object met a conflict, and then it returns no error. *)
Theorem Reconcile_requeue_only_on_conflict req c :
  Requeue (Reconcile req c).1.1 = true →
  (Reconcile req c).1.2 = None
  ∧ ∃ intents,
      (GetIntents (reqNamespacedName req) c).1 = (None, intents)
      ∧ DeletionTimestamp intents ≠ None
      ∧ IsConflict
          (cleanFinalizerAndPolicies intents
             (logOp (OpGetIntents (reqNamespacedName req)) c)).1 = true.
Proof.
  intros Hrq.
  destruct (GetIntents (reqNamespacedName req) c) as [[err intents] c0] eqn:Hg.
  assert ((GetIntents (reqNamespacedName req) c).1 = (err, intents)) as Hget.
  { by rewrite Hg. }
  destruct err as [e|].
  { destruct (Reconcile_early req c) as [_ Hno]; [left; by rewrite Hget|].
    congruence. }
  destruct (Spec intents) eqn:Hspec.
  2:{ destruct (Reconcile_early req c) as [_ Hno]; [right; by rewrite Hget|].
      congruence. }
  assert (Spec intents ≠ None) as Hspec' by congruence.
  destruct (DeletionTimestamp intents) as [t|] eqn:Hdel.
  - assert (DeletionTimestamp intents ≠ None) as Hdel' by congruence.
    revert Hrq. rewrite (Reconcile_terminating req c intents Hget Hspec' Hdel').
    cbv zeta. destruct (IsConflict _) eqn:Hconf; simpl; [|done].
    intros _. split; [done|]. by exists intents.
  - revert Hrq. rewrite (Reconcile_active req c intents Hget Hspec' Hdel).
    cbv zeta. destruct (ContainsFinalizer intents _); [done|].
    by destruct (UpdateIntents _ _).1.
Qed.

(** A terminating object that does not carry the finalizer is left alone:
    the lookup is the only call, and [Reconcile] succeeds. *)
Lemma Reconcile_released req c intents :
  (GetIntents (reqNamespacedName req) c).1 = (None, intents) →
  Spec intents ≠ None →
  DeletionTimestamp intents ≠ None →
  ContainsFinalizer intents NetworkPolicyFinalizerName = false →
  Reconcile req c
  = ((emptyResult, None), logOp (OpGetIntents (reqNamespacedName req)) c).
Proof.
  intros Hget Hspec Hdel Hfin.
  rewrite (Reconcile_terminating req c intents Hget Hspec Hdel). cbv zeta.
  unfold cleanFinalizerAndPolicies. by rewrite Hfin.
Qed.

(** *** A second run changes nothing *)

(** The object of the request needs no further work. *)
Definition settled (req : Request) (c : Cluster) : Prop :=
  match intentsObjects c !! reqNamespacedName req with
  | None => True
  | Some o =>
      Spec o = None
      ∨ (DeletionTimestamp o ≠ None
         ∧ ContainsFinalizer o NetworkPolicyFinalizerName = false)
      ∨ (DeletionTimestamp o = None
         ∧ ContainsFinalizer o NetworkPolicyFinalizerName = true
         ∧ ∀ call, call ∈ GetCallsList o →
             is_Some (networkPolicies c !! callKey (reqNamespace req) call))
  end.

Lemma GetIntents_noFaults key c :
  noFaults →
  (GetIntents key c).1 =
    match intentsObjects c !! key with
    | Some o => (None, o)
    | None => (Some ErrNotFound, zeroIntents)
    end.
Proof.
  intros Hnf. unfold GetIntents, faultOf. rewrite Hnf.
  by destruct (intentsObjects c !! key).
Qed.

Lemma cleanPolicies_noFaults calls ns c :
  noFaults → (cleanPolicies calls ns c).1 = None.
Proof.
  intros Hnf. revert c. induction calls as [|i rest IH]; intros c; [done|].
  rewrite cleanPolicies_cons. unfold ListIntents at 1, faultOf.
  rewrite Hnf. simpl. by case_bool_decide.
Qed.

Lemma Reconcile_settled_stable req c :
  noFaults → settled req c →
  (Reconcile req c).1 = (emptyResult, None)
  ∧ intentsObjects (Reconcile req c).2 = intentsObjects c
  ∧ networkPolicies (Reconcile req c).2 = networkPolicies c.
Proof.
  intros Hnf Hset. unfold settled in Hset.
  pose proof (GetIntents_noFaults (reqNamespacedName req) c Hnf) as Hget.
  destruct (intentsObjects c !! reqNamespacedName req) as [o|] eqn:Hstored.
  - destruct (Spec o) eqn:Hspec.
    + assert (Spec o ≠ None) as Hspec' by congruence.
      destruct Hset as [? | [[Hdel Hfin] | (Hdel & Hfin & Hrules)]]; [done| |].
      * by rewrite (Reconcile_released req c o).
      * rewrite (Reconcile_active req c o Hget Hspec' Hdel). cbv zeta.
        rewrite Hfin. unfold pathResult. simpl.
        rewrite createPolicies_noFaults, createPolicies_intents by done.
        by rewrite createPolicies_present.
    + rewrite (Reconcile_absent req c); [done|]. right. by rewrite Hget.
  - rewrite (Reconcile_absent req c); [done|]. left. by rewrite Hget.
Qed.

Lemma Reconcile_settles req c :
  noFaults → wfCluster c →
  (Reconcile req c).1 = (emptyResult, None) ∧ settled req (Reconcile req c).2.
Proof.
  intros Hnf Hwf.
  pose proof (GetIntents_noFaults (reqNamespacedName req) c Hnf) as Hget.
  destruct (intentsObjects c !! reqNamespacedName req) as [o|] eqn:Hstored.
  2:{ rewrite (Reconcile_absent req c) by (left; by rewrite Hget).
      split; [done|]. unfold settled. simpl. by rewrite Hstored. }
  destruct (Spec o) eqn:Hspec.
  2:{ rewrite (Reconcile_absent req c) by (right; by rewrite Hget).
      split; [done|]. unfold settled. simpl. rewrite Hstored. by left. }
  assert (Spec o ≠ None) as Hspec' by congruence.
  pose proof (stored_key _ _ _ Hwf Hstored) as Hkey.
  destruct (DeletionTimestamp o) as [t|] eqn:Hdel.
  - assert (DeletionTimestamp o ≠ None) as Hdel' by congruence.
    destruct (ContainsFinalizer o NetworkPolicyFinalizerName) eqn:Hfin.
    2:{ rewrite (Reconcile_released req c o) by done.
        split; [done|]. unfold settled. simpl. rewrite Hstored. right. by left. }
    rewrite (Reconcile_terminating req c o Hget Hspec' Hdel'). cbv zeta.
    set (c1 := logOp _ c).
    unfold cleanFinalizerAndPolicies. rewrite Hfin. run_monad.
    pose proof (cleanPolicies_noFaults (GetCallsList o) (ObjNamespace o) c1 Hnf)
      as Hloop.
    pose proof (cleanPolicies_intents (GetCallsList o) (ObjNamespace o) c1)
      as Hint.
    destruct (cleanPolicies _ _ c1) as [err c2]. simpl in *. subst err.
    set (o' := RemoveFinalizer o NetworkPolicyFinalizerName).
    assert (intentsKey o' = reqNamespacedName req) as Hkey' by done.
    unfold UpdateIntents, faultOf. rewrite Hnf, Hkey', Hint. simpl.
    rewrite Hstored. simpl. split; [done|]. unfold settled. simpl.
    change (DeletionTimestamp o') with (DeletionTimestamp o). rewrite Hdel.
    change (RemoveFinalizerFrom (Finalizers o) NetworkPolicyFinalizerName)
      with (Finalizers o').
    destruct (Finalizers o') eqn:Hfs.
    + by rewrite lookup_delete_eq.
    + rewrite lookup_insert_eq. right. left. split; [done|].
      apply RemoveFinalizer_contains.
  - destruct (Reconcile_active_facts req c o Hwf Hget Hspec' Hdel)
      as [Hsuccess Hfacts].
    specialize (Hsuccess Hnf). split; [done|].
    destruct Hfacts as [Hrules Hobj]; [by rewrite Hsuccess|].
    unfold settled. rewrite Hobj. right. right.
    assert (GetCallsList (withFinalizerOf o) = GetCallsList o
            ∧ DeletionTimestamp (withFinalizerOf o) = None
            ∧ ContainsFinalizer (withFinalizerOf o) NetworkPolicyFinalizerName
              = true) as (Hcalls & Hdel' & Hfin').
    { unfold withFinalizerOf.
      destruct (ContainsFinalizer o _) eqn:Hfin; [done|].
      split; [done|]. split; [done|]. apply AddFinalizer_contains. }
    split; [done|]. split; [done|]. by rewrite Hcalls.
Qed.

(** With no injected failure [Reconcile] succeeds and reaches a fixed
    point: a second run for the same request succeeds and leaves the
    stored objects and the stored rules as the first run left them. *)
Theorem Reconcile_idempotent req c :
  noFaults → wfCluster c →
  let first := Reconcile req c in
  let second := Reconcile req first.2 in
  first.1 = (emptyResult, None)
  ∧ second.1 = (emptyResult, None)
  ∧ intentsObjects second.2 = intentsObjects first.2
  ∧ networkPolicies second.2 = networkPolicies first.2.
Proof.
  intros Hnf Hwf first second.
  destruct (Reconcile_settles req c Hnf Hwf) as [Hok Hset].
  split; [exact Hok|]. by apply Reconcile_settled_stable.
Qed.

(** *** What a run leaves alone *)



(** The teardown of a terminating object creates no rule. *)
Lemma cleanFinalizerAndPolicies_creates_nothing intents c :
  ∃ l, trace (cleanFinalizerAndPolicies intents c).2 = trace c ++ l
       ∧ ∀ p, OpCreatePolicy p ∉ l.
Proof.
  unfold cleanFinalizerAndPolicies.
  destruct (ContainsFinalizer intents NetworkPolicyFinalizerName).
  2:{ exists []. split; [by rewrite app_nil_r|]. intros p. apply not_elem_of_nil. }
  run_monad.
  destruct (cleanPolicies_appends (GetCallsList intents)
              (ObjNamespace intents) c) as (l & Hl & Hops).
  assert (∀ p, OpCreatePolicy p ∉ l) as Hno.
  { intros p Hp. by apply (proj1 (Forall_forall _ _) Hops) in Hp. }
  destruct (cleanPolicies _ _ c) as [[e|] c1]; simpl in *; [by exists l|].
  pose proof (UpdateIntents_trace
                (RemoveFinalizer intents NetworkPolicyFinalizerName) c1) as Hu.
  exists (l ++ [OpUpdateIntents
                  (RemoveFinalizer intents NetworkPolicyFinalizerName)]).
  split.
  - destruct (UpdateIntents _ c1) as [[e|] c2]; simpl in *;
      by rewrite Hu, Hl, (assoc_L (++)).
  - intros p Hp. apply elem_of_app in Hp as [Hp | Hp]; [by apply (Hno p)|].
    by apply list_elem_of_singleton in Hp.
Qed.

(** The calls one run adds to the trace: rules are created only for an
    active object, and deleted only for a terminating object that carries
    the finalizer. *)
Theorem Reconcile_writes_by_phase req c :
  let got := (GetIntents (reqNamespacedName req) c).1.2 in
  ∃ l, trace (Reconcile req c).2 = trace c ++ l
       ∧ (∀ p, OpCreatePolicy p ∈ l → DeletionTimestamp got = None)
       ∧ (∀ k, OpDeletePolicy k ∈ l →
            DeletionTimestamp got ≠ None
            ∧ ContainsFinalizer got NetworkPolicyFinalizerName = true).
Proof.
  intros got. subst got.
  destruct (GetIntents (reqNamespacedName req) c) as [[err intents] c0] eqn:Hg.
  assert ((GetIntents (reqNamespacedName req) c).1 = (err, intents)) as Hget.
  { by rewrite Hg. }
  simpl.
  assert (∀ l, l = [OpGetIntents (reqNamespacedName req)] →
            (∀ p, OpCreatePolicy p ∈ l → DeletionTimestamp intents = None)
            ∧ (∀ k, OpDeletePolicy k ∈ l →
                 DeletionTimestamp intents ≠ None
                 ∧ ContainsFinalizer intents NetworkPolicyFinalizerName = true))
    as Honly.
  { intros l ->. split; intros x Hx; by apply list_elem_of_singleton in Hx. }
  destruct err as [e|].
  { destruct (Reconcile_early req c) as [-> _]; [left; by rewrite Hget|].
    eexists. split; [done|]. by apply Honly. }
  destruct (Spec intents) eqn:Hspec.
  2:{ destruct (Reconcile_early req c) as [-> _]; [right; by rewrite Hget|].
      eexists. split; [done|]. by apply Honly. }
  assert (Spec intents ≠ None) as Hspec' by congruence.
  destruct (DeletionTimestamp intents) as [t|] eqn:Hdel.
  - assert (DeletionTimestamp intents ≠ None) as Hdel' by congruence.
    rewrite (Reconcile_terminating req c intents Hget Hspec' Hdel'). cbv zeta.
    simpl. set (c1 := logOp _ c).
    destruct (ContainsFinalizer intents NetworkPolicyFinalizerName) eqn:Hfin.
    + destruct (cleanFinalizerAndPolicies_creates_nothing intents c1)
        as (l & Htrace & Hno).
      rewrite Htrace.
      change (trace c1) with (trace c ++ [OpGetIntents (reqNamespacedName req)]).
      eexists. split; [by rewrite <- (assoc_L (++))|]. split.
      * intros p Hp. exfalso.
        apply elem_of_cons in Hp as [? | Hp]; [done|]. by apply (Hno p).
      * done.
    + unfold cleanFinalizerAndPolicies. rewrite Hfin. simpl.
      eexists. split; [done|]. by apply Honly.
  - rewrite (Reconcile_active req c intents Hget Hspec' Hdel). cbv zeta.
    set (c1 := logOp _ c).
    assert (∀ c2 l0, trace c2 = trace c ++ l0 →
              (∀ k, OpDeletePolicy k ∉ l0) →
              ∃ l, trace (createPolicies (GetCallsList intents)
                            (reqNamespace req) c2).2 = trace c ++ l
                   ∧ ∀ k, OpDeletePolicy k ∉ l) as Hcreate.
    { intros c2 l0 Hc2 Hl0.
      destruct (createPolicies_appends (GetCallsList intents)
                  (reqNamespace req) c2) as (l & Hl & Hops).
      exists (l0 ++ l). split; [by rewrite Hl, Hc2, (assoc_L (++))|].
      intros k Hk. apply elem_of_app in Hk as [Hk | Hk]; [by apply (Hl0 k)|].
      by apply (proj1 (Forall_forall _ _) Hops) in Hk. }
    assert (∃ l, trace (Reconcile req c).2 = trace c ++ l
                 ∧ ∀ k, OpDeletePolicy k ∉ l) as (l & Hl & Hno).
    { rewrite (Reconcile_active req c intents Hget Hspec' Hdel). cbv zeta.
      fold c1. destruct (ContainsFinalizer intents _).
      - apply (Hcreate c1 [OpGetIntents (reqNamespacedName req)]); [done|].
        intros k Hk. by apply list_elem_of_singleton in Hk.
      - pose proof (UpdateIntents_trace
          (AddFinalizer intents NetworkPolicyFinalizerName) c1) as Hu.
        assert (∀ k, OpDeletePolicy k ∉
                  [OpGetIntents (reqNamespacedName req);
                   OpUpdateIntents
                     (AddFinalizer intents NetworkPolicyFinalizerName)])
          as Hnone.
        { intros k Hk. apply elem_of_cons in Hk as [? | Hk]; [done|].
          by apply list_elem_of_singleton in Hk. }
        destruct (UpdateIntents _ c1).1.
        + eexists. split; [|exact Hnone]. simpl. rewrite Hu.
          change (trace c1)
            with (trace c ++ [OpGetIntents (reqNamespacedName req)]).
          by rewrite <- (assoc_L (++)).
        + eapply Hcreate; [|exact Hnone]. rewrite Hu.
          change (trace c1)
            with (trace c ++ [OpGetIntents (reqNamespacedName req)]).
          by rewrite <- (assoc_L (++)). }
    rewrite (Reconcile_active req c intents Hget Hspec' Hdel) in Hl.
    cbv zeta in Hl. exists l. split; [exact Hl|]. split; [done|].
    intros k Hk. by destruct (Hno k).
Qed.

(** *** Creating a rule and removing it again *)

(** When the lookup reports not-found, [removeNetworkPolicy] succeeds
    without asking for a deletion. *)
Lemma removeNetworkPolicy_not_found intent ns c :
  IsNotFound (GetPolicy (lookupKey intent ns) c).1.1 = true →
  removeNetworkPolicy intent ns c
  = (None, logOp (OpGetPolicy (lookupKey intent ns)) c).
Proof.
  intros Hnf. unfold removeNetworkPolicy. run_monad.
  change (mkNamespacedName (OtterizeNetworkPolicyName (Server intent) ns)
            (Namespace intent)) with (lookupKey intent ns).
  pose proof (GetPolicy_state (lookupKey intent ns) c) as Hs.
  destruct (GetPolicy _ c) as [[err p] c1]. simpl in *. subst c1.
  by rewrite Hnf.
Qed.

(** With no injected failure, creating the rule of a Call that has none
    and removing it again gives back the stored rules. *)
Theorem create_then_remove intent ns c :
  noFaults →
  networkPolicies c !! lookupKey intent ns = None →
  networkPolicies
    (removeNetworkPolicy intent ns (handleNetworkPolicyCreation intent ns c).2).2
  = networkPolicies c.
Proof.
  intros Hnf Habsent.
  set (policy := buildNetworkPolicyObjectForIntent intent
                   (OtterizeNetworkPolicyName (Server intent) ns) ns).
  assert (networkPolicies (handleNetworkPolicyCreation intent ns c).2
          = <[lookupKey intent ns := policy]> (networkPolicies c)) as Hcreated.
  { rewrite handleNetworkPolicyCreation_unfold. cbv zeta.
    unfold GetPolicy, faultOf. rewrite Hnf, Habsent. simpl.
    unfold CreatePolicy, faultOf. rewrite Hnf.
    rewrite buildNetworkPolicyObjectForIntent_key. simpl. by rewrite Habsent. }
  rewrite removeNetworkPolicy_unfold. cbv zeta.
  change (mkNamespacedName (OtterizeNetworkPolicyName (Server intent) ns)
            (Namespace intent)) with (lookupKey intent ns).
  set (c1 := (handleNetworkPolicyCreation intent ns c).2) in *.
  unfold GetPolicy, faultOf. rewrite Hnf, Hcreated, lookup_insert_eq. simpl.
  unfold DeletePolicy, faultOf. rewrite Hnf.
  change (policyKey policy) with (lookupKey intent ns). simpl.
  rewrite Hcreated, lookup_insert_eq. simpl.
  by apply delete_insert_id.
Qed.

(** *** Rule names that coincide *)

Lemma string_app_assoc (s t u : string) : (s +:+ t) +:+ u = s +:+ (t +:+ u).
Proof.
  induction s as [|a s IH]; [done|].
  change (String a ((s +:+ t) +:+ u) = String a (s +:+ (t +:+ u))).
  by rewrite IH.
Qed.

(** The rule name joins the target and the declaring namespace with
    [-from-], which both may contain. The Call to [a-from-b] declared in
    namespace [c] and the Call to [a] declared in namespace [b-from-c] get
    the same rule name; when both targets live in one namespace, the
    creation of the rule of the second Call finds the rule of the first
    and creates nothing, so the stored rule is the one built for the
    first Call. *)
Theorem rule_name_collision a b c target cl :
  noFaults →
  let first := {| Server := a +:+ "-from-" +:+ b; Namespace := target |} in
  let second := {| Server := a; Namespace := target |} in
  let ns' := b +:+ "-from-" +:+ c in
  networkPolicies cl !! lookupKey first c = None →
  let created := (handleNetworkPolicyCreation first c cl).2 in
  let run := handleNetworkPolicyCreation second ns' created in
  lookupKey second ns' = lookupKey first c
  ∧ run.1 = None
  ∧ networkPolicies run.2 = networkPolicies created
  ∧ networkPolicies run.2 !! lookupKey second ns'
    = Some (buildNetworkPolicyObjectForIntent first
              (OtterizeNetworkPolicyName (Server first) c) c).
Proof.
  intros Hnf first second ns' Habsent created run.
  assert (lookupKey second ns' = lookupKey first c) as Hkey.
  { unfold lookupKey, OtterizeNetworkPolicyName, first, second, ns'. simpl.
    by rewrite !string_app_assoc. }
  set (policy := buildNetworkPolicyObjectForIntent first
                   (OtterizeNetworkPolicyName (Server first) c) c).
  assert (networkPolicies created
          = <[lookupKey first c := policy]> (networkPolicies cl)) as Hcreated.
  { subst created. rewrite handleNetworkPolicyCreation_unfold. cbv zeta.
    unfold GetPolicy, faultOf. rewrite Hnf, Habsent. simpl.
    unfold CreatePolicy, faultOf. rewrite Hnf.
    rewrite buildNetworkPolicyObjectForIntent_key. simpl. by rewrite Habsent. }
  assert (run = (None, logOp (OpGetPolicy (lookupKey first c)) created)) as ->.
  { subst run. rewrite handleNetworkPolicyCreation_unfold. cbv zeta.
    rewrite Hkey. unfold GetPolicy, faultOf.
    rewrite Hnf, Hcreated, lookup_insert_eq. done. }
  split; [done|]. split; [done|]. split; [done|].
  simpl. by rewrite Hkey, Hcreated, lookup_insert_eq.
Qed.

(** *** The rule that is created *)

Lemma handleNetworkPolicyCreation_creates intent ns c :
  (handleNetworkPolicyCreation intent ns c).1 = None →
  networkPolicies c !! lookupKey intent ns = None →
  networkPolicies (handleNetworkPolicyCreation intent ns c).2
    !! lookupKey intent ns
  = Some (buildNetworkPolicyObjectForIntent intent
            (OtterizeNetworkPolicyName (Server intent) ns) ns).
Proof.
  rewrite handleNetworkPolicyCreation_unfold. cbv zeta.
  destruct (IsNotFound _) eqn:Hnf.
  - intros Hc _. apply CreatePolicy_success in Hc as [_ Hc].
    by rewrite buildNetworkPolicyObjectForIntent_key in Hc.
  - simpl. intros He Habsent. apply GetPolicy_None in He as [q Hq]. congruence.
Qed.

Lemma callKey_defaultNamespace ns call1 call2 :
  callKey ns call1 = callKey ns call2 →
  defaultNamespace call1 ns = defaultNamespace call2 ns.
Proof.
  intros Heq. pose proof (callKey_inj_server _ _ _ Heq) as Hserver.
  apply (f_equal fst) in Heq. simpl in Heq.
  rewrite <- (defaultNamespace_Server call1 ns),
    <- (defaultNamespace_Server call2 ns) in Hserver.
  destruct (defaultNamespace call1 ns), (defaultNamespace call2 ns).
  simpl in *. by subst.
Qed.

Lemma createPolicies_built calls ns c call :
  (createPolicies calls ns c).1 = None →
  call ∈ calls →
  networkPolicies c !! callKey ns call = None →
  networkPolicies (createPolicies calls ns c).2 !! callKey ns call
  = Some (buildNetworkPolicyObjectForIntent (defaultNamespace call ns)
            (OtterizeNetworkPolicyName (Server call) ns) ns).
Proof.
  revert c. induction calls as [|intent rest IH]; intros c Hok Hin Habsent.
  { by apply elem_of_nil in Hin. }
  revert Hok. rewrite createPolicies_cons. cbv zeta.
  destruct (handleNetworkPolicyCreation _ ns c).1 eqn:Hh; [done|]. intros Hok.
  destruct (decide (callKey ns intent = callKey ns call)) as [Hkey | Hkey].
  - apply createPolicies_keeps.
    rewrite <- (callKey_defaultNamespace _ _ _ Hkey).
    rewrite <- (callKey_inj_server _ _ _ Hkey), <- Hkey, callKey_lookupKey.
    rewrite <- (defaultNamespace_Server intent ns).
    apply handleNetworkPolicyCreation_creates; [done|].
    by rewrite <- callKey_lookupKey, Hkey.
  - apply elem_of_cons in Hin as [-> | Hin]; [done|].
    apply IH; [done|done|].
    rewrite handleNetworkPolicyCreation_lookup_ne; [done|].
    rewrite <- callKey_lookupKey. congruence.
Qed.

(** On an active object, a run of [Reconcile] that returns no error has
    stored, for every Call that had no rule, the rule that
    [buildNetworkPolicyObjectForIntent] describes: named after the target
    and the namespace of the request, placed in the namespace of the
    target, selecting the pods of the target, and admitting the pods that
    carry the access label of the target in the namespaces labelled with
    the namespace of the request. *)
Theorem Reconcile_creates_built_rule req c intents call :
  (GetIntents (reqNamespacedName req) c).1 = (None, intents) →
  Spec intents ≠ None →
  DeletionTimestamp intents = None →
  (Reconcile req c).1.2 = None →
  call ∈ GetCallsList intents →
  networkPolicies c !! callKey (reqNamespace req) call = None →
  let target := defaultNamespace call (reqNamespace req) in
  let identity := GetFormattedOtterizeIdentity (Server call) (Namespace target) in
  networkPolicies (Reconcile req c).2 !! callKey (reqNamespace req) call
  = Some {| PolicyName :=
              OtterizeNetworkPolicyName (Server call) (reqNamespace req);
            PolicyNamespace := Namespace target;
            PolicyLabels := [(OtterizeNetworkPolicy, "true")];
            PodSelector := [(OtterizeServerLabelKey, identity)];
            IngressFromPodSelector := [(OtterizeAccessLabelKey identity, "true")];
            IngressFromNamespaceSelector :=
              [(OtterizeNamespaceLabelKey, reqNamespace req)] |}.
Proof.
  intros Hget Hspec Hdel Hok Hin Habsent target identity.
  assert (buildNetworkPolicyObjectForIntent target
            (OtterizeNetworkPolicyName (Server call) (reqNamespace req))
            (reqNamespace req)
          = {| PolicyName :=
                 OtterizeNetworkPolicyName (Server call) (reqNamespace req);
               PolicyNamespace := Namespace target;
               PolicyLabels := [(OtterizeNetworkPolicy, "true")];
               PodSelector := [(OtterizeServerLabelKey, identity)];
               IngressFromPodSelector :=
                 [(OtterizeAccessLabelKey identity, "true")];
               IngressFromNamespaceSelector :=
                 [(OtterizeNamespaceLabelKey, reqNamespace req)] |}) as <-.
  { unfold buildNetworkPolicyObjectForIntent, identity, target.
    by rewrite defaultNamespace_Server. }
  revert Hok. rewrite (Reconcile_active req c intents Hget Hspec Hdel).
  cbv zeta. destruct (ContainsFinalizer intents _).
  - unfold pathResult. simpl. intros Hok. by apply createPolicies_built.
  - destruct (UpdateIntents _ _).1 eqn:Hu; [done|].
    unfold pathResult. simpl. intros Hok.
    apply createPolicies_built; [done|done|].
    by rewrite UpdateIntents_policies.
Qed.

(** *** The first failure ends the loop *)

Lemma createPolicies_app calls1 calls2 ns c :
  createPolicies (calls1 ++ calls2) ns c =
    match (createPolicies calls1 ns c).1 with
    | Some e => createPolicies calls1 ns c
    | None => createPolicies calls2 ns (createPolicies calls1 ns c).2
    end.
Proof.
  revert c. induction calls1 as [|intent rest IH]; intros c; [done|].
  rewrite <- app_comm_cons, !createPolicies_cons. cbv zeta.
  destruct (handleNetworkPolicyCreation _ ns c).1; [done|]. apply IH.
Qed.

Lemma cleanPolicies_app calls1 calls2 ns c :
  cleanPolicies (calls1 ++ calls2) ns c =
    match (cleanPolicies calls1 ns c).1 with
    | Some e => cleanPolicies calls1 ns c
    | None => cleanPolicies calls2 ns (cleanPolicies calls1 ns c).2
    end.
Proof.
  revert c. induction calls1 as [|intent rest IH]; intros c; [done|].
  rewrite <- app_comm_cons, !cleanPolicies_cons. cbv zeta.
  destruct (ListIntents _ ns c).1.1; [done|].
  case_bool_decide; apply IH.
Qed.

(** Both loops over the Calls end at the first failure. When the rule
    creation of a Call fails after the Calls before it succeeded, the loop
    of [Reconcile] returns that error in the state that Call left, and
    when the list call of a Call fails, so does the loop of
    [cleanFinalizerAndPolicies]: nothing is done for the later Calls. *)
Theorem loops_stop_at_first_error before call rest ns c e :
  ((createPolicies before ns c).1 = None →
   let c1 := (createPolicies before ns c).2 in
   let step := handleNetworkPolicyCreation (defaultNamespace call ns) ns c1 in
   step.1 = Some e →
   createPolicies (before ++ call :: rest) ns c = (Some e, step.2))
  ∧ ((cleanPolicies before ns c).1 = None →
     let c1 := (cleanPolicies before ns c).2 in
     (ListIntents (Server call) ns c1).1.1 = Some e →
     cleanPolicies (before ++ call :: rest) ns c
     = (Some e, logOp (OpListIntents (Server call) ns) c1)).
Proof.
  split.
  - intros Hbefore c1 step Hstep.
    rewrite createPolicies_app, Hbefore, createPolicies_cons. cbv zeta.
    fold c1. fold step. by rewrite Hstep.
  - intros Hbefore c1 Hlist.
    rewrite cleanPolicies_app, Hbefore, cleanPolicies_cons. cbv zeta.
    fold c1. rewrite defaultNamespace_Server. by rewrite Hlist.
Qed.

End Reconciler.

(** *** A cluster to run the reconciler on

    Namespace [ns1] holds two Intents objects. [client-a] calls [server]
    and [db], carries the finalizer and is being deleted; [client-b] calls
    [server]. A rule exists for each of the two targets. *)

Definition noFault : nat → Op → error := λ _ _, None.

(** Every [Delete] is refused by the API server. *)
Definition deleteFails : nat → Op → error :=
  λ _ op,
    match op with
    | OpDeletePolicy _ => Some (ErrOther "forbidden")
    | _ => None
    end.

(** Every lookup of a rule times out. *)
Definition getPolicyFails : nat → Op → error :=
  λ _ op,
    match op with
    | OpGetPolicy _ => Some (ErrOther "timeout")
    | _ => None
    end.

(** Every update of an Intents object meets a concurrent modification. *)
Definition updateConflicts : nat → Op → error :=
  λ _ op,
    match op with
    | OpUpdateIntents _ => Some ErrConflict
    | _ => None
    end.

Definition callServer : Intent := {| Server := "server"; Namespace := "" |}.
Definition callDb : Intent := {| Server := "db"; Namespace := "" |}.

Definition clientA : Intents :=
  {| ObjName := "client-a"; ObjNamespace := "ns1";
     DeletionTimestamp := Some 1;
     Finalizers := [NetworkPolicyFinalizerName];
     Spec := Some {| ServiceName := "client-a";
                     Calls := [callServer; callDb] |} |}.

Definition clientB : Intents :=
  {| ObjName := "client-b"; ObjNamespace := "ns1";
     DeletionTimestamp := None;
     Finalizers := [NetworkPolicyFinalizerName];
     Spec := Some {| ServiceName := "client-b"; Calls := [callServer] |} |}.

Definition ruleFor (server namespace : string) : NetworkPolicyObj :=
  {| PolicyName := OtterizeNetworkPolicyName server namespace;
     PolicyNamespace := namespace;
     PolicyLabels := [(OtterizeNetworkPolicy, "true")];
     PodSelector := []; IngressFromPodSelector := [];
     IngressFromNamespaceSelector := [] |}.

Definition twoClients : Cluster :=
  {| intentsObjects :=
       <[intentsKey clientA := clientA]> (<[intentsKey clientB := clientB]> ∅);
     networkPolicies :=
       <[policyKey (ruleFor "server" "ns1") := ruleFor "server" "ns1"]>
         (<[policyKey (ruleFor "db" "ns1") := ruleFor "db" "ns1"]> ∅);
     trace := [] |}.

Definition reqClientA : Request :=
  {| reqNamespace := "ns1"; reqName := "client-a" |}.

Lemma twoClients_wf : wfCluster twoClients.
Proof. split; apply (bool_decide_unpack _); by vm_compute. Qed.

Example twoClients_refCount :
  refCount "server" "ns1" twoClients = 2 ∧ refCount "db" "ns1" twoClients = 1.
Proof. by vm_compute. Qed.


(** The lookup at the head of [Reconcile] finds [client-a], and the update
    that would clear its finalizer meets a conflict. *)
Lemma Reconcile_conflict_requeues_witness :
  (Reconcile (λ name _, name) "server" (λ s, s) "namespace"
     updateConflicts reqClientA twoClients).1
  = ({| Requeue := true |}, None).
Proof.
  apply (Reconcile_conflict_requeues _ _ _ _ updateConflicts
           reqClientA twoClients clientA).
  - by vm_compute.
  - done.
  - done.
  - by vm_compute.
Defined.

(** The deletion of an object is requested: the API server sets its
    deletion timestamp. *)
Definition requestDeletion (key : NamespacedName) (c : Cluster) : Cluster :=
  setIntentsObjects
    (alter (λ o, {| ObjName := ObjName o; ObjNamespace := ObjNamespace o;
                    DeletionTimestamp := Some 1;
                    Finalizers := Finalizers o; Spec := Spec o |})
           key (intentsObjects c))
    c.

Definition reqClientB : Request :=
  {| reqNamespace := "ns1"; reqName := "client-b" |}.

(** Two objects of [ns1] call [server]. After the first is finalized the
    rule of [server] is still stored and the object is released; after the
    second is deleted and finalized the rule is gone. *)
Example reference_counting_two_clients :
  let run := Reconcile (λ name _, name) "server" (λ s, s) "namespace" noFault in
  let c1 := (run reqClientA twoClients).2 in
  let c2 := (run reqClientB (requestDeletion (intentsKey clientB) c1)).2 in
  (intentsObjects c1 !! intentsKey clientA = None
   ∧ networkPolicies c1 !! ("ns1", "access-to-server-from-ns1")
     = Some (ruleFor "server" "ns1"))
  ∧ (intentsObjects c2 !! intentsKey clientB = None
     ∧ networkPolicies c2 !! ("ns1", "access-to-server-from-ns1") = None).
Proof. by vm_compute. Qed.

(** [client-b] without its finalizer, as a newly created object. *)
Definition newClientB : Intents :=
  {| ObjName := "client-b"; ObjNamespace := "ns1";
     DeletionTimestamp := None; Finalizers := [];
     Spec := Some {| ServiceName := "client-b"; Calls := [callServer] |} |}.

Definition freshCluster : Cluster :=
  {| intentsObjects := <[intentsKey newClientB := newClientB]> ∅;
     networkPolicies := ∅;
     trace := [] |}.

Lemma freshCluster_wf : wfCluster freshCluster.
Proof. split; apply (bool_decide_unpack _); by vm_compute. Qed.

(** A newly created object: the finalizer is stored, then the rule of
    [server] is looked up and created. *)
Lemma Reconcile_active_order_witness :
  let withFinalizer := AddFinalizer newClientB NetworkPolicyFinalizerName in
  ∃ l, trace (Reconcile (λ name _, name) "server" (λ s, s) "namespace"
                noFault reqClientB freshCluster).2
       = [OpGetIntents (intentsKey newClientB); OpUpdateIntents withFinalizer] ++ l
       ∧ Forall isCreationOp l.
Proof.
  intros withFinalizer.
  destruct (Reconcile_active_order (λ name _, name) "server" (λ s, s)
              "namespace" noFault reqClientB freshCluster newClientB
              freshCluster_wf eq_refl ltac:(done) eq_refl eq_refl)
    as (_ & _ & l & Htrace & Hops & _).
  exists l. split; [exact Htrace|exact Hops].
Defined.

(** Finalizing [client-a]: the update is the last call. *)
Lemma cleanFinalizerAndPolicies_order_witness :
  ∃ l, Forall isTeardownOp l
       ∧ trace (cleanFinalizerAndPolicies noFault clientA twoClients).2
         = l ++ [OpUpdateIntents
                   (RemoveFinalizer clientA NetworkPolicyFinalizerName)].
Proof.
  destruct (cleanFinalizerAndPolicies_order noFault clientA twoClients eq_refl)
    as (l & Hops & _ & Htrace).
  exists l. split; [exact Hops|exact Htrace].
Defined.

(** Reconciling [client-a] on the cluster above keeps it well-formed. *)
Lemma Reconcile_wf_witness :
  wfCluster (Reconcile (λ name _, name) "server" (λ s, s) "namespace"
               deleteFails reqClientA twoClients).2.
Proof. apply Reconcile_wf. exact twoClients_wf. Defined.

(** C2, at two failing inputs. The rule of [db] is stored. When the API
    server refuses the deletion, and when the lookup times out,
    [removeNetworkPolicy] still returns no error, and the rule is still
    stored. In the second run the deletion is asked for the zero object. *)
Theorem removeNetworkPolicy_drops_errors :
  let intent := defaultNamespace callDb "ns1" in
  let key := ruleKey clientA callDb in
  let r1 := removeNetworkPolicy deleteFails intent "ns1" twoClients in
  let r2 := removeNetworkPolicy getPolicyFails intent "ns1" twoClients in
  (r1.1 = None
   ∧ trace r1.2 = [OpGetPolicy key; OpDeletePolicy key]
   ∧ networkPolicies r1.2 !! key = Some (ruleFor "db" "ns1"))
  ∧ (r2.1 = None
     ∧ trace r2.2 = [OpGetPolicy key; OpDeletePolicy (policyKey zeroPolicy)]
     ∧ networkPolicies r2.2 !! key = Some (ruleFor "db" "ns1")).
Proof. by vm_compute. Qed.

(** C3, at a failing input. [client-a] is being deleted and is the only
    object that calls [db]; the API server refuses to delete the rule of
    [db]. [Reconcile] succeeds, its last call clears the finalizer, the
    object is released, and the rule is still stored. *)
Theorem Reconcile_clears_finalizer_after_failed_delete :
  let r := Reconcile (λ name _, name) "server" (λ s, s) "namespace"
             deleteFails reqClientA twoClients in
  r.1 = (emptyResult, None)
  ∧ trace r.2
    = [OpGetIntents (intentsKey clientA);
       OpListIntents "server" "ns1";
       OpListIntents "db" "ns1";
       OpGetPolicy (ruleKey clientA callDb);
       OpDeletePolicy (ruleKey clientA callDb);
       OpUpdateIntents (RemoveFinalizer clientA NetworkPolicyFinalizerName)]
  ∧ Finalizers (RemoveFinalizer clientA NetworkPolicyFinalizerName) = []
  ∧ intentsObjects r.2 !! intentsKey clientA = None
  ∧ networkPolicies r.2 !! ruleKey clientA callDb = Some (ruleFor "db" "ns1").
Proof. by vm_compute. Qed.

(** *** Runs of the properties above *)

Lemma noFault_noFaults : noFaults noFault.
Proof. by intros n op. Qed.


(** [client-b] is reconciled while every deletion is refused: the rule of
    [db], which it does not call, is still stored. *)
Lemma Reconcile_active_keeps_rules_witness :
  networkPolicies
    (Reconcile (λ name _, name) "server" (λ s, s) "namespace"
       deleteFails reqClientB twoClients).2 !! ruleKey clientA callDb
  = Some (ruleFor "db" "ns1").
Proof.
  apply (Reconcile_active_keeps_rules (λ name _, name) "server" (λ s, s)
           "namespace" deleteFails reqClientB twoClients clientB).
  - by vm_compute.
  - done.
  - done.
  - by vm_compute.
Defined.

(** The requeue of the run in which the update meets a conflict. *)
Lemma Reconcile_requeue_only_on_conflict_witness :
  (Reconcile (λ name _, name) "server" (λ s, s) "namespace"
     updateConflicts reqClientA twoClients).1.2 = None.
Proof.
  apply (Reconcile_requeue_only_on_conflict (λ name _, name) "server"
           (λ s, s) "namespace" updateConflicts reqClientA twoClients).
  by vm_compute.
Defined.

(** Finalizing [client-a] twice: the second run changes nothing. *)
Lemma Reconcile_idempotent_witness :
  let run := Reconcile (λ name _, name) "server" (λ s, s) "namespace" noFault in
  let first := run reqClientA twoClients in
  let second := run reqClientA first.2 in
  first.1 = (emptyResult, None)
  ∧ second.1 = (emptyResult, None)
  ∧ intentsObjects second.2 = intentsObjects first.2
  ∧ networkPolicies second.2 = networkPolicies first.2.
Proof.
  apply (Reconcile_idempotent (λ name _, name) "server" (λ s, s) "namespace"
           noFault reqClientA twoClients noFault_noFaults twoClients_wf).
Defined.


Lemma removeNetworkPolicy_not_found_witness :
  removeNetworkPolicy noFault (defaultNamespace callServer "ns1") "ns1"
    freshCluster
  = (None, logOp (OpGetPolicy (callKey "ns1" callServer)) freshCluster).
Proof.
  apply (removeNetworkPolicy_not_found noFault
           (defaultNamespace callServer "ns1") "ns1" freshCluster).
  by vm_compute.
Defined.

Lemma create_then_remove_witness :
  let intent := defaultNamespace callServer "ns1" in
  networkPolicies
    (removeNetworkPolicy noFault intent "ns1"
       (handleNetworkPolicyCreation (λ name _, name) "server" (λ s, s)
          "namespace" noFault intent "ns1" freshCluster).2).2
  = networkPolicies freshCluster.
Proof.
  apply (create_then_remove (λ name _, name) "server" (λ s, s) "namespace"
           noFault (defaultNamespace callServer "ns1") "ns1" freshCluster
           noFault_noFaults).
  by vm_compute.
Defined.

(** The Call to [orders-from-eu] declared in namespace [shop] and the Call
    to [orders] declared in namespace [eu-from-shop], both for targets of
    namespace [backend]. *)
Lemma rule_name_collision_witness :
  let first := {| Server := "orders-from-eu"; Namespace := "backend" |} in
  let second := {| Server := "orders"; Namespace := "backend" |} in
  let created :=
    (handleNetworkPolicyCreation (λ name _, name) "server" (λ s, s) "namespace"
       noFault first "shop" freshCluster).2 in
  let run :=
    handleNetworkPolicyCreation (λ name _, name) "server" (λ s, s) "namespace"
      noFault second "eu-from-shop" created in
  lookupKey second "eu-from-shop" = lookupKey first "shop"
  ∧ run.1 = None
  ∧ networkPolicies run.2 = networkPolicies created
  ∧ networkPolicies run.2 !! lookupKey second "eu-from-shop"
    = Some (buildNetworkPolicyObjectForIntent (λ name _, name) "server"
              (λ s, s) "namespace" first
              (OtterizeNetworkPolicyName "orders-from-eu" "shop") "shop").
Proof.
  apply (rule_name_collision (λ name _, name) "server" (λ s, s) "namespace"
           noFault "orders" "eu" "shop" "backend" freshCluster
           noFault_noFaults).
  by vm_compute.
Defined.

(** The rule stored for the Call of [client-b] to [server]. *)
Lemma Reconcile_creates_built_rule_witness :
  networkPolicies
    (Reconcile (λ name _, name) "server" (λ s, s) "namespace"
       noFault reqClientB freshCluster).2 !! callKey "ns1" callServer
  = Some {| PolicyName := "access-to-server-from-ns1";
            PolicyNamespace := "ns1";
            PolicyLabels := [(OtterizeNetworkPolicy, "true")];
            PodSelector := [("server", "server")];
            IngressFromPodSelector := [("server", "true")];
            IngressFromNamespaceSelector := [("namespace", "ns1")] |}.
Proof.
  apply (Reconcile_creates_built_rule (λ name _, name) "server" (λ s, s)
           "namespace" noFault reqClientB freshCluster newClientB callServer).
  - by vm_compute.
  - done.
  - done.
  - by vm_compute.
  - by left.
  - by vm_compute.
Defined.

(** The call with the given index in the trace fails. *)
Definition failAt (k : nat) : nat → Op → error :=
  λ n _, if bool_decide (n = k) then Some (ErrOther "timeout") else None.

(** The creation of the rule of [server] fails after the rule of [db] was
    created; and the list call for [db] fails after the one for [server]
    succeeded. *)
Lemma loops_stop_at_first_error_witness :
  createPolicies (λ name _, name) "server" (λ s, s) "namespace" (failAt 3)
    [callDb; callServer; callDb] "ns1" freshCluster
  = (Some (ErrOther "timeout"),
     (handleNetworkPolicyCreation (λ name _, name) "server" (λ s, s)
        "namespace" (failAt 3) (defaultNamespace callServer "ns1") "ns1"
        (createPolicies (λ name _, name) "server" (λ s, s) "namespace"
           (failAt 3) [callDb] "ns1" freshCluster).2).2)
  ∧ cleanPolicies (failAt 1) [callServer; callDb; callServer] "ns1" twoClients
    = (Some (ErrOther "timeout"),
       logOp (OpListIntents "db" "ns1")
         (cleanPolicies (failAt 1) [callServer] "ns1" twoClients).2).
Proof.
  split.
  - refine (proj1 (loops_stop_at_first_error (λ name _, name) "server"
                     (λ s, s) "namespace" (failAt 3) [callDb] callServer
                     [callDb] "ns1" freshCluster (ErrOther "timeout")) _ _);
      by vm_compute.
  - refine (proj2 (loops_stop_at_first_error (λ name _, name) "server"
                     (λ s, s) "namespace" (failAt 1) [callServer] callDb
                     [callServer] "ns1" twoClients (ErrOther "timeout")) _ _);
      by vm_compute.
Defined.

End NetworkPolicy.

(** ** The Kafka ACL reconciler (package intents_reconcilers) *)

Module KafkaACL.

Definition ReasonCouldNotConnectToKafkaServer : string :=
  "CouldNotConnectToKafkaServer".
Definition ReasonCouldNotApplyIntentsOnKafkaServer : string :=
  "CouldNotApplyIntentsOnKafkaServer".
Definition ReasonKafkaACLCreationDisabled : string := "KafkaACLCreationDisabled".
Definition ReasonKafkaServerNotConfigured : string := "KafkaServerNotConfigured".
Definition ReasonRemovingKafkaACLsFailed : string := "RemovingKafkaACLsFailed".
Definition ReasonApplyingKafkaACLsFailed : string := "ApplyingKafkaACLsFailed".
Definition ReasonAppliedKafkaACLs : string := "AppliedKafkaACLs".
Definition ReasonIntentsOperatorIdentityResolveFailed : string :=
  "IntentsOperatorIdentityResolveFailed".

(** Modelled from the spec: [consts.ReasonEnforcementDefaultOff] is declared
    in package [consts]. The string stands for its value, on which nothing
    below depends. *)
Definition ReasonEnforcementDefaultOff : string := "EnforcementDefaultOff".

(** Go errors of this package: an error of the API client, a new error
    with a message, or [fmt.Errorf] wrapping an error with [%w]. *)
Inductive Err : Type :=
  | ErrK8s (e : K8sError)
  | ErrMsg (msg : string)
  | ErrWrap (msg : string) (inner : Err).

Definition IsNotFoundErr (err : option Err) : bool :=
  match err with Some (ErrK8s ErrNotFound) => true | _ => false end.

(** [otterizev1alpha3]: the kind of a Call, a topic with the operations
    asked for, a Call, and the ClientIntents object. *)
Inductive IntentType : Type := IntentTypeNone | IntentTypeHTTP | IntentTypeKafka.

#[export] Instance IntentType_eq_dec : EqDecision IntentType.
Proof. solve_decision. Defined.

Record KafkaTopic : Type :=
  mkKafkaTopic { TopicName : string; Operations : list string }.

(** Modelled from the spec: the accessors [GetTargetServerName] and
    [GetTargetServerNamespace] of a Call are declared in the API package.
    A Call names a target service and an optional target namespace, which
    defaults to the declaring namespace. *)
Record Intent : Type := mkIntent {
  Name : string;
  TargetNamespace : string;
  Type_ : IntentType;
  Topics : list KafkaTopic
}.

Definition GetTargetServerName (intent : Intent) : string := Name intent.

Definition GetTargetServerNamespace (intent : Intent) (defaultNs : string)
  : string :=
  if bool_decide (TargetNamespace intent = "") then defaultNs
  else TargetNamespace intent.

Record IntentsSpec : Type :=
  mkIntentsSpec { ServiceName : string; Calls : list Intent }.

Record ClientIntents : Type := mkClientIntents {
  ObjName : string;
  ObjNamespace : string;
  DeletionTimestamp : option nat;
  Spec : option IntentsSpec
}.

Definition zeroClientIntents : ClientIntents :=
  {| ObjName := ""; ObjNamespace := ""; DeletionTimestamp := None;
     Spec := None |}.

Definition clientIntentsKey (o : ClientIntents) : NamespacedName :=
  mkNamespacedName (ObjName o) (ObjNamespace o).

(** [intents.Spec.Service.Name] and [intents.Spec.Calls]; they are read
    only after [Reconcile] has checked that [Spec] is not nil. *)
Definition SpecServiceName (o : ClientIntents) : string :=
  match Spec o with Some s => ServiceName s | None => "" end.

Definition SpecCalls (o : ClientIntents) : list Intent :=
  match Spec o with Some s => Calls s | None => [] end.

Record TLSSource : Type :=
  mkTLSSource { CertFile : string; KeyFile : string; RootCAFile : string }.

(** [otterizev1alpha3.KafkaServerConfig]: the broker's service name and
    namespace, its address and its TLS material. *)
Record KafkaServerConfig : Type := mkKafkaServerConfig {
  ConfigService : string;
  ConfigNamespace : string;
  Addr : string;
  TLS : TLSSource
}.

Definition serverKey (config : KafkaServerConfig) : NamespacedName :=
  mkNamespacedName (ConfigService config) (ConfigNamespace config).

(** A grant held by a broker: the broker, the principal (service name and
    namespace of the client), the topic and the operation. *)
Record ACL : Type := mkACL {
  aclBroker : NamespacedName;
  aclPrincipal : string * string;
  aclTopic : string;
  aclOperation : string
}.

#[export] Instance ACL_eq_dec : EqDecision ACL.
Proof. solve_decision. Defined.

(** The calls made on the admin client of a broker. *)
Inductive AdminCall : Type :=
  | AdmOpen (broker : NamespacedName) (creationEnabled enforcementActive : bool)
  | AdmApply (broker : NamespacedName) (service namespace : string)
             (calls : list Intent)
  | AdmRemove (broker : NamespacedName) (service namespace : string)
  | AdmClose (broker : NamespacedName).

Record Event : Type := mkEvent {
  evWarning : bool;
  evReason : string;
  evObject : NamespacedName
}.

(** What the reconciler reads and writes: the stored ClientIntents, the
    Protection Declarations (namespace and service name), the grants the
    brokers hold, the events recorded and the admin calls made, oldest
    first. *)
Record World : Type := mkWorld {
  clientIntents : gmap NamespacedName ClientIntents;
  protectedServices : list NamespacedName;
  acls : list ACL;
  events : list Event;
  adminLog : list AdminCall
}.

(** The failures of the collaborators, by the object or broker they are
    asked about, and the answer of the service resolver. *)
Record Collaborators : Type := mkCollaborators {
  getFault : NamespacedName → option K8sError;
  enforcementFault : NamespacedName → option Err;
  connectFault : NamespacedName → option Err;
  applyFault : NamespacedName → option Err;
  removeFault : NamespacedName → option Err;
  GetPodAnnotatedName : string → string → string * bool * option Err
}.

(** [KafkaACLReconciler], without the collaborators. *)
Record KafkaACLReconciler : Type := mkKafkaACLReconciler {
  KafkaServersStore : list KafkaServerConfig;
  enforcementDefaultState : bool;
  enableKafkaACLCreation : bool;
  operatorPodName : string;
  operatorPodNamespace : string
}.

Definition M (A : Type) : Type := World → A * World.

#[export] Instance M_ret : MRet M := λ A a w, (a, w).
#[export] Instance M_bind : MBind M :=
  λ A B f m w, let '(a, w') := m w in f a w'.

Definition recordEvent (warning : bool) (o : ClientIntents) (reason : string)
  : M unit :=
  λ w, (tt, {| clientIntents := clientIntents w;
               protectedServices := protectedServices w;
               acls := acls w;
               events := events w ++ [{| evWarning := warning;
                                         evReason := reason;
                                         evObject := clientIntentsKey o |}];
               adminLog := adminLog w |}).

Definition RecordNormalEvent := recordEvent false.
Definition RecordWarningEvent := recordEvent true.

Definition logAdmin (call : AdminCall) (w : World) : World :=
  {| clientIntents := clientIntents w;
     protectedServices := protectedServices w;
     acls := acls w; events := events w;
     adminLog := adminLog w ++ [call] |}.

Definition setAcls (l : list ACL) (w : World) : World :=
  {| clientIntents := clientIntents w;
     protectedServices := protectedServices w;
     acls := l; events := events w; adminLog := adminLog w |}.

(** The grants a list of Calls asks for on a broker. *)
Definition desiredAcls (broker : NamespacedName) (service namespace : string)
  (calls : list Intent) : list ACL :=
  intent ← calls; topic ← Topics intent; op ← Operations topic;
  [ {| aclBroker := broker; aclPrincipal := (service, namespace);
       aclTopic := TopicName topic; aclOperation := op |} ].

Definition ownedBy (broker : NamespacedName) (service namespace : string)
  (a : ACL) : Prop :=
  aclBroker a = broker ∧ aclPrincipal a = (service, namespace).

#[export] Instance ownedBy_dec broker service namespace a :
  Decision (ownedBy broker service namespace a).
Proof. unfold ownedBy. apply _. Defined.

(** An open session of the admin client. *)
Record KafkaIntentsAdmin : Type := mkKafkaIntentsAdmin {
  adminBroker : NamespacedName;
  adminCreationEnabled : bool;
  adminEnforcementActive : bool
}.

(** [kafkaacls.ServersStore.Exists]. *)
Definition Exists (store : list KafkaServerConfig) (name namespace : string)
  : bool :=
  bool_decide (mkNamespacedName name namespace ∈ serverKey <$> store).

(** [getIntentsByServer]. *)
Definition getIntentsByServer (defaultNamespace : string) (intents : list Intent)
  : gmap NamespacedName (list Intent) :=
  foldl (λ (intentsByServer : gmap NamespacedName (list Intent)) intent,
           if bool_decide (Type_ intent ≠ IntentTypeKafka) then intentsByServer
           else
             let serverName :=
               mkNamespacedName (GetTargetServerName intent)
                 (GetTargetServerNamespace intent defaultNamespace) in
             <[serverName :=
                 (default [] (intentsByServer !! serverName) ++ [intent])%list]>
               intentsByServer)
        ∅ intents.

Section Reconciler.

Variable env : Collaborators.

(** [r.client.Get] on a ClientIntents object. *)
Definition Get (key : NamespacedName) : M (option Err * ClientIntents) :=
  λ w,
    match getFault env key with
    | Some e => ((Some (ErrK8s e), zeroClientIntents), w)
    | None =>
        match clientIntents w !! key with
        | Some o => ((None, o), w)
        | None => ((Some (ErrK8s ErrNotFound), zeroClientIntents), w)
        end
    end.

(** Modelled from the spec: the enforcement policy resolver
    [protected_services.IsServerEnforcementEnabledDueToProtectionOrDefaultState]
    is declared in another package. It returns true if a Protection
    Declaration exists for the service and namespace, otherwise the
    cluster-wide default, and it propagates read errors of the store. *)
Definition IsServerEnforcementEnabledDueToProtectionOrDefaultState
  (name namespace : string) (enforcementDefault : bool) : M (bool * option Err) :=
  λ w,
    match enforcementFault env (mkNamespacedName name namespace) with
    | Some e => ((false, Some e), w)
    | None =>
        if bool_decide (mkNamespacedName name namespace ∈ protectedServices w)
        then ((true, None), w)
        else ((enforcementDefault, None), w)
    end.

(** Modelled from the spec: the admin collaborator of package [kafkaacls],
    [Open(brokerConfig, tlsSource, creationEnabled, enforcementActive)].
    The session remembers both flags. The pair (session, error) of the
    Go function is a sum here: an error, or an open session. *)
Definition getNewKafkaIntentsAdmin (config : KafkaServerConfig) (tls : TLSSource)
  (creationEnabled enforcementActive : bool)
  : M (Err + KafkaIntentsAdmin) :=
  λ w,
    let w1 :=
      logAdmin (AdmOpen (serverKey config) creationEnabled enforcementActive) w in
    match connectFault env (serverKey config) with
    | Some e => (inl e, w1)
    | None =>
        (inr {| adminBroker := serverKey config;
                adminCreationEnabled := creationEnabled;
                adminEnforcementActive := enforcementActive |}, w1)
    end.

(** Modelled from the spec: [session.ApplyClientIntents]. The call is
    atomic: a failure changes nothing. The collaborator skips the grants of
    permissions, but not their revocation, when enforcement is not active
    or creation is disabled: the grants of the client that the Calls no
    longer ask for are removed, and the ones they ask for are added only
    under both flags. *)
Definition ApplyClientIntents (admin : KafkaIntentsAdmin)
  (service namespace : string) (calls : list Intent) : M (option Err) :=
  λ w,
    let broker := adminBroker admin in
    let w1 := logAdmin (AdmApply broker service namespace calls) w in
    match applyFault env broker with
    | Some e => (Some e, w1)
    | None =>
        let desired := desiredAcls broker service namespace calls in
        let kept :=
          filter (λ a, ¬ (ownedBy broker service namespace a ∧ a ∉ desired))
                 (acls w) in
        let granted :=
          if adminCreationEnabled admin && adminEnforcementActive admin
          then filter (λ a, a ∉ kept) (remove_dups desired) else [] in
        (None, setAcls (kept ++ granted) w1)
    end.

(** Modelled from the spec: [session.RemoveClientIntents] removes every
    grant of the client on the broker, whatever the flags of the session. *)
Definition RemoveClientIntents (admin : KafkaIntentsAdmin)
  (service namespace : string) : M (option Err) :=
  λ w,
    let broker := adminBroker admin in
    let w1 := logAdmin (AdmRemove broker service namespace) w in
    match removeFault env broker with
    | Some e => (Some e, w1)
    | None =>
        (None, setAcls (filter (λ a, ¬ ownedBy broker service namespace a) (acls w)) w1)
    end.

Definition Close (admin : KafkaIntentsAdmin) : M unit :=
  λ w, (tt, logAdmin (AdmClose (adminBroker admin)) w).

(** Modelled from the spec: [kafkaacls.ServersStore.MapErr] is declared in
    package [kafkaacls]. The function is applied to every configured
    broker; a failure on one broker does not keep the other brokers from
    being processed, and the first failure is the error returned. *)
Fixpoint MapErr (store : list KafkaServerConfig)
  (f : NamespacedName → KafkaServerConfig → TLSSource → M (option Err))
  : M (option Err) :=
  match store with
  | [] => mret None
  | config :: rest =>
      err ← f (serverKey config) config (TLS config);
      errRest ← MapErr rest f;
      match err with
      | Some e => mret (Some e)
      | None => mret errRest
      end
  end.

Variable r : KafkaACLReconciler.

(** The function [applyACLs] hands to [MapErr]. *)
Definition applyACLsOnServer (intents : ClientIntents)
  (intentsByServer : gmap NamespacedName (list Intent))
  (serverName : NamespacedName) (config : KafkaServerConfig) (tls : TLSSource)
  : M (option Err) :=
  let intentsForServer := default [] (intentsByServer !! serverName) in
  '(shouldCreatePolicy, err) ←
    IsServerEnforcementEnabledDueToProtectionOrDefaultState
      serverName.2 serverName.1 (enforcementDefaultState r);
  match err with
  | Some e => mret (Some e)
  | None =>
      (if negb shouldCreatePolicy
       then RecordNormalEvent intents ReasonEnforcementDefaultOff
       else mret tt);;
      opened ←
        getNewKafkaIntentsAdmin config tls (enableKafkaACLCreation r)
          shouldCreatePolicy;
      match opened with
      | inl e =>
          let err := ErrWrap "failed to connect to Kafka server" e in
          RecordWarningEvent intents ReasonCouldNotConnectToKafkaServer;;
          mret (Some err)
      | inr kafkaIntentsAdmin =>
          err ← ApplyClientIntents kafkaIntentsAdmin (SpecServiceName intents)
                  (ObjNamespace intents) intentsForServer;
          match err with
          | Some e =>
              RecordWarningEvent intents ReasonCouldNotApplyIntentsOnKafkaServer;;
              Close kafkaIntentsAdmin;;
              mret (Some (ErrWrap "failed applying intents on kafka server" e))
          | None => Close kafkaIntentsAdmin;; mret None
          end
      end
  end.

(** The loop of [applyACLs] over the servers the Calls name. *)
Fixpoint warnNotConfigured (intents : ClientIntents)
  (serverNames : list NamespacedName) : M unit :=
  match serverNames with
  | [] => mret tt
  | serverName :: rest =>
      (if negb (Exists (KafkaServersStore r) serverName.2 serverName.1)
       then RecordWarningEvent intents ReasonKafkaServerNotConfigured
       else mret tt);;
      warnNotConfigured intents rest
  end.

(** [applyACLs]. *)
Definition applyACLs (intents : ClientIntents) : M (nat * option Err) :=
  let intentsByServer :=
    getIntentsByServer (ObjNamespace intents) (SpecCalls intents) in
  err ← MapErr (KafkaServersStore r) (applyACLsOnServer intents intentsByServer);
  match err with
  | Some e => mret (0, Some e)
  | None =>
      (if negb (enableKafkaACLCreation r)
       then RecordNormalEvent intents ReasonKafkaACLCreationDisabled
       else mret tt);;
      warnNotConfigured intents (map_to_list intentsByServer).*1;;
      mret (size intentsByServer, None)
  end.

(** The function [RemoveACLs] hands to [MapErr]. *)
Definition RemoveACLsOnServer (intents : ClientIntents)
  (serverName : NamespacedName) (config : KafkaServerConfig) (tls : TLSSource)
  : M (option Err) :=
  '(shouldCreatePolicy, err) ←
    IsServerEnforcementEnabledDueToProtectionOrDefaultState
      serverName.2 serverName.1 (enforcementDefaultState r);
  match err with
  | Some e => mret (Some e)
  | None =>
      opened ←
        getNewKafkaIntentsAdmin config tls (enableKafkaACLCreation r)
          shouldCreatePolicy;
      match opened with
      | inl e => mret (Some e)
      | inr kafkaIntentsAdmin =>
          err ← RemoveClientIntents kafkaIntentsAdmin (SpecServiceName intents)
                  (ObjNamespace intents);
          match err with
          | Some e =>
              Close kafkaIntentsAdmin;;
              mret (Some (ErrWrap "failed removing intents from kafka server" e))
          | None => Close kafkaIntentsAdmin;; mret None
          end
      end
  end.

(** [RemoveACLs]. *)
Definition RemoveACLs (intents : ClientIntents) : M (option Err) :=
  MapErr (KafkaServersStore r) (RemoveACLsOnServer intents).

(** [isIntentsForTheIntentsOperator]. *)
Definition isIntentsForTheIntentsOperator (intents : ClientIntents)
  : M (bool * option Err) :=
  if bool_decide (operatorPodNamespace r ≠ ObjNamespace intents) then
    mret (false, None)
  else
    let '(name, ok, err) :=
      GetPodAnnotatedName env (operatorPodName r) (operatorPodNamespace r) in
    match err with
    | Some e =>
        mret (false,
              Some (ErrWrap "failed resolving intents operator identity" e))
    | None =>
        if negb ok then
          RecordWarningEvent intents ReasonIntentsOperatorIdentityResolveFailed;;
          mret (false,
                Some (ErrMsg "failed resolving intents operator identity - service name annotation required"))
        else mret (bool_decide (name = SpecServiceName intents), None)
    end.

(** [applyAcls]. *)
Definition applyAcls (intents : ClientIntents) : M (Result * option Err) :=
  '(serverCount, err) ← applyACLs intents;
  match err with
  | Some e =>
      RecordWarningEvent intents ReasonApplyingKafkaACLsFailed;;
      mret (emptyResult, Some e)
  | None =>
      (if bool_decide (0 < serverCount)
       then RecordNormalEvent intents ReasonAppliedKafkaACLs
       else mret tt);;
      mret (emptyResult, None)
  end.

(** [intentsObjectUnderDeletion]. *)
Definition intentsObjectUnderDeletion (intents : ClientIntents) : bool :=
  bool_decide (DeletionTimestamp intents ≠ None).

(** [handleIntentsDeletion]. *)
Definition handleIntentsDeletion (intents : ClientIntents)
  : M (Result * option Err) :=
  err ← RemoveACLs intents;
  match err with
  | Some e =>
      RecordWarningEvent intents ReasonRemovingKafkaACLsFailed;;
      mret (emptyResult, Some e)
  | None => mret (emptyResult, None)
  end.

(** [KafkaACLReconciler.Reconcile]. *)
Definition Reconcile (req : Request) : M (Result * option Err) :=
  '(err, intents) ← Get (reqNamespacedName req);
  if IsNotFoundErr err then mret (emptyResult, None)
  else
    match err with
    | Some e => mret (emptyResult, Some e)
    | None =>
        match Spec intents with
        | None => mret (emptyResult, None)
        | Some _ =>
            if intentsObjectUnderDeletion intents then
              handleIntentsDeletion intents
            else
              '(clientIsOperator, err) ← isIntentsForTheIntentsOperator intents;
              match err with
              | Some e => mret (emptyResult, Some e)
              | None =>
                  if (clientIsOperator : bool) then mret (emptyResult, None)
                  else
                    '(result, err) ← applyAcls intents;
                    match err with
                    | Some e => mret (result, Some e)
                    | None => mret (emptyResult, None)
                    end
              end
        end
    end.

(** *** How a step changes the world *)

Ltac run_monad :=
  unfold mbind, M_bind, mret, M_ret in *; simpl in *.

Ltac unfold_step :=
  unfold applyACLsOnServer, RemoveACLsOnServer,
    IsServerEnforcementEnabledDueToProtectionOrDefaultState,
    getNewKafkaIntentsAdmin, ApplyClientIntents, RemoveClientIntents, Close,
    RecordNormalEvent, RecordWarningEvent, recordEvent, logAdmin, setAcls;
  run_monad; unfold serverKey, mkNamespacedName in *; simpl in *.

(** Stored objects and Protection Declarations are only read; events and
    admin calls are only appended. *)
Definition extends (w w' : World) : Prop :=
  clientIntents w' = clientIntents w ∧
  protectedServices w' = protectedServices w ∧
  events w `prefix_of` events w' ∧
  adminLog w `prefix_of` adminLog w'.

#[local] Instance extends_preorder : PreOrder extends.
Proof.
  split.
  - intros w. by repeat split.
  - intros w1 w2 w3 (?&?&?&?) (?&?&?&?).
    repeat split; try congruence; by etrans.
Qed.

(** No grant is added. *)
Definition revokesOnly (w w' : World) : Prop := acls w' ⊆ acls w.

#[local] Instance revokesOnly_preorder : PreOrder revokesOnly.
Proof.
  split.
  - intros w a Ha. done.
  - intros w1 w2 w3 H12 H23 a Ha. by apply H12, H23.
Qed.

(** No grant is added on [broker]. *)
Definition noGrantOn (broker : NamespacedName) (w w' : World) : Prop :=
  ∀ a, a ∈ acls w' → aclBroker a = broker → a ∈ acls w.

#[local] Instance noGrantOn_preorder broker : PreOrder (noGrantOn broker).
Proof.
  split; [by intros w a|]. intros w1 w2 w3 H12 H23 a Ha Hb.
  apply H12; [|done]. by apply H23.
Qed.

Lemma revokesOnly_noGrantOn broker w w' : revokesOnly w w' → noGrantOn broker w w'.
Proof. intros Hsub a Ha _. by apply Hsub. Qed.

Lemma extends_event w w' ev : extends w w' → ev ∈ events w → ev ∈ events w'.
Proof. intros (_&_&[l ->]&_) Hev. apply elem_of_app. by left. Qed.

Lemma extends_adminCall w w' call :
  extends w w' → call ∈ adminLog w → call ∈ adminLog w'.
Proof. intros (_&_&_&[l ->]) Hc. apply elem_of_app. by left. Qed.

Lemma prefix_snoc {A} (l : list A) x : l `prefix_of` l ++ [x].
Proof. by exists [x]. Qed.

Lemma prefix_snoc_trans {A} (l k : list A) x :
  l `prefix_of` k → l `prefix_of` k ++ [x].
Proof. intros. etrans; [done|]. apply prefix_snoc. Qed.

(** *** [MapErr] *)

Section MapErr.

Variable f : NamespacedName → KafkaServerConfig → TLSSource → M (option Err).

Definition onServer (config : KafkaServerConfig) : M (option Err) :=
  f (serverKey config) config (TLS config).

Lemma MapErr_cons config rest w :
  MapErr (config :: rest) f w =
    (match (onServer config w).1 with
     | Some e => Some e
     | None => (MapErr rest f (onServer config w).2).1
     end,
     (MapErr rest f (onServer config w).2).2).
Proof.
  simpl. run_monad. unfold onServer.
  destruct (f _ config _ w) as [err w1]. simpl.
  destruct (MapErr rest f w1) as [errRest w2]. by destruct err.
Qed.

(** A preorder that every step respects is respected by the whole pass. *)
Lemma MapErr_preorder (R : relation World) `{!PreOrder R} store :
  (∀ config w, config ∈ store → R w (onServer config w).2) →
  ∀ w, R w (MapErr store f w).2.
Proof.
  induction store as [|config rest IH]; intros Hstep w; [done|].
  rewrite MapErr_cons. simpl. etrans.
  - apply (Hstep config w). by left.
  - apply IH. intros c w' Hc. apply Hstep. by right.
Qed.

(** What the step of one broker establishes, and every step keeps, holds
    after the pass. *)
Lemma MapErr_establishes (P : World → Prop) store config :
  config ∈ store →
  (∀ w, P (onServer config w).2) →
  (∀ config' w, config' ∈ store → P w → P (onServer config' w).2) →
  ∀ w, P (MapErr store f w).2.
Proof.
  induction store as [|config0 rest IH]; intros Hin Hest Hkeep w.
  { by apply elem_of_nil in Hin. }
  rewrite MapErr_cons. simpl.
  apply elem_of_cons in Hin as [<- | Hin].
  - assert (PreOrder (λ w1 w2 : World, P w1 → P w2)) as Hpre.
    { split; [by intros ?|]. intros ??? H1 H2 ?. by apply H2, H1. }
    apply (MapErr_preorder (λ w1 w2, P w1 → P w2) rest); [|done].
    intros c w' Hc. apply Hkeep. by right.
  - apply IH; [done|done|]. intros c w' Hc. apply Hkeep. by right.
Qed.

(** A failure on one broker is the failure of the pass. *)
Lemma MapErr_fails store config :
  config ∈ store →
  (∀ w, (onServer config w).1 ≠ None) →
  ∀ w, (MapErr store f w).1 ≠ None.
Proof.
  induction store as [|config0 rest IH]; intros Hin Hfail w.
  { by apply elem_of_nil in Hin. }
  rewrite MapErr_cons. simpl.
  destruct (onServer config0 w).1 eqn:He; [done|].
  apply elem_of_cons in Hin as [<- | Hin].
  - by destruct (Hfail w).
  - by apply IH.
Qed.

End MapErr.

(** *** The removal path *)

Lemma RemoveACLsOnServer_extends intents config w :
  extends w (onServer (RemoveACLsOnServer intents) config w).2.
Proof.
  unfold onServer, extends. unfold_step.
  repeat case_match; simplify_eq/=; repeat split;
    repeat (done || apply prefix_snoc_trans).
Qed.

Lemma RemoveACLsOnServer_revokesOnly intents config w :
  revokesOnly w (onServer (RemoveACLsOnServer intents) config w).2.
Proof.
  unfold onServer, revokesOnly. unfold_step.
  repeat case_match; simplify_eq/=; try done;
    intros a Ha; by apply list_elem_of_filter in Ha as [_ Ha].
Qed.

(** Once the resolver has answered and the session is open, the removal is
    asked of the broker, whatever the answer of the resolver was. *)
Lemma RemoveACLsOnServer_asks intents config w :
  enforcementFault env (serverKey config) = None →
  connectFault env (serverKey config) = None →
  AdmRemove (serverKey config) (SpecServiceName intents) (ObjNamespace intents)
    ∈ adminLog (onServer (RemoveACLsOnServer intents) config w).2.
Proof.
  intros He Hc. unfold onServer. unfold_step. rewrite He, Hc.
  repeat case_match; simplify_eq/=; set_solver.
Qed.

Lemma RemoveACLsOnServer_clears intents config w :
  enforcementFault env (serverKey config) = None →
  connectFault env (serverKey config) = None →
  removeFault env (serverKey config) = None →
  ∀ a, a ∈ acls (onServer (RemoveACLsOnServer intents) config w).2 →
       ¬ ownedBy (serverKey config) (SpecServiceName intents)
                 (ObjNamespace intents) a.
Proof.
  intros He Hc Hr a. unfold onServer. unfold_step.
  rewrite He, Hc. simpl. rewrite Hr.
  repeat case_match; simplify_eq/=; intros Ha;
    by apply list_elem_of_filter in Ha as [Hno _].
Qed.

Lemma RemoveACLs_extends intents w : extends w (RemoveACLs intents w).2.
Proof.
  apply (MapErr_preorder _ extends). intros config w' _.
  apply RemoveACLsOnServer_extends.
Qed.

Lemma RemoveACLs_revokesOnly intents w : revokesOnly w (RemoveACLs intents w).2.
Proof.
  apply (MapErr_preorder _ revokesOnly). intros config w' _.
  apply RemoveACLsOnServer_revokesOnly.
Qed.

Lemma RemoveACLs_asks intents config w :
  config ∈ KafkaServersStore r →
  enforcementFault env (serverKey config) = None →
  connectFault env (serverKey config) = None →
  AdmRemove (serverKey config) (SpecServiceName intents) (ObjNamespace intents)
    ∈ adminLog (RemoveACLs intents w).2.
Proof.
  intros Hin He Hc. unfold RemoveACLs.
  apply (MapErr_establishes _
           (λ w', AdmRemove (serverKey config) (SpecServiceName intents)
                    (ObjNamespace intents) ∈ adminLog w') _ config Hin).
  - intros w'. by apply RemoveACLsOnServer_asks.
  - intros config' w' _ Hw'.
    eapply extends_adminCall; [apply RemoveACLsOnServer_extends|done].
Qed.

Lemma RemoveACLs_clears intents config w :
  config ∈ KafkaServersStore r →
  enforcementFault env (serverKey config) = None →
  connectFault env (serverKey config) = None →
  removeFault env (serverKey config) = None →
  ∀ a, a ∈ acls (RemoveACLs intents w).2 →
       ¬ ownedBy (serverKey config) (SpecServiceName intents)
                 (ObjNamespace intents) a.
Proof.
  intros Hin He Hc Hr. unfold RemoveACLs.
  apply (MapErr_establishes _
           (λ w', ∀ a, a ∈ acls w' →
                       ¬ ownedBy (serverKey config) (SpecServiceName intents)
                                 (ObjNamespace intents) a) _ config Hin).
  - intros w'. by apply RemoveACLsOnServer_clears.
  - intros config' w' _ Hw' a Ha. apply Hw'.
    by apply (RemoveACLsOnServer_revokesOnly intents config' w').
Qed.

(** *** The apply path *)

(** Nothing but the list of events changes. *)
Definition eventsOnly (w w' : World) : Prop :=
  clientIntents w' = clientIntents w ∧
  protectedServices w' = protectedServices w ∧
  acls w' = acls w ∧
  adminLog w' = adminLog w ∧
  events w `prefix_of` events w'.

#[local] Instance eventsOnly_preorder : PreOrder eventsOnly.
Proof.
  split.
  - intros w. by repeat split.
  - intros w1 w2 w3 (?&?&?&?&?) (?&?&?&?&?).
    repeat split; try congruence; by etrans.
Qed.

Lemma eventsOnly_extends w w' : eventsOnly w w' → extends w w'.
Proof. intros (?&?&?&Hl&?). repeat split; try done. by rewrite Hl. Qed.

Lemma recordEvent_eventsOnly warning o reason w :
  eventsOnly w (recordEvent warning o reason w).2.
Proof. repeat split. apply prefix_snoc. Qed.

(** While [broker] has no Protection Declaration, no grant is added on it;
    the Protection Declarations themselves are not touched. *)
Definition quietOn (broker : NamespacedName) (w w' : World) : Prop :=
  protectedServices w' = protectedServices w ∧
  (broker ∉ protectedServices w → noGrantOn broker w w').

#[local] Instance quietOn_preorder broker : PreOrder (quietOn broker).
Proof.
  split.
  - intros w. split; [done|]. by intros _ a.
  - intros w1 w2 w3 [Hp12 H12] [Hp23 H23]. split; [congruence|].
    intros Hb. etrans; [by apply H12|]. apply H23. by rewrite Hp12.
Qed.

Lemma applyACLsOnServer_extends intents intentsByServer config w :
  extends w (onServer (applyACLsOnServer intents intentsByServer) config w).2.
Proof.
  unfold onServer, extends. unfold_step.
  repeat case_match; simplify_eq/=; repeat split;
    repeat (done || apply prefix_snoc_trans).
Qed.

Lemma desiredAcls_broker broker service namespace calls a :
  a ∈ desiredAcls broker service namespace calls → aclBroker a = broker.
Proof.
  unfold desiredAcls. intros Ha.
  apply list_elem_of_bind in Ha as (intent & Ha & _).
  apply list_elem_of_bind in Ha as (topic & Ha & _).
  apply list_elem_of_bind in Ha as (op & Ha & _).
  apply list_elem_of_singleton in Ha. by subst a.
Qed.

(** With cluster-wide enforcement off, the step of any configured broker
    adds no grant on a broker that has no Protection Declaration. *)
(** The step of [applyACLs] on one broker, case by case. *)
Lemma applyACLsOnServer_cases intents intentsByServer config w :
  let k := serverKey config in
  let step := onServer (applyACLsOnServer intents intentsByServer) config w in
  match enforcementFault env k with
  | Some e => step = (Some e, w)
  | None =>
      let should :=
        if bool_decide (k ∈ protectedServices w) then true
        else enforcementDefaultState r in
      let w1 :=
        if should then w
        else (RecordNormalEvent intents ReasonEnforcementDefaultOff w).2 in
      let w2 := logAdmin (AdmOpen k (enableKafkaACLCreation r) should) w1 in
      match connectFault env k with
      | Some e =>
          step = (Some (ErrWrap "failed to connect to Kafka server" e),
                  (RecordWarningEvent intents
                     ReasonCouldNotConnectToKafkaServer w2).2)
      | None =>
          let admin := {| adminBroker := k;
                          adminCreationEnabled := enableKafkaACLCreation r;
                          adminEnforcementActive := should |} in
          let w3 :=
            (ApplyClientIntents admin (SpecServiceName intents)
               (ObjNamespace intents) (default [] (intentsByServer !! k)) w2).2 in
          match applyFault env k with
          | Some e =>
              step = (Some (ErrWrap "failed applying intents on kafka server" e),
                      logAdmin (AdmClose k)
                        (RecordWarningEvent intents
                           ReasonCouldNotApplyIntentsOnKafkaServer w3).2)
          | None => step = (None, logAdmin (AdmClose k) w3)
          end
      end
  end.
Proof.
  unfold onServer. unfold_step.
  destruct (enforcementFault env _) as [e|]; [done|].
  case_bool_decide; simpl.
  - destruct (connectFault env _) as [e|]; [done|]. simpl.
    by destruct (applyFault env _) as [e|].
  - destruct (enforcementDefaultState r); simpl.
    + destruct (connectFault env _) as [e|]; [done|]. simpl.
      by destruct (applyFault env _) as [e|].
    + destruct (connectFault env _) as [e|]; [done|]. simpl.
      by destruct (applyFault env _) as [e|].
Qed.

(** What [ApplyClientIntents] can add: grants on the broker of the
    session, and only under both flags. *)
Lemma ApplyClientIntents_grants admin service namespace calls w a :
  a ∈ acls (ApplyClientIntents admin service namespace calls w).2 →
  a ∈ acls w ∨
  (aclBroker a = adminBroker admin ∧
   adminCreationEnabled admin = true ∧ adminEnforcementActive admin = true).
Proof.
  unfold ApplyClientIntents. destruct (applyFault env _); simpl; [by left|].
  intros Ha. apply elem_of_app in Ha as [Ha | Ha].
  - left. by apply list_elem_of_filter in Ha as [_ Ha].
  - right. destruct (adminCreationEnabled admin), (adminEnforcementActive admin);
      simpl in Ha; try by apply elem_of_nil in Ha.
    apply list_elem_of_filter in Ha as [_ Ha].
    rewrite elem_of_remove_dups in Ha.
    by apply desiredAcls_broker in Ha.
Qed.

(** With cluster-wide enforcement off, the step of any configured broker
    adds no grant on a broker that has no Protection Declaration. *)
Lemma quietOn_same broker w w' :
  protectedServices w' = protectedServices w → acls w' = acls w →
  quietOn broker w w'.
Proof. intros Hp Ha. split; [done|]. intros _ a Hin _. by rewrite <- Ha. Qed.

Lemma applyACLsOnServer_quietOn broker intents intentsByServer config w :
  enforcementDefaultState r = false →
  quietOn broker w
    (onServer (applyACLsOnServer intents intentsByServer) config w).2.
Proof.
  intros Hoff.
  pose proof (applyACLsOnServer_cases intents intentsByServer config w) as Hc.
  cbv zeta in Hc. rewrite Hoff in Hc.
  destruct (enforcementFault env _) as [e|]; [rewrite Hc; reflexivity|].
  set (should := if bool_decide (serverKey config ∈ protectedServices w)
                 then true else false) in *.
  assert (should = true → serverKey config ∈ protectedServices w) as Hshould.
  { subst should. by case_bool_decide. }
  set (w2 := logAdmin _ _) in *.
  assert (protectedServices w2 = protectedServices w ∧ acls w2 = acls w)
    as [Hp2 Ha2].
  { subst w2. by destruct should. }
  destruct (connectFault env _) as [e|].
  { rewrite Hc. by apply quietOn_same. }
  set (w3 := (ApplyClientIntents _ _ _ _ w2).2) in *.
  assert (quietOn broker w w3) as Hw3.
  { split.
    - subst w3. unfold ApplyClientIntents. by destruct (applyFault env _).
    - intros Hb a Hin Hbroker.
      apply ApplyClientIntents_grants in Hin as [Hin | (Hk & _ & Hs)].
      + by rewrite <- Ha2.
      + simpl in *. destruct Hb. rewrite <- Hbroker, Hk. by apply Hshould. }
  destruct (applyFault env (serverKey config)) as [e|]; rewrite Hc;
    (etrans; [exact Hw3|]); by apply quietOn_same.
Qed.

Lemma warnNotConfigured_eventsOnly intents serverNames w :
  eventsOnly w (warnNotConfigured intents serverNames w).2.
Proof.
  revert w. induction serverNames as [|s rest IH]; intros w; [done|].
  simpl. run_monad. destruct (negb _).
  - unfold RecordWarningEvent.
    pose proof (recordEvent_eventsOnly true intents
                  ReasonKafkaServerNotConfigured w) as H1.
    destruct (recordEvent _ _ _ w) as [[] w1]. simpl in *.
    etrans; [done|]. apply IH.
  - apply IH.
Qed.

Lemma applyACLs_eventsOnly intents w :
  eventsOnly
    (MapErr (KafkaServersStore r)
       (applyACLsOnServer intents
          (getIntentsByServer (ObjNamespace intents) (SpecCalls intents))) w).2
    (applyACLs intents w).2.
Proof.
  unfold applyACLs. run_monad.
  destruct (MapErr _ _ w) as [[e|] w1]; simpl; [done|].
  destruct (negb (enableKafkaACLCreation r)).
  - unfold RecordNormalEvent.
    pose proof (recordEvent_eventsOnly false intents
                  ReasonKafkaACLCreationDisabled w1) as H1.
    destruct (recordEvent _ _ _ w1) as [[] w2]. simpl in *.
    pose proof (warnNotConfigured_eventsOnly intents
      (map_to_list (getIntentsByServer (ObjNamespace intents)
                      (SpecCalls intents))).*1 w2) as H2.
    destruct (warnNotConfigured _ _ w2) as [[] w3]. simpl in *. by etrans.
  - pose proof (warnNotConfigured_eventsOnly intents
      (map_to_list (getIntentsByServer (ObjNamespace intents)
                      (SpecCalls intents))).*1 w1) as H2.
    by destruct (warnNotConfigured _ _ w1) as [[] w3].
Qed.

Lemma applyACLs_error intents w :
  (applyACLs intents w).1.2
  = (MapErr (KafkaServersStore r)
       (applyACLsOnServer intents
          (getIntentsByServer (ObjNamespace intents) (SpecCalls intents))) w).1.
Proof.
  unfold applyACLs. run_monad.
  destruct (MapErr _ _ w) as [[e|] w1]; simpl; [done|].
  destruct (negb (enableKafkaACLCreation r)); simpl.
  - by destruct (warnNotConfigured _ _ _) as [[] w3].
  - by destruct (warnNotConfigured _ _ _) as [[] w3].
Qed.

Lemma applyAcls_eventsOnly intents w :
  eventsOnly (applyACLs intents w).2 (applyAcls intents w).2.
Proof.
  unfold applyAcls. run_monad.
  destruct (applyACLs intents w) as [[n [e|]] w1]; simpl.
  - apply recordEvent_eventsOnly.
  - case_bool_decide; [apply recordEvent_eventsOnly|done].
Qed.

Lemma applyAcls_error intents w :
  (applyAcls intents w).1.2 = (applyACLs intents w).1.2.
Proof.
  unfold applyAcls. run_monad.
  destruct (applyACLs intents w) as [[n [e|]] w1]; simpl; [done|].
  by case_bool_decide.
Qed.

Lemma handleIntentsDeletion_eventsOnly intents w :
  eventsOnly (RemoveACLs intents w).2 (handleIntentsDeletion intents w).2.
Proof.
  unfold handleIntentsDeletion. run_monad.
  destruct (RemoveACLs intents w) as [[e|] w1]; simpl; [|done].
  apply recordEvent_eventsOnly.
Qed.

Lemma isIntentsForTheIntentsOperator_eventsOnly intents w :
  eventsOnly w (isIntentsForTheIntentsOperator intents w).2.
Proof.
  unfold isIntentsForTheIntentsOperator. run_monad.
  case_bool_decide; [done|].
  destruct (GetPodAnnotatedName env _ _) as [[name ok] [e|]]; [done|].
  destruct ok; simpl; [done|]. apply recordEvent_eventsOnly.
Qed.

Lemma isIntentsForTheIntentsOperator_false intents w :
  (isIntentsForTheIntentsOperator intents w).1 = (false, None) →
  (isIntentsForTheIntentsOperator intents w).2 = w.
Proof.
  unfold isIntentsForTheIntentsOperator. run_monad.
  case_bool_decide; [done|].
  destruct (GetPodAnnotatedName env _ _) as [[name ok] [e|]]; [done|].
  by destruct ok.
Qed.

(** *** [Reconcile], path by path *)

Lemma Get_state key w : (Get key w).2 = w.
Proof.
  unfold Get. destruct (getFault env key); [done|].
  by destruct (clientIntents w !! key).
Qed.

Lemma Reconcile_no_intents req w :
  let got := (Get (reqNamespacedName req) w).1 in
  IsNotFoundErr got.1 = true ∨ (got.1 = None ∧ Spec got.2 = None) →
  Reconcile req w = ((emptyResult, None), w).
Proof.
  intros got Hgot. subst got. unfold Reconcile. run_monad.
  pose proof (Get_state (reqNamespacedName req) w) as Hs.
  destruct (Get _ w) as [[err o] w1]. simpl in *. subst w1.
  destruct Hgot as [Hnf | [-> Hspec]].
  - by rewrite Hnf.
  - simpl. by rewrite Hspec.
Qed.

Lemma Reconcile_deleting req w intents :
  (Get (reqNamespacedName req) w).1 = (None, intents) →
  Spec intents ≠ None →
  DeletionTimestamp intents ≠ None →
  Reconcile req w = handleIntentsDeletion intents w.
Proof.
  intros Hget Hspec Hdel. unfold Reconcile. run_monad.
  pose proof (Get_state (reqNamespacedName req) w) as Hs.
  destruct (Get _ w) as [[err o] w1]. simpl in *.
  injection Hget as -> ->. subst w1. simpl.
  destruct (Spec intents); [|done].
  unfold intentsObjectUnderDeletion. by rewrite bool_decide_eq_true_2.
Qed.

Lemma Reconcile_applying req w intents :
  (Get (reqNamespacedName req) w).1 = (None, intents) →
  Spec intents ≠ None →
  DeletionTimestamp intents = None →
  (isIntentsForTheIntentsOperator intents w).1 = (false, None) →
  (Reconcile req w).2 = (applyAcls intents w).2 ∧
  (Reconcile req w).1.2 = (applyAcls intents w).1.2.
Proof.
  intros Hget Hspec Hdel Hop. unfold Reconcile. run_monad.
  pose proof (Get_state (reqNamespacedName req) w) as Hs.
  destruct (Get _ w) as [[err o] w1]. simpl in *.
  injection Hget as -> ->. subst w1. simpl.
  destruct (Spec intents); [|done].
  unfold intentsObjectUnderDeletion. rewrite bool_decide_eq_false_2.
  2:{ intros Hne. by apply Hne. }
  pose proof (isIntentsForTheIntentsOperator_false intents w Hop) as Hw.
  destruct (isIntentsForTheIntentsOperator intents w) as [[b e] w1].
  simpl in *. injection Hop as -> ->. subst w1.
  by destruct (applyAcls intents w) as [[res [e|]] w2].
Qed.

(** *** Failures on the apply path *)

Definition appliesOn (broker : NamespacedName) (call : AdminCall) : Prop :=
  match call with
  | AdmApply b _ _ _ => b = broker
  | _ => False
  end.

(** The admin calls added from [w] to [w'] hold no [ApplyClientIntents] on
    [broker]. *)
Definition noApplyOn (broker : NamespacedName) (w w' : World) : Prop :=
  ∃ l, adminLog w' = adminLog w ++ l ∧ Forall (λ c, ¬ appliesOn broker c) l.

#[local] Instance noApplyOn_preorder broker : PreOrder (noApplyOn broker).
Proof.
  split.
  - intros w. exists []. by rewrite app_nil_r.
  - intros w1 w2 w3 (l1 & H1 & F1) (l2 & H2 & F2). exists (l1 ++ l2). split.
    + by rewrite H2, H1, (assoc_L (++)).
    + by apply Forall_app.
Qed.

Lemma eventsOnly_noApplyOn broker w w' : eventsOnly w w' → noApplyOn broker w w'.
Proof. intros (_&_&_&Hl&_). exists []. by rewrite app_nil_r. Qed.

Definition warningOn (intents : ClientIntents) (reason : string) : Event :=
  {| evWarning := true; evReason := reason;
     evObject := clientIntentsKey intents |}.

Lemma applyACLsOnServer_connect_warns intents intentsByServer config w :
  enforcementFault env (serverKey config) = None →
  connectFault env (serverKey config) ≠ None →
  warningOn intents ReasonCouldNotConnectToKafkaServer
    ∈ events (onServer (applyACLsOnServer intents intentsByServer) config w).2.
Proof.
  intros He Hf.
  pose proof (applyACLsOnServer_cases intents intentsByServer config w) as Hc.
  cbv zeta in Hc. rewrite He in Hc.
  destruct (connectFault env _) as [e|]; [|done]. rewrite Hc. simpl.
  apply elem_of_app. right. by apply list_elem_of_singleton.
Qed.

Lemma logAdmin_noApplyOn broker call w :
  ¬ appliesOn broker call → noApplyOn broker w (logAdmin call w).
Proof. intros Hno. exists [call]. split; [done|]. by repeat constructor. Qed.

Lemma ApplyClientIntents_noApplyOn broker admin service namespace calls w :
  adminBroker admin ≠ broker →
  noApplyOn broker w (ApplyClientIntents admin service namespace calls w).2.
Proof.
  intros Hne. exists [AdmApply (adminBroker admin) service namespace calls].
  split.
  - unfold ApplyClientIntents. by destruct (applyFault env _).
  - by repeat constructor.
Qed.

Lemma applyACLsOnServer_noApplyOn broker intents intentsByServer config w :
  connectFault env broker ≠ None →
  noApplyOn broker w
    (onServer (applyACLsOnServer intents intentsByServer) config w).2.
Proof.
  intros Hf.
  pose proof (applyACLsOnServer_cases intents intentsByServer config w) as Hc.
  cbv zeta in Hc.
  destruct (enforcementFault env _) as [e|]; [rewrite Hc; reflexivity|].
  set (should := if bool_decide _ then true else enforcementDefaultState r) in *.
  set (w1 := if should then w else _) in *.
  set (w2 := logAdmin _ w1) in *.
  assert (noApplyOn broker w w2) as Hw2.
  { transitivity w1.
    - subst w1. destruct should; [reflexivity|].
      apply eventsOnly_noApplyOn, recordEvent_eventsOnly.
    - apply logAdmin_noApplyOn. by intros []. }
  destruct (connectFault env (serverKey config)) as [e|] eqn:Hconn.
  - rewrite Hc. etrans; [exact Hw2|].
    apply eventsOnly_noApplyOn, recordEvent_eventsOnly.
  - assert (serverKey config ≠ broker) as Hne by congruence.
    set (w3 := (ApplyClientIntents _ _ _ _ w2).2) in *.
    assert (noApplyOn broker w w3) as Hw3.
    { etrans; [exact Hw2|]. by apply ApplyClientIntents_noApplyOn. }
    destruct (applyFault env (serverKey config)) as [e|]; rewrite Hc;
      (etrans; [exact Hw3|]).
    + etrans; [apply eventsOnly_noApplyOn, recordEvent_eventsOnly|].
      apply logAdmin_noApplyOn. by intros [].
    + apply logAdmin_noApplyOn. by intros [].
Qed.

Lemma applyACLsOnServer_applies intents intentsByServer config w :
  enforcementFault env (serverKey config) = None →
  connectFault env (serverKey config) = None →
  AdmApply (serverKey config) (SpecServiceName intents) (ObjNamespace intents)
    (default [] (intentsByServer !! serverKey config))
    ∈ adminLog (onServer (applyACLsOnServer intents intentsByServer) config w).2.
Proof.
  intros He Hconn.
  pose proof (applyACLsOnServer_cases intents intentsByServer config w) as Hc.
  cbv zeta in Hc. rewrite He, Hconn in Hc.
  assert (∀ admin w2,
    adminBroker admin = serverKey config →
    AdmApply (serverKey config) (SpecServiceName intents) (ObjNamespace intents)
      (default [] (intentsByServer !! serverKey config))
      ∈ adminLog (ApplyClientIntents admin (SpecServiceName intents)
                    (ObjNamespace intents)
                    (default [] (intentsByServer !! serverKey config)) w2).2)
    as Hlog.
  { intros admin w2 Hb. unfold ApplyClientIntents. rewrite Hb.
    destruct (applyFault env _); simpl; apply elem_of_app; right;
      by apply list_elem_of_singleton. }
  destruct (applyFault env (serverKey config)) as [e|]; rewrite Hc; simpl;
    apply elem_of_app; left; by apply Hlog.
Qed.

Lemma applyACLsOnServer_apply_fails intents intentsByServer config w :
  enforcementFault env (serverKey config) = None →
  connectFault env (serverKey config) = None →
  applyFault env (serverKey config) ≠ None →
  (onServer (applyACLsOnServer intents intentsByServer) config w).1 ≠ None ∧
  warningOn intents ReasonCouldNotApplyIntentsOnKafkaServer
    ∈ events (onServer (applyACLsOnServer intents intentsByServer) config w).2.
Proof.
  intros He Hconn Hf.
  pose proof (applyACLsOnServer_cases intents intentsByServer config w) as Hc.
  cbv zeta in Hc. rewrite He, Hconn in Hc.
  destruct (applyFault env (serverKey config)) as [e|]; [|done].
  rewrite Hc. simpl. split; [done|].
  apply elem_of_app. right. by apply list_elem_of_singleton.
Qed.

(** *** The claims about the brokers *)

Lemma eventsOnly_quietOn broker w w' : eventsOnly w w' → quietOn broker w w'.
Proof. intros (_&Hp&Ha&_). by apply quietOn_same. Qed.

Lemma RemoveACLs_quietOn broker intents w :
  quietOn broker w (RemoveACLs intents w).2.
Proof.
  split.
  - by destruct (RemoveACLs_extends intents w) as (_&Hp&_).
  - intros _. apply revokesOnly_noGrantOn, RemoveACLs_revokesOnly.
Qed.

(** With cluster-wide enforcement off, no path of [Reconcile] adds a grant
    on a broker that has no Protection Declaration. *)
Lemma Reconcile_quietOn broker req w :
  enforcementDefaultState r = false →
  quietOn broker w (Reconcile req w).2.
Proof.
  intros Hoff. unfold Reconcile. run_monad.
  pose proof (Get_state (reqNamespacedName req) w) as Hs.
  destruct (Get _ w) as [[err intents] w1]. simpl in *. subst w1.
  destruct (IsNotFoundErr err); [reflexivity|].
  destruct err as [e|]; [reflexivity|].
  destruct (Spec intents); [|reflexivity].
  destruct (intentsObjectUnderDeletion intents).
  - transitivity (RemoveACLs intents w).2; [apply RemoveACLs_quietOn|].
    apply eventsOnly_quietOn, handleIntentsDeletion_eventsOnly.
  - pose proof (isIntentsForTheIntentsOperator_eventsOnly intents w) as Hop.
    destruct (isIntentsForTheIntentsOperator intents w) as [[isOp err] w1].
    simpl in *. apply (eventsOnly_quietOn broker) in Hop.
    destruct err as [e|]; [done|]. destruct isOp; [done|].
    etrans; [exact Hop|].
    assert (quietOn broker w1 (applyAcls intents w1).2) as Happly.
    { etrans; [|apply eventsOnly_quietOn, applyAcls_eventsOnly].
      etrans; [|apply eventsOnly_quietOn, applyACLs_eventsOnly].
      apply (MapErr_preorder _ (quietOn broker)). intros config w' _.
      by apply applyACLsOnServer_quietOn. }
    by destruct (applyAcls intents w1) as [[res [e|]] w2].
Qed.

(** C4. Enforcement gates the creation of grants, never their removal.
    For a ClientIntents object that is being deleted, [Reconcile] asks
    every configured broker whose enforcement lookup and connection
    succeed to remove the grants of the client, whatever the enforcement
    decision is, and once the broker has done so no grant of the client
    is left on it. With cluster-wide enforcement off and no Protection
    Declaration for a broker, no run of [Reconcile] adds a grant on that
    broker. *)
Theorem enforcement_never_gates_removal req w config :
  config ∈ KafkaServersStore r →
  let broker := serverKey config in
  (∀ intents,
     (Get (reqNamespacedName req) w).1 = (None, intents) →
     Spec intents ≠ None →
     DeletionTimestamp intents ≠ None →
     enforcementFault env broker = None →
     connectFault env broker = None →
     AdmRemove broker (SpecServiceName intents) (ObjNamespace intents)
       ∈ adminLog (Reconcile req w).2
     ∧ (removeFault env broker = None →
        ∀ a, a ∈ acls (Reconcile req w).2 →
             ¬ ownedBy broker (SpecServiceName intents) (ObjNamespace intents) a))
  ∧ (enforcementDefaultState r = false →
     broker ∉ protectedServices w →
     noGrantOn broker w (Reconcile req w).2).
Proof.
  intros Hin broker. split.
  - intros intents Hget Hspec Hdel He Hconn.
    rewrite (Reconcile_deleting req w intents Hget Hspec Hdel).
    destruct (handleIntentsDeletion_eventsOnly intents w)
      as (_ & _ & Hacls & Hlog & _).
    rewrite Hacls, Hlog. split.
    + by apply RemoveACLs_asks.
    + intros Hr. by apply RemoveACLs_clears.
  - intros Hoff Hprot. by apply (Reconcile_quietOn broker req w Hoff).
Qed.

(** C5. Broker failures on the apply path. [Reconcile] runs on an active
    ClientIntents object that is not the operator's own, and the
    enforcement lookup of a configured broker succeeds. If the connection
    to that broker fails, a warning event is recorded, no
    [ApplyClientIntents] is sent to that broker, and every configured
    broker whose lookup and connection succeed still gets its
    [ApplyClientIntents]. If the connection succeeds and the apply fails,
    a warning event is recorded and [Reconcile] returns an error. *)
Theorem broker_failure_isolation req w intents config :
  (Get (reqNamespacedName req) w).1 = (None, intents) →
  Spec intents ≠ None →
  DeletionTimestamp intents = None →
  (isIntentsForTheIntentsOperator intents w).1 = (false, None) →
  config ∈ KafkaServersStore r →
  enforcementFault env (serverKey config) = None →
  let broker := serverKey config in
  let w' := (Reconcile req w).2 in
  let intentsByServer :=
    getIntentsByServer (ObjNamespace intents) (SpecCalls intents) in
  (connectFault env broker ≠ None →
   warningOn intents ReasonCouldNotConnectToKafkaServer ∈ events w'
   ∧ noApplyOn broker w w'
   ∧ ∀ config',
       config' ∈ KafkaServersStore r →
       enforcementFault env (serverKey config') = None →
       connectFault env (serverKey config') = None →
       AdmApply (serverKey config') (SpecServiceName intents)
         (ObjNamespace intents)
         (default [] (intentsByServer !! serverKey config'))
         ∈ adminLog w')
  ∧ (connectFault env broker = None →
     applyFault env broker ≠ None →
     warningOn intents ReasonCouldNotApplyIntentsOnKafkaServer ∈ events w'
     ∧ (Reconcile req w).1.2 ≠ None).
Proof.
  intros Hget Hspec Hdel Hop Hin He broker w' ibs. subst w'.
  destruct (Reconcile_applying req w intents Hget Hspec Hdel Hop) as [-> ->].
  rewrite applyAcls_error, applyACLs_error. fold ibs.
  pose proof (applyAcls_eventsOnly intents w) as H1.
  pose proof (applyACLs_eventsOnly intents w) as H2. fold ibs in H2.
  assert (eventsOnly (MapErr (KafkaServersStore r)
                        (applyACLsOnServer intents ibs) w).2
                     (applyAcls intents w).2) as Hev by (by etrans).
  clear H1 H2. set (wm := (MapErr _ _ w).2) in *.
  assert (∀ ev, ev ∈ events wm → ev ∈ events (applyAcls intents w).2) as Hevents.
  { intros ev. apply extends_event. by apply eventsOnly_extends. }
  destruct Hev as (_ & _ & _ & Hlog & _). split.
  - intros Hconn. split; [|split].
    + apply Hevents. subst wm.
      apply (MapErr_establishes _
               (λ w', warningOn intents ReasonCouldNotConnectToKafkaServer
                        ∈ events w') _ config Hin).
      * intros w1. by apply applyACLsOnServer_connect_warns.
      * intros config' w1 _ Hw1.
        eapply extends_event; [apply applyACLsOnServer_extends|done].
    + assert (noApplyOn broker w wm) as (l & Hl & Hno).
      { subst wm. apply (MapErr_preorder _ (noApplyOn broker)).
        intros config' w1 _. by apply applyACLsOnServer_noApplyOn. }
      exists l. by rewrite Hlog.
    + intros config' Hin' He' Hconn'. rewrite Hlog. subst wm.
      apply (MapErr_establishes _
               (λ w', AdmApply (serverKey config') (SpecServiceName intents)
                        (ObjNamespace intents)
                        (default [] (ibs !! serverKey config'))
                        ∈ adminLog w') _ config' Hin').
      * intros w1. by apply applyACLsOnServer_applies.
      * intros config'' w1 _ Hw1.
        eapply extends_adminCall; [apply applyACLsOnServer_extends|done].
  - intros Hconn Hf. split.
    + apply Hevents. subst wm.
      apply (MapErr_establishes _
               (λ w', warningOn intents ReasonCouldNotApplyIntentsOnKafkaServer
                        ∈ events w') _ config Hin).
      * intros w1. by apply applyACLsOnServer_apply_fails.
      * intros config' w1 _ Hw1.
        eapply extends_event; [apply applyACLsOnServer_extends|done].
    + apply (MapErr_fails _ _ config Hin). intros w1.
      by apply applyACLsOnServer_apply_fails.
Qed.

(** *** The operator's own identity *)

(** When the object lives in the operator's namespace and the operator's
    identity cannot be resolved, [Reconcile] fails and no broker is
    contacted. *)
Lemma Reconcile_identity_failure req w intents :
  (Get (reqNamespacedName req) w).1 = (None, intents) →
  Spec intents ≠ None →
  DeletionTimestamp intents = None →
  operatorPodNamespace r = ObjNamespace intents →
  (GetPodAnnotatedName env (operatorPodName r) (operatorPodNamespace r)).2 ≠ None
  ∨ (GetPodAnnotatedName env (operatorPodName r) (operatorPodNamespace r)).1.2
    = false →
  (Reconcile req w).1.2 ≠ None ∧
  adminLog (Reconcile req w).2 = adminLog w ∧
  acls (Reconcile req w).2 = acls w.
Proof.
  intros Hget Hspec Hdel Hns Hfail. unfold Reconcile. run_monad.
  pose proof (Get_state (reqNamespacedName req) w) as Hs.
  destruct (Get _ w) as [[err o] w1]. simpl in *.
  injection Hget as -> ->. subst w1. simpl.
  destruct (Spec intents); [|done].
  unfold intentsObjectUnderDeletion. rewrite bool_decide_eq_false_2.
  2:{ intros Hne. by apply Hne. }
  unfold isIntentsForTheIntentsOperator. run_monad.
  rewrite bool_decide_eq_false_2 by (intros Hne; by apply Hne).
  destruct (GetPodAnnotatedName env _ _) as [[name ok] [e|]]; simpl in *;
    [done|].
  destruct Hfail as [Hfail | ->]; done.
Qed.

(** *** Grouping the Calls by broker *)

Definition targetServer (defaultNamespace : string) (intent : Intent)
  : NamespacedName :=
  mkNamespacedName (GetTargetServerName intent)
    (GetTargetServerNamespace intent defaultNamespace).

(** The Kafka Calls of a list that name [serverName], in their order. *)
Definition kafkaCallsTo (defaultNamespace : string) (serverName : NamespacedName)
  (intents : list Intent) : list Intent :=
  filter (λ intent, Type_ intent = IntentTypeKafka
                    ∧ targetServer defaultNamespace intent = serverName)
         intents.

Lemma getIntentsByServer_snoc ns intents intent :
  getIntentsByServer ns (intents ++ [intent]) =
    if bool_decide (Type_ intent ≠ IntentTypeKafka)
    then getIntentsByServer ns intents
    else <[targetServer ns intent :=
             default [] (getIntentsByServer ns intents !! targetServer ns intent)
             ++ [intent]]> (getIntentsByServer ns intents).
Proof. unfold getIntentsByServer. by rewrite foldl_app. Qed.

Lemma getIntentsByServer_lookup ns intents k :
  getIntentsByServer ns intents !! k =
    match kafkaCallsTo ns k intents with [] => None | l => Some l end.
Proof.
  induction intents as [|intent intents IH] using rev_ind; [done|].
  rewrite getIntentsByServer_snoc. unfold kafkaCallsTo in *.
  rewrite filter_app. case_bool_decide as Hty.
  - rewrite IH, filter_cons_False, filter_nil, app_nil_r; [done|].
    by intros [? _].
  - assert (Type_ intent = IntentTypeKafka) as Hkafka.
    { by destruct (decide (Type_ intent = IntentTypeKafka)). }
    destruct (decide (targetServer ns intent = k)) as [<- | Hne].
    + rewrite lookup_insert_eq, IH, filter_cons_True, filter_nil by done.
      by destruct (filter _ intents).
    + rewrite lookup_insert_ne, IH, filter_cons_False, filter_nil, app_nil_r;
        [done| |done]. by intros [_ ?].
Qed.

(** [getIntentsByServer] groups the Kafka Calls by the broker they name:
    the entry of a broker holds the Kafka Calls that name it, in the order
    of the list, Calls of other kinds are in no entry, and a broker that
    no Kafka Call names has no entry. *)
Theorem getIntentsByServer_groups ns intents k :
  default [] (getIntentsByServer ns intents !! k) = kafkaCallsTo ns k intents
  ∧ (is_Some (getIntentsByServer ns intents !! k)
     ↔ ∃ intent, intent ∈ intents ∧ Type_ intent = IntentTypeKafka
                 ∧ targetServer ns intent = k).
Proof.
  rewrite getIntentsByServer_lookup.
  destruct (kafkaCallsTo ns k intents) as [|intent l] eqn:Hcalls.
  - split; [done|]. split; [by intros [? ?]|].
    intros (intent & Hin & Hty & Hk).
    assert (intent ∈ kafkaCallsTo ns k intents) as Hmem.
    { by apply list_elem_of_filter. }
    rewrite Hcalls in Hmem. by apply elem_of_nil in Hmem.
  - split; [done|]. split; [|done]. intros _.
    assert (intent ∈ kafkaCallsTo ns k intents) as Hmem.
    { rewrite Hcalls. by left. }
    apply list_elem_of_filter in Hmem as [[Hty Hk] Hin]. by exists intent.
Qed.

(** *** Every path of [Reconcile] at once *)

(** A preorder that recording an event respects, and that the step of
    every broker respects on both passes, is respected by [Reconcile]. *)
Lemma Reconcile_preorder (R : relation World) `{!PreOrder R} :
  (∀ w w', eventsOnly w w' → R w w') →
  (∀ intents config w,
     R w (onServer (RemoveACLsOnServer intents) config w).2) →
  (∀ intents intentsByServer config w,
     R w (onServer (applyACLsOnServer intents intentsByServer) config w).2) →
  ∀ req w, R w (Reconcile req w).2.
Proof.
  intros Hev Hremove Happly req w. unfold Reconcile. run_monad.
  pose proof (Get_state (reqNamespacedName req) w) as Hs.
  destruct (Get _ w) as [[err intents] w1]. simpl in *. subst w1.
  destruct (IsNotFoundErr err); [reflexivity|].
  destruct err as [e|]; [reflexivity|].
  destruct (Spec intents); [|reflexivity].
  destruct (intentsObjectUnderDeletion intents).
  - transitivity (RemoveACLs intents w).2.
    + apply (MapErr_preorder _ R). intros config w' _. apply Hremove.
    + apply Hev, handleIntentsDeletion_eventsOnly.
  - pose proof (isIntentsForTheIntentsOperator_eventsOnly intents w) as Hop.
    destruct (isIntentsForTheIntentsOperator intents w) as [[isOp err] w1].
    simpl in *. apply Hev in Hop.
    destruct err as [e|]; [done|]. destruct isOp; [done|].
    etrans; [exact Hop|].
    assert (R w1 (applyAcls intents w1).2) as Happly'.
    { etrans; [|apply Hev, applyAcls_eventsOnly].
      etrans; [|apply Hev, applyACLs_eventsOnly].
      apply (MapErr_preorder _ R). intros config w' _. apply Happly. }
    by destruct (applyAcls intents w1) as [[res [e|]] w2].
Qed.

Lemma Reconcile_result req w : (Reconcile req w).1.1 = emptyResult.
Proof.
  unfold Reconcile. run_monad.
  destruct (Get _ w) as [[err intents] w1]. simpl.
  destruct (IsNotFoundErr err); [done|]. destruct err; [done|].
  destruct (Spec intents); [|done].
  destruct (intentsObjectUnderDeletion intents).
  - unfold handleIntentsDeletion. run_monad.
    by destruct (RemoveACLs intents w1) as [[e|] w2].
  - destruct (isIntentsForTheIntentsOperator intents w1) as [[isOp [e|]] w2];
      [done|].
    destruct isOp; [done|]. unfold applyAcls. run_monad.
    destruct (applyACLs intents w2) as [[n [e|]] w3]; simpl; [done|].
    by case_bool_decide.
Qed.

(** [Reconcile] never asks for a requeue, and it only reads the stored
    ClientIntents and Protection Declarations: what it leaves behind are
    events and admin calls, added after the ones that were there. *)
Theorem Reconcile_reads_only req w :
  (Reconcile req w).1.1 = emptyResult
  ∧ clientIntents (Reconcile req w).2 = clientIntents w
  ∧ protectedServices (Reconcile req w).2 = protectedServices w
  ∧ events w `prefix_of` events (Reconcile req w).2
  ∧ adminLog w `prefix_of` adminLog (Reconcile req w).2.
Proof.
  split; [apply Reconcile_result|].
  apply (Reconcile_preorder extends).
  - apply eventsOnly_extends.
  - apply RemoveACLsOnServer_extends.
  - apply applyACLsOnServer_extends.
Qed.

(** *** Admin sessions *)

Definition callBroker (call : AdminCall) : NamespacedName :=
  match call with
  | AdmOpen b _ _ | AdmApply b _ _ _ | AdmRemove b _ _ | AdmClose b => b
  end.

(** The session that a list of admin calls leaves open, starting from the
    session [open]; [None] if the calls break the protocol. A session is
    opened when none is open, and the attempt opens one unless the
    connection fails; grants are applied and removed on the broker of the
    open session only; closing ends the open session. *)
Fixpoint sessions (open : option NamespacedName) (calls : list AdminCall)
  : option (option NamespacedName) :=
  match calls with
  | [] => Some open
  | call :: rest =>
      match call, open with
      | AdmOpen b _ _, None =>
          sessions (match connectFault env b with
                    | Some _ => None
                    | None => Some b
                    end) rest
      | AdmApply b _ _ _, Some b' | AdmRemove b _ _, Some b' =>
          if bool_decide (b = b') then sessions open rest else None
      | AdmClose b, Some b' =>
          if bool_decide (b = b') then sessions None rest else None
      | _, _ => None
      end
  end.

Lemma sessions_app open l1 l2 :
  sessions open (l1 ++ l2) =
    match sessions open l1 with
    | Some open' => sessions open' l2
    | None => None
    end.
Proof.
  revert open. induction l1 as [|call l1 IH]; intros open; [done|]. simpl.
  destruct call, open; simpl; try done; by case_bool_decide.
Qed.

(** The admin calls added from [w] to [w'] follow the protocol and leave
    no session open. *)
Definition sessionsClosed (w w' : World) : Prop :=
  ∃ l, adminLog w' = adminLog w ++ l ∧ sessions None l = Some None.

#[local] Instance sessionsClosed_preorder : PreOrder sessionsClosed.
Proof.
  split.
  - intros w. exists []. by rewrite app_nil_r.
  - intros w1 w2 w3 (l1 & H1 & S1) (l2 & H2 & S2). exists (l1 ++ l2). split.
    + by rewrite H2, H1, (assoc_L (++)).
    + by rewrite sessions_app, S1.
Qed.

Ltac close_sessions :=
  first
    [ by (exists []; rewrite app_nil_r)
    | rewrite <- ?(assoc_L (++)); eexists; split; [reflexivity|]; simpl;
      repeat match goal with H : connectFault _ _ = _ |- _ => rewrite H end;
      simpl; rewrite ?bool_decide_eq_true_2 by done; done ].

Lemma RemoveACLsOnServer_sessionsClosed intents config w :
  sessionsClosed w (onServer (RemoveACLsOnServer intents) config w).2.
Proof.
  unfold onServer, sessionsClosed. unfold_step.
  repeat case_match; simplify_eq/=; close_sessions.
Qed.

Lemma applyACLsOnServer_sessionsClosed intents intentsByServer config w :
  sessionsClosed w
    (onServer (applyACLsOnServer intents intentsByServer) config w).2.
Proof.
  unfold onServer, sessionsClosed. unfold_step.
  repeat case_match; simplify_eq/=; close_sessions.
Qed.

(** The admin calls of one run of [Reconcile] follow the session protocol:
    grants are applied and removed only within an open session on the same
    broker, no session is opened while another is open, and every session
    that was opened has been closed when [Reconcile] returns, whichever
    calls failed. *)
Theorem Reconcile_closes_sessions req w :
  ∃ l, adminLog (Reconcile req w).2 = adminLog w ++ l
       ∧ sessions None l = Some None.
Proof.
  apply (Reconcile_preorder sessionsClosed).
  - intros w1 w2 (_ & _ & _ & Hlog & _). exists []. by rewrite app_nil_r.
  - apply RemoveACLsOnServer_sessionsClosed.
  - apply applyACLsOnServer_sessionsClosed.
Qed.

(** *** Creation of grants disabled *)

Definition normalOn (intents : ClientIntents) (reason : string) : Event :=
  {| evWarning := false; evReason := reason;
     evObject := clientIntentsKey intents |}.

Lemma eventsOnly_event w w' ev : eventsOnly w w' → ev ∈ events w → ev ∈ events w'.
Proof. intros Hev. by apply extends_event, eventsOnly_extends. Qed.

Lemma applyACLsOnServer_revokesOnly intents intentsByServer config w :
  enableKafkaACLCreation r = false →
  revokesOnly w
    (onServer (applyACLsOnServer intents intentsByServer) config w).2.
Proof.
  intros Hoff.
  pose proof (applyACLsOnServer_cases intents intentsByServer config w) as Hc.
  cbv zeta in Hc. rewrite Hoff in Hc.
  destruct (enforcementFault env _) as [e|]; [rewrite Hc; reflexivity|].
  set (should := if bool_decide _ then true else enforcementDefaultState r) in *.
  set (w2 := logAdmin _ _) in *.
  assert (acls w2 = acls w) as Ha2.
  { subst w2. by destruct should. }
  destruct (connectFault env _) as [e|].
  { rewrite Hc. intros a Ha. rewrite <- Ha2. exact Ha. }
  set (w3 := (ApplyClientIntents _ _ _ _ w2).2) in *.
  assert (revokesOnly w w3) as Hw3.
  { intros a Ha.
    apply ApplyClientIntents_grants in Ha as [Ha | (_ & Hcreate & _)]; [|done].
    by rewrite <- Ha2. }
  destruct (applyFault env (serverKey config)) as [e|]; by rewrite Hc.
Qed.

Lemma applyACLs_disabled_event intents w :
  enableKafkaACLCreation r = false →
  (applyACLs intents w).1.2 = None →
  normalOn intents ReasonKafkaACLCreationDisabled ∈ events (applyACLs intents w).2.
Proof.
  intros Hoff. unfold applyACLs. run_monad.
  destruct (MapErr _ _ w) as [[e|] w1]; simpl; [done|]. intros _.
  rewrite Hoff. simpl.
  set (w2 := (RecordNormalEvent intents ReasonKafkaACLCreationDisabled w1).2).
  pose proof (warnNotConfigured_eventsOnly intents
    (map_to_list (getIntentsByServer (ObjNamespace intents)
                    (SpecCalls intents))).*1 w2) as Hwarn.
  assert (normalOn intents ReasonKafkaACLCreationDisabled ∈ events w2) as Hin.
  { apply elem_of_app. right. by apply list_elem_of_singleton. }
  apply (eventsOnly_event _ _ _ Hwarn) in Hin.
  by destruct (warnNotConfigured _ _ _) as [[] w3].
Qed.

(** With the creation of grants disabled, no run of [Reconcile] adds a
    grant on any broker, and a run on an active object that returns no
    error has recorded that creation was skipped. *)
Theorem creation_disabled_grants_nothing req w :
  enableKafkaACLCreation r = false →
  (∀ a, a ∈ acls (Reconcile req w).2 → a ∈ acls w)
  ∧ ∀ intents,
      (Get (reqNamespacedName req) w).1 = (None, intents) →
      Spec intents ≠ None →
      DeletionTimestamp intents = None →
      (isIntentsForTheIntentsOperator intents w).1 = (false, None) →
      (Reconcile req w).1.2 = None →
      normalOn intents ReasonKafkaACLCreationDisabled
        ∈ events (Reconcile req w).2.
Proof.
  intros Hoff. split.
  - apply (Reconcile_preorder revokesOnly).
    + intros w1 w2 (_ & _ & Hacls & _) a. by rewrite Hacls.
    + apply RemoveACLsOnServer_revokesOnly.
    + intros intents intentsByServer config w1.
      by apply applyACLsOnServer_revokesOnly.
  - intros intents Hget Hspec Hdel Hop.
    destruct (Reconcile_applying req w intents Hget Hspec Hdel Hop) as [-> ->].
    rewrite applyAcls_error. intros Hok.
    apply (eventsOnly_event _ _ _ (applyAcls_eventsOnly intents w)).
    by apply applyACLs_disabled_event.
Qed.

(** *** The operator's own Calls *)

(** An active object that declares the Calls of the operator itself, by
    the operator's namespace and the name its pod resolves to, is skipped:
    [Reconcile] succeeds and changes nothing. *)
Theorem Reconcile_skips_operator req w intents :
  (Get (reqNamespacedName req) w).1 = (None, intents) →
  Spec intents ≠ None →
  DeletionTimestamp intents = None →
  operatorPodNamespace r = ObjNamespace intents →
  GetPodAnnotatedName env (operatorPodName r) (operatorPodNamespace r)
  = (SpecServiceName intents, true, None) →
  Reconcile req w = ((emptyResult, None), w).
Proof.
  intros Hget Hspec Hdel Hns Hname. unfold Reconcile. run_monad.
  pose proof (Get_state (reqNamespacedName req) w) as Hs.
  destruct (Get _ w) as [[err o] w1]. simpl in *.
  injection Hget as -> ->. subst w1. simpl.
  destruct (Spec intents); [|done].
  unfold intentsObjectUnderDeletion. rewrite bool_decide_eq_false_2.
  2:{ intros Hne. by apply Hne. }
  unfold isIntentsForTheIntentsOperator. run_monad.
  rewrite bool_decide_eq_false_2 by (intros Hne; by apply Hne).
  rewrite Hname. simpl. by rewrite bool_decide_eq_true_2.
Qed.

(** *** What a run reports *)

Definition keepsEvents (w w' : World) : Prop := events w' = events w.

#[local] Instance keepsEvents_preorder : PreOrder keepsEvents.
Proof.
  split; [done|]. intros w1 w2 w3 H12 H23. unfold keepsEvents in *. congruence.
Qed.

Lemma RemoveACLsOnServer_keepsEvents intents config w :
  keepsEvents w (onServer (RemoveACLsOnServer intents) config w).2.
Proof.
  unfold onServer, keepsEvents. unfold_step.
  by repeat case_match; simplify_eq/=.
Qed.

(** For an object that is being deleted [Reconcile] returns what the
    removal pass over the brokers returned, and it records one event, a
    warning, exactly when that pass failed. *)
Theorem Reconcile_deleting_reports req w intents :
  (Get (reqNamespacedName req) w).1 = (None, intents) →
  Spec intents ≠ None →
  DeletionTimestamp intents ≠ None →
  let run := Reconcile req w in
  run.1 = (emptyResult, (RemoveACLs intents w).1)
  ∧ events run.2
    = events w ++
      match run.1.2 with
      | Some _ => [warningOn intents ReasonRemovingKafkaACLsFailed]
      | None => []
      end.
Proof.
  intros Hget Hspec Hdel run. subst run.
  rewrite (Reconcile_deleting req w intents Hget Hspec Hdel).
  assert (events (RemoveACLs intents w).2 = events w) as Hev.
  { apply (MapErr_preorder _ keepsEvents). intros config w' _.
    apply RemoveACLsOnServer_keepsEvents. }
  unfold handleIntentsDeletion. run_monad.
  destruct (RemoveACLs intents w) as [[e|] w1]; simpl in *.
  - by rewrite Hev.
  - by rewrite Hev, app_nil_r.
Qed.

Lemma getIntentsByServer_size ns intents intent :
  intent ∈ intents → Type_ intent = IntentTypeKafka →
  0 < size (getIntentsByServer ns intents).
Proof.
  intros Hin Hty.
  assert (intent ∈ kafkaCallsTo ns (targetServer ns intent) intents) as Hmem.
  { by apply list_elem_of_filter. }
  pose proof (getIntentsByServer_lookup ns intents (targetServer ns intent))
    as Hlookup.
  destruct (decide (size (getIntentsByServer ns intents) = 0)) as [Hz|]; [|lia].
  apply map_size_empty_iff in Hz. rewrite Hz, lookup_empty in Hlookup.
  destruct (kafkaCallsTo _ _ intents); [|done]. by apply elem_of_nil in Hmem.
Qed.

Lemma applyACLs_count intents w :
  (applyACLs intents w).1.2 = None →
  (applyACLs intents w).1.1
  = size (getIntentsByServer (ObjNamespace intents) (SpecCalls intents)).
Proof.
  unfold applyACLs. run_monad.
  destruct (MapErr _ _ w) as [[e|] w1]; simpl; [done|]. intros _.
  destruct (negb (enableKafkaACLCreation r)); simpl;
    by destruct (warnNotConfigured _ _ _) as [[] w3].
Qed.

(** For an active object that is not the operator's own, the last event of
    a run tells how it ended: a warning that applying failed when
    [Reconcile] returns an error, and, when it returns none and the object
    has a Kafka Call, the event that the grants were applied. *)
Theorem Reconcile_applying_reports req w intents :
  (Get (reqNamespacedName req) w).1 = (None, intents) →
  Spec intents ≠ None →
  DeletionTimestamp intents = None →
  (isIntentsForTheIntentsOperator intents w).1 = (false, None) →
  let run := Reconcile req w in
  (run.1.2 ≠ None →
   last (events run.2) = Some (warningOn intents ReasonApplyingKafkaACLsFailed))
  ∧ (run.1.2 = None →
     (∃ intent, intent ∈ SpecCalls intents ∧ Type_ intent = IntentTypeKafka) →
     last (events run.2) = Some (normalOn intents ReasonAppliedKafkaACLs)).
Proof.
  intros Hget Hspec Hdel Hop run. subst run.
  destruct (Reconcile_applying req w intents Hget Hspec Hdel Hop) as [-> ->].
  pose proof (applyACLs_count intents w) as Hcount.
  unfold applyAcls. run_monad.
  destruct (applyACLs intents w) as [[n [e|]] w1]; simpl in *.
  - split; [|intros [=]]. intros _. apply last_snoc.
  - rewrite Hcount by done.
    split; [by case_bool_decide|]. intros _ (intent & Hin & Hty).
    rewrite bool_decide_eq_true_2.
    + simpl. apply last_snoc.
    + by apply (getIntentsByServer_size _ _ intent).
Qed.

(** *** Calls that name a broker without configuration *)

(** The admin calls, and the events, added from [w] to [w']. *)
Definition addsCalls (Q : AdminCall → Prop) (w w' : World) : Prop :=
  ∃ l, adminLog w' = adminLog w ++ l ∧ Forall Q l.

Definition addsEvents (P : Event → Prop) (w w' : World) : Prop :=
  ∃ l, events w' = events w ++ l ∧ Forall P l.

#[local] Instance addsCalls_preorder Q : PreOrder (addsCalls Q).
Proof.
  split.
  - intros w. exists []. by rewrite app_nil_r.
  - intros w1 w2 w3 (l1 & H1 & F1) (l2 & H2 & F2). exists (l1 ++ l2). split.
    + by rewrite H2, H1, (assoc_L (++)).
    + by apply Forall_app.
Qed.

#[local] Instance addsEvents_preorder P : PreOrder (addsEvents P).
Proof.
  split.
  - intros w. exists []. by rewrite app_nil_r.
  - intros w1 w2 w3 (l1 & H1 & F1) (l2 & H2 & F2). exists (l1 ++ l2). split.
    + by rewrite H2, H1, (assoc_L (++)).
    + by apply Forall_app.
Qed.

Lemma applyACLsOnServer_addsCalls intents intentsByServer config w :
  addsCalls (λ call, callBroker call = serverKey config) w
    (onServer (applyACLsOnServer intents intentsByServer) config w).2.
Proof.
  unfold onServer, addsCalls. unfold_step.
  repeat case_match; simplify_eq/=;
    first
      [ by (exists []; rewrite app_nil_r)
      | rewrite <- ?(assoc_L (++)); eexists; split; [reflexivity|];
        by repeat constructor ].
Qed.

Lemma applyACLsOnServer_addsEvents intents intentsByServer config w :
  addsEvents (λ ev, evReason ev ≠ ReasonKafkaServerNotConfigured) w
    (onServer (applyACLsOnServer intents intentsByServer) config w).2.
Proof.
  unfold onServer, addsEvents. unfold_step.
  repeat case_match; simplify_eq/=;
    first
      [ by (exists []; rewrite app_nil_r)
      | rewrite <- ?(assoc_L (++)); eexists; split; [reflexivity|];
        by repeat constructor ].
Qed.

(** The brokers the Calls name that have no configuration. *)
Definition notConfigured (serverNames : list NamespacedName)
  : list NamespacedName :=
  filter (λ serverName,
            Exists (KafkaServersStore r) serverName.2 serverName.1 = false)
         serverNames.

Lemma warnNotConfigured_events intents serverNames w :
  events (warnNotConfigured intents serverNames w).2
  = events w ++
    ((λ _, warningOn intents ReasonKafkaServerNotConfigured)
       <$> notConfigured serverNames).
Proof.
  revert w. induction serverNames as [|s rest IH]; intros w.
  { simpl. by rewrite app_nil_r. }
  simpl. run_monad. unfold notConfigured in *.
  destruct (Exists (KafkaServersStore r) s.2 s.1) eqn:Hex; simpl.
  - rewrite filter_cons_False by (by rewrite Hex). apply IH.
  - rewrite filter_cons_True by done.
    specialize (IH (RecordWarningEvent intents
                      ReasonKafkaServerNotConfigured w).2).
    destruct (warnNotConfigured intents rest _) as [[] w1]. simpl in *.
    rewrite IH. simpl. by rewrite <- (assoc_L (++)).
Qed.

Lemma applyACLs_events intents w :
  let intentsByServer :=
    getIntentsByServer (ObjNamespace intents) (SpecCalls intents) in
  let pass :=
    MapErr (KafkaServersStore r) (applyACLsOnServer intents intentsByServer) w in
  (applyACLs intents w).1.2 = pass.1
  ∧ events (applyACLs intents w).2
    = events pass.2 ++
      match pass.1 with
      | Some _ => []
      | None =>
          (if enableKafkaACLCreation r then []
           else [normalOn intents ReasonKafkaACLCreationDisabled])
          ++ ((λ _, warningOn intents ReasonKafkaServerNotConfigured)
                <$> notConfigured (map_to_list intentsByServer).*1)
      end.
Proof.
  intros intentsByServer pass. subst pass. unfold applyACLs. run_monad.
  fold intentsByServer.
  destruct (MapErr _ _ w) as [[e|] w1]; simpl.
  { by rewrite app_nil_r. }
  destruct (enableKafkaACLCreation r); simpl.
  - pose proof (warnNotConfigured_events intents
                  (map_to_list intentsByServer).*1 w1) as Hw.
    by destruct (warnNotConfigured _ _ w1) as [[] w3].
  - pose proof (warnNotConfigured_events intents
                  (map_to_list intentsByServer).*1
                  (RecordNormalEvent intents ReasonKafkaACLCreationDisabled w1).2)
      as Hw.
    destruct (warnNotConfigured _ _ _) as [[] w3]. simpl in *.
    split; [done|]. rewrite Hw. simpl. by rewrite <- (assoc_L (++)).
Qed.

(** A Kafka Call that names a broker without configuration: no admin
    call is made on that broker, and the warning that the broker is not
    configured is recorded exactly when the pass over the configured
    brokers succeeded. *)
Theorem applyACLs_unconfigured_broker intents w intent :
  intent ∈ SpecCalls intents →
  Type_ intent = IntentTypeKafka →
  let broker := targetServer (ObjNamespace intents) intent in
  Exists (KafkaServersStore r) broker.2 broker.1 = false →
  let run := applyACLs intents w in
  (∃ l, adminLog run.2 = adminLog w ++ l
        ∧ Forall (λ call, callBroker call ≠ broker) l)
  ∧ (∃ l, events run.2 = events w ++ l
          ∧ (warningOn intents ReasonKafkaServerNotConfigured ∈ l
             ↔ run.1.2 = None)).
Proof.
  intros Hin Hty broker Hex run. subst run.
  set (intentsByServer :=
         getIntentsByServer (ObjNamespace intents) (SpecCalls intents)).
  assert (broker ∉ serverKey <$> KafkaServersStore r) as Hnot.
  { unfold Exists in Hex. apply bool_decide_eq_false_1 in Hex.
    by destruct broker. }
  split.
  - destruct (applyACLs_eventsOnly intents w) as (_ & _ & _ & -> & _).
    apply (MapErr_preorder _ (addsCalls (λ call, callBroker call ≠ broker))).
    intros config w' Hconfig.
    destruct (applyACLsOnServer_addsCalls intents intentsByServer config w')
      as (l & Hl & Hall).
    exists l. split; [done|]. eapply Forall_impl; [exact Hall|].
    intros call Hcall Heq. apply Hnot. rewrite <- Heq, Hcall.
    apply list_elem_of_fmap. by exists config.
  - destruct (applyACLs_events intents w) as [-> ->]. fold intentsByServer.
    destruct (MapErr_preorder (applyACLsOnServer intents intentsByServer)
                (addsEvents (λ ev, evReason ev ≠ ReasonKafkaServerNotConfigured))
                (KafkaServersStore r)
                (λ config w' _,
                   applyACLsOnServer_addsEvents intents intentsByServer
                     config w') w) as (l & -> & Hall).
    destruct (MapErr _ _ w).1 as [e|].
    + exists l. split; [by rewrite app_nil_r|]. split; [|done].
      intros Hl. by apply (proj1 (Forall_forall _ _) Hall) in Hl.
    + eexists. split; [by rewrite <- (assoc_L (++))|]. split; [done|].
      intros _. apply elem_of_app. right. apply elem_of_app. right.
      apply list_elem_of_fmap. exists broker. split; [done|].
      apply list_elem_of_filter. split; [done|].
      apply list_elem_of_fmap.
      assert (intent ∈ kafkaCallsTo (ObjNamespace intents) broker
                         (SpecCalls intents)) as Hmem.
      { by apply list_elem_of_filter. }
      pose proof (getIntentsByServer_lookup (ObjNamespace intents)
                    (SpecCalls intents) broker) as Hlookup.
      destruct (kafkaCallsTo _ broker _) as [|i l'] eqn:Hcalls.
      { by apply elem_of_nil in Hmem. }
      exists (broker, i :: l'). split; [done|].
      by apply elem_of_map_to_list.
Qed.

End Reconciler.

(** *** Two brokers and one client

    Brokers [kafka] and [kafka-audit] are configured in namespace [ns1].
    The service [client] of namespace [ns1] consumes and produces on topic
    [orders] of [kafka], and already holds a grant on that broker. *)

Definition quiet : Collaborators :=
  {| getFault := λ _, None;
     enforcementFault := λ _, None;
     connectFault := λ _, None;
     applyFault := λ _, None;
     removeFault := λ _, None;
     GetPodAnnotatedName := λ _ _, ("intents-operator", true, None) |}.

Definition noTLS : TLSSource :=
  {| CertFile := ""; KeyFile := ""; RootCAFile := "" |}.

Definition kafka : KafkaServerConfig :=
  {| ConfigService := "kafka"; ConfigNamespace := "ns1";
     Addr := "kafka.ns1:9092"; TLS := noTLS |}.

Definition kafkaAudit : KafkaServerConfig :=
  {| ConfigService := "kafka-audit"; ConfigNamespace := "ns1";
     Addr := "kafka-audit.ns1:9092"; TLS := noTLS |}.

(** The connection to [kafka] is refused. *)
Definition kafkaUnreachable : Collaborators :=
  {| getFault := λ _, None;
     enforcementFault := λ _, None;
     connectFault := λ broker,
       if bool_decide (broker = serverKey kafka)
       then Some (ErrMsg "connection refused") else None;
     applyFault := λ _, None;
     removeFault := λ _, None;
     GetPodAnnotatedName := λ _ _, ("intents-operator", true, None) |}.

(** [kafka] rejects [ApplyClientIntents]. *)
Definition kafkaRejectsApply : Collaborators :=
  {| getFault := λ _, None;
     enforcementFault := λ _, None;
     connectFault := λ _, None;
     applyFault := λ broker,
       if bool_decide (broker = serverKey kafka)
       then Some (ErrMsg "cluster authorization failed") else None;
     removeFault := λ _, None;
     GetPodAnnotatedName := λ _ _, ("intents-operator", true, None) |}.

(** The lookup of the operator's pod fails. *)
Definition resolverFails : Collaborators :=
  {| getFault := λ _, None;
     enforcementFault := λ _, None;
     connectFault := λ _, None;
     applyFault := λ _, None;
     removeFault := λ _, None;
     GetPodAnnotatedName := λ _ _, ("", false, Some (ErrMsg "pods is forbidden")) |}.

(** The operator's pod carries no service-name annotation. *)
Definition annotationMissing : Collaborators :=
  {| getFault := λ _, None;
     enforcementFault := λ _, None;
     connectFault := λ _, None;
     applyFault := λ _, None;
     removeFault := λ _, None;
     GetPodAnnotatedName := λ _ _, ("", false, None) |}.

(** Cluster-wide enforcement is off; the operator runs in its own
    namespace. *)
Definition enforcementOff : KafkaACLReconciler :=
  {| KafkaServersStore := [kafka; kafkaAudit];
     enforcementDefaultState := false;
     enableKafkaACLCreation := true;
     operatorPodName := "intents-operator-0";
     operatorPodNamespace := "otterize-system" |}.

(** The operator runs in the namespace of the client. *)
Definition operatorInNs1 : KafkaACLReconciler :=
  {| KafkaServersStore := [kafka; kafkaAudit];
     enforcementDefaultState := true;
     enableKafkaACLCreation := true;
     operatorPodName := "intents-operator-0";
     operatorPodNamespace := "ns1" |}.

Definition clientIntentsObj (deletion : option nat) : ClientIntents :=
  {| ObjName := "client-intents"; ObjNamespace := "ns1";
     DeletionTimestamp := deletion;
     Spec := Some
       {| ServiceName := "client";
          Calls := [ {| Name := "kafka"; TargetNamespace := "";
                        Type_ := IntentTypeKafka;
                        Topics := [ {| TopicName := "orders";
                                       Operations := ["consume"; "produce"] |} ] |} ] |} |}.

Definition grantOnKafka : ACL :=
  {| aclBroker := serverKey kafka; aclPrincipal := ("client", "ns1");
     aclTopic := "orders"; aclOperation := "consume" |}.

Definition worldWith (deletion : option nat) : World :=
  {| clientIntents :=
       {[ clientIntentsKey (clientIntentsObj deletion) := clientIntentsObj deletion ]};
     protectedServices := [];
     acls := [grantOnKafka];
     events := [];
     adminLog := [] |}.

Definition reqClientIntents : Request :=
  {| reqNamespace := "ns1"; reqName := "client-intents" |}.

(** The client's object is deleted while enforcement is off and [kafka]
    has no Protection Declaration: the removal is still asked of [kafka],
    the grant is gone, and nothing is granted. *)
Lemma enforcement_never_gates_removal_witness :
  let w := worldWith (Some 1) in
  let w' := (Reconcile quiet enforcementOff reqClientIntents w).2 in
  AdmRemove (serverKey kafka) "client" "ns1" ∈ adminLog w'
  ∧ (∀ a, a ∈ acls w' → ¬ ownedBy (serverKey kafka) "client" "ns1" a)
  ∧ noGrantOn (serverKey kafka) w w'.
Proof.
  intros w w'.
  assert (kafka ∈ KafkaServersStore enforcementOff) as Hin.
  { apply elem_of_cons. by left. }
  destruct (enforcement_never_gates_removal quiet enforcementOff
              reqClientIntents w kafka Hin) as [Hremove Hgrant].
  destruct (Hremove (clientIntentsObj (Some 1)) eq_refl
              ltac:(done) ltac:(done) eq_refl eq_refl) as [Hasked Hgone].
  split; [exact Hasked|]. split; [exact (Hgone eq_refl)|].
  apply Hgrant; [done|]. apply not_elem_of_nil.
Defined.

(** [kafka] is unreachable, or rejects the apply: in the first run
    [kafka-audit] is still served, in the second [Reconcile] fails. *)
Lemma broker_failure_isolation_witness :
  let w := worldWith None in
  let run1 := Reconcile kafkaUnreachable enforcementOff reqClientIntents w in
  let run2 := Reconcile kafkaRejectsApply enforcementOff reqClientIntents w in
  (warningOn (clientIntentsObj None) ReasonCouldNotConnectToKafkaServer
     ∈ events run1.2
   ∧ noApplyOn (serverKey kafka) w run1.2
   ∧ AdmApply (serverKey kafkaAudit) "client" "ns1" [] ∈ adminLog run1.2)
  ∧ (warningOn (clientIntentsObj None) ReasonCouldNotApplyIntentsOnKafkaServer
       ∈ events run2.2
     ∧ run2.1.2 ≠ None).
Proof.
  intros w run1 run2.
  assert (kafka ∈ KafkaServersStore enforcementOff) as Hin.
  { apply elem_of_cons. by left. }
  assert (kafkaAudit ∈ KafkaServersStore enforcementOff) as Hin'.
  { apply elem_of_cons. right. apply elem_of_cons. by left. }
  split.
  - destruct (proj1 (broker_failure_isolation kafkaUnreachable enforcementOff
                       reqClientIntents w (clientIntentsObj None) kafka
                       eq_refl ltac:(done) eq_refl eq_refl Hin eq_refl)
                ltac:(done)) as (Hev & Hno & Hothers).
    split; [exact Hev|]. split; [exact Hno|].
    exact (Hothers kafkaAudit Hin' eq_refl eq_refl).
  - exact (proj2 (broker_failure_isolation kafkaRejectsApply enforcementOff
                    reqClientIntents w (clientIntentsObj None) kafka
                    eq_refl ltac:(done) eq_refl eq_refl Hin eq_refl)
             eq_refl ltac:(done)).
Defined.

(** The operator's pod has no annotation: [Reconcile] fails and contacts
    no broker. *)
Lemma Reconcile_identity_failure_witness :
  let run := Reconcile annotationMissing operatorInNs1 reqClientIntents
               (worldWith None) in
  run.1.2 ≠ None ∧ adminLog run.2 = [] ∧ acls run.2 = [grantOnKafka].
Proof.
  apply (Reconcile_identity_failure annotationMissing operatorInNs1
           reqClientIntents (worldWith None) (clientIntentsObj None)
           eq_refl ltac:(done) eq_refl eq_refl).
  by right.
Defined.

(** C6, at a failing input. The client's object lives in the operator's
    namespace and the lookup of the operator's pod fails: [Reconcile]
    returns the error, and records no event. When instead the pod is found
    without its annotation, the error comes with a warning event. *)
Theorem Reconcile_resolver_error_records_no_event :
  let w := worldWith None in
  let run := Reconcile resolverFails operatorInNs1 reqClientIntents w in
  let run' := Reconcile annotationMissing operatorInNs1 reqClientIntents w in
  (run.1 = (emptyResult,
            Some (ErrWrap "failed resolving intents operator identity"
                    (ErrMsg "pods is forbidden")))
   ∧ events run.2 = []
   ∧ adminLog run.2 = [])
  ∧ (run'.1.2 ≠ None
     ∧ events run'.2
       = [warningOn (clientIntentsObj None)
            ReasonIntentsOperatorIdentityResolveFailed]).
Proof. by vm_compute. Qed.

(** *** Runs of the properties above *)

(** The creation of grants is disabled. *)
Definition creationDisabled : KafkaACLReconciler :=
  {| KafkaServersStore := [kafka; kafkaAudit];
     enforcementDefaultState := true;
     enableKafkaACLCreation := false;
     operatorPodName := "intents-operator-0";
     operatorPodNamespace := "otterize-system" |}.

(** The operator's pod resolves to the service [client]. *)
Definition operatorIsClient : Collaborators :=
  {| getFault := λ _, None;
     enforcementFault := λ _, None;
     connectFault := λ _, None;
     applyFault := λ _, None;
     removeFault := λ _, None;
     GetPodAnnotatedName := λ _ _, ("client", true, None) |}.

(** [kafka] rejects [RemoveClientIntents]. *)
Definition kafkaRejectsRemove : Collaborators :=
  {| getFault := λ _, None;
     enforcementFault := λ _, None;
     connectFault := λ _, None;
     applyFault := λ _, None;
     removeFault := λ broker,
       if bool_decide (broker = serverKey kafka)
       then Some (ErrMsg "cluster authorization failed") else None;
     GetPodAnnotatedName := λ _ _, ("intents-operator", true, None) |}.

(** The client calls the broker [kafka-staging] of namespace [ns2], for
    which there is no configuration. *)
Definition callStaging : Intent :=
  {| Name := "kafka-staging"; TargetNamespace := "ns2";
     Type_ := IntentTypeKafka;
     Topics := [ {| TopicName := "orders"; Operations := ["consume"] |} ] |}.

Definition clientIntentsStaging : ClientIntents :=
  {| ObjName := "client-intents"; ObjNamespace := "ns1";
     DeletionTimestamp := None;
     Spec := Some {| ServiceName := "client"; Calls := [callStaging] |} |}.

Example sessions_examples :
  let k := serverKey kafka in
  sessions quiet None
    [AdmOpen k true true; AdmApply k "client" "ns1" []; AdmClose k] = Some None
  ∧ sessions quiet None [AdmOpen k true true; AdmApply k "client" "ns1" []]
    = Some (Some k)
  ∧ sessions quiet None [AdmRemove k "client" "ns1"] = None
  ∧ sessions quiet None [AdmOpen k true true; AdmOpen k true true] = None
  ∧ sessions kafkaUnreachable None [AdmOpen k true true] = Some None.
Proof. by vm_compute. Qed.

(** The admin calls of one run on the active object of [client]. *)
Example adminLog_of_a_run :
  adminLog (Reconcile quiet operatorInNs1 reqClientIntents (worldWith None)).2
  = [ AdmOpen (serverKey kafka) true true;
      AdmApply (serverKey kafka) "client" "ns1" (SpecCalls (clientIntentsObj None));
      AdmClose (serverKey kafka);
      AdmOpen (serverKey kafkaAudit) true true;
      AdmApply (serverKey kafkaAudit) "client" "ns1" [];
      AdmClose (serverKey kafkaAudit) ].
Proof. by vm_compute. Qed.

Lemma creation_disabled_grants_nothing_witness :
  let w := worldWith None in
  let run := Reconcile quiet creationDisabled reqClientIntents w in
  (∀ a, a ∈ acls run.2 → a ∈ acls w)
  ∧ normalOn (clientIntentsObj None) ReasonKafkaACLCreationDisabled
      ∈ events run.2.
Proof.
  intros w run.
  destruct (creation_disabled_grants_nothing quiet creationDisabled
              reqClientIntents w eq_refl) as [Hacls Hev].
  split; [exact Hacls|].
  apply (Hev (clientIntentsObj None)); [done|done|done|done|by vm_compute].
Defined.

Lemma Reconcile_skips_operator_witness :
  Reconcile operatorIsClient operatorInNs1 reqClientIntents (worldWith None)
  = ((emptyResult, None), worldWith None).
Proof.
  by apply (Reconcile_skips_operator operatorIsClient operatorInNs1
              reqClientIntents (worldWith None) (clientIntentsObj None)).
Defined.

(** The removal fails on [kafka]: the error is returned with one warning. *)
Lemma Reconcile_deleting_reports_witness :
  let w := worldWith (Some 1) in
  let run := Reconcile kafkaRejectsRemove enforcementOff reqClientIntents w in
  run.1 = (emptyResult,
           (RemoveACLs kafkaRejectsRemove enforcementOff
              (clientIntentsObj (Some 1)) w).1)
  ∧ events run.2
    = events w ++
      match run.1.2 with
      | Some _ => [warningOn (clientIntentsObj (Some 1))
                     ReasonRemovingKafkaACLsFailed]
      | None => []
      end.
Proof.
  by apply (Reconcile_deleting_reports kafkaRejectsRemove enforcementOff
              reqClientIntents (worldWith (Some 1)) (clientIntentsObj (Some 1))).
Defined.

(** The apply fails on [kafka]: the last event is the warning. *)
Lemma Reconcile_applying_reports_witness :
  let w := worldWith None in
  let failed := Reconcile kafkaRejectsApply enforcementOff reqClientIntents w in
  let applied := Reconcile quiet enforcementOff reqClientIntents w in
  last (events failed.2)
  = Some (warningOn (clientIntentsObj None) ReasonApplyingKafkaACLsFailed)
  ∧ last (events applied.2)
    = Some (normalOn (clientIntentsObj None) ReasonAppliedKafkaACLs).
Proof.
  intros w failed applied. split.
  - refine (proj1 (Reconcile_applying_reports kafkaRejectsApply enforcementOff
                     reqClientIntents w (clientIntentsObj None)
                     eq_refl _ eq_refl eq_refl) _); done.
  - refine (proj2 (Reconcile_applying_reports quiet enforcementOff
                     reqClientIntents w (clientIntentsObj None)
                     eq_refl _ eq_refl eq_refl) eq_refl _); [done|].
    eexists. split; [by left|done].
Defined.

Lemma applyACLs_unconfigured_broker_witness :
  let w := worldWith None in
  let run := applyACLs quiet enforcementOff clientIntentsStaging w in
  let broker := mkNamespacedName "kafka-staging" "ns2" in
  (∃ l, adminLog run.2 = adminLog w ++ l
        ∧ Forall (λ call, callBroker call ≠ broker) l)
  ∧ (∃ l, events run.2 = events w ++ l
          ∧ (warningOn clientIntentsStaging ReasonKafkaServerNotConfigured ∈ l
             ↔ run.1.2 = None)).
Proof.
  apply (applyACLs_unconfigured_broker quiet enforcementOff
           clientIntentsStaging (worldWith None) callStaging).
  - by left.
  - done.
  - by vm_compute.
Defined.

End KafkaACL.

(** ** The ProtectedService admission webhook (package webhooks) *)

Module Webhook.

(** [otterizev1alpha2.ProtectedService]: the name and namespace of the
    object, and the service name of its Spec. *)
Record ProtectedService : Type := mkProtectedService {
  Name : string;
  Namespace : string;
  SpecName : string
}.

Inductive ErrorType : Type := ErrorTypeDuplicate | ErrorTypeForbidden.

(** [field.Error]. *)
Record FieldError : Type := mkFieldError {
  Type_ : ErrorType;
  Field : string;
  BadValue : string
}.

(** What a validation returns when it is not nil: the error of the list
    call, or [errors.NewInvalid] with the name of the object and the list
    of field errors. *)
Inductive AdmissionError : Type :=
  | ListFailed (e : K8sError)
  | Invalid (name : string) (allErrs : list FieldError).

(** [strings.ReplaceAll(s, c, "")] for a one-character [c]. *)
Fixpoint removeChar (c : Ascii.ascii) (s : string) : string :=
  match s with
  | EmptyString => EmptyString
  | String a rest =>
      if bool_decide (a = c) then removeChar c rest
      else String a (removeChar c rest)
  end.

Definition between (lo hi : nat) (a : Ascii.ascii) : bool :=
  (lo <=? Ascii.nat_of_ascii a)%nat && (Ascii.nat_of_ascii a <=? hi)%nat.

Definition isDigit : Ascii.ascii → bool := between 48 57.
Definition isUpper : Ascii.ascii → bool := between 65 90.
Definition isLower : Ascii.ascii → bool := between 97 122.

Fixpoint allChars (p : Ascii.ascii → bool) (s : string) : bool :=
  match s with
  | EmptyString => true
  | String a rest => p a && allChars p rest
  end.

(** [govalidator.IsAlphanumeric]: the empty string, or a match of
    [^[a-zA-Z0-9]+$]. *)
Definition IsAlphanumeric (s : string) : bool :=
  allChars (λ a, isDigit a || isUpper a || isLower a) s.

(** [govalidator.IsLowerCase]: the empty string, or a string equal to its
    lower-case form. It is evaluated on ASCII letters and digits only,
    where it says that no letter is upper case. *)
Definition IsLowerCase (s : string) : bool :=
  allChars (λ a, negb (isUpper a)) s.

(** The stored ProtectedService objects of the cluster, and the failure of
    the list call, if any. *)
Record Store : Type := mkStore {
  objects : list ProtectedService;
  listFault : option K8sError
}.

Section Validator.

Variable store : Store.

(** [v.List] with [ListOptions{Namespace: namespace}]: the objects of the
    namespace, and the objects of every namespace when the namespace is
    empty. *)
Definition List (namespace : string) : K8sError + list ProtectedService :=
  match listFault store with
  | Some e => inl e
  | None =>
      inr (if bool_decide (namespace = "") then objects store
           else filter (λ o, Namespace o = namespace) (objects store))
  end.

(** [validateNoDuplicateClients]. The name of each listed object is
    compared with the Spec name of the admitted object. *)
Fixpoint validateNoDuplicateClients (protectedService : ProtectedService)
  (items : list ProtectedService) : option FieldError :=
  let protectedServiceName := SpecName protectedService in
  match items with
  | [] => None
  | protectedServiceFromList :: rest =>
      if bool_decide (SpecName protectedServiceFromList = protectedServiceName)
         && bool_decide (Name protectedServiceFromList ≠ SpecName protectedService)
      then Some {| Type_ := ErrorTypeDuplicate; Field := "name";
                   BadValue := protectedServiceName |}
      else validateNoDuplicateClients protectedService rest
  end.

(** [validateSpec]. *)
Definition validateSpec (protectedService : ProtectedService)
  : option FieldError :=
  let serviceName := removeChar "-"%char (SpecName protectedService) in
  let serviceName := removeChar "_"%char serviceName in
  if negb (IsAlphanumeric serviceName) || negb (IsLowerCase serviceName) then
    Some {| Type_ := ErrorTypeForbidden; Field := "Name"; BadValue := "" |}
  else None.

Definition appendErr (allErrs : list FieldError) (err : option FieldError)
  : list FieldError :=
  match err with
  | Some e => allErrs ++ [e]
  | None => allErrs
  end.

(** [ValidateCreate]. *)
Definition ValidateCreate (protectedService : ProtectedService)
  : option AdmissionError :=
  match List (Namespace protectedService) with
  | inl err => Some (ListFailed err)
  | inr protectedServicesList =>
      let allErrs := [] in
      let allErrs :=
        appendErr allErrs
          (validateNoDuplicateClients protectedService protectedServicesList) in
      let allErrs := appendErr allErrs (validateSpec protectedService) in
      if bool_decide (length allErrs = 0) then None
      else Some (Invalid (Name protectedService) allErrs)
  end.

(** [ValidateUpdate]. *)
Definition ValidateUpdate (oldObj newObj : ProtectedService)
  : option AdmissionError :=
  match List (Namespace newObj) with
  | inl err => Some (ListFailed err)
  | inr protectedServicesList =>
      let allErrs := [] in
      let allErrs :=
        appendErr allErrs
          (validateNoDuplicateClients newObj protectedServicesList) in
      let allErrs := appendErr allErrs (validateSpec newObj) in
      if bool_decide (length allErrs = 0) then None
      else Some (Invalid (Name newObj) allErrs)
  end.

(** [ValidateDelete]. *)
Definition ValidateDelete (obj : ProtectedService) : option AdmissionError :=
  None.

(** What the duplicate check tests: a listed object with the Spec name of
    the admitted object whose own name differs from that Spec name. *)
Lemma validateNoDuplicateClients_rejects protectedService items :
  validateNoDuplicateClients protectedService items ≠ None ↔
  ∃ o, o ∈ items ∧ SpecName o = SpecName protectedService
       ∧ Name o ≠ SpecName protectedService.
Proof.
  induction items as [|o rest IH]; simpl.
  - split; [done|]. intros (o & Ho & _). by apply elem_of_nil in Ho.
  - destruct (bool_decide (SpecName o = _) && bool_decide (Name o ≠ _)) eqn:Hb.
    + apply andb_true_iff in Hb as [H1%bool_decide_eq_true_1 H2%bool_decide_eq_true_1].
      split; [|done]. intros _. exists o. split; [by left|done].
    + rewrite IH. split.
      * intros (o' & Ho' & Hs). exists o'. split; [by right|done].
      * intros (o' & Ho' & Hs & Hn).
        apply elem_of_cons in Ho' as [-> | Ho']; [|by exists o'].
        apply andb_false_iff in Hb
          as [Hb%bool_decide_eq_false_1 | Hb%bool_decide_eq_false_1]; done.
Qed.

(** *** The names [validateSpec] accepts *)

Definition allowedChar (a : Ascii.ascii) : bool :=
  isLower a || isDigit a
  || bool_decide (a = "-"%char) || bool_decide (a = "_"%char).

Lemma removeChar_allChars p c s :
  allChars p (removeChar c s) = allChars (λ a, bool_decide (a = c) || p a) s.
Proof.
  induction s as [|a s IH]; simpl; [done|].
  case_bool_decide; simpl; by rewrite IH.
Qed.

Lemma allChars_and p q s :
  allChars p s && allChars q s = allChars (λ a, p a && q a) s.
Proof.
  induction s as [|a s IH]; simpl; [done|]. rewrite <- IH.
  destruct (p a), (q a), (allChars p s), (allChars q s); done.
Qed.

Lemma allChars_ext p q s : (∀ a, p a = q a) → allChars p s = allChars q s.
Proof.
  intros Hpq. induction s as [|a s IH]; simpl; [done|]. by rewrite Hpq, IH.
Qed.

Lemma allowedChar_spec a :
  (bool_decide (a = "-"%char)
   || (bool_decide (a = "_"%char) || (isDigit a || isUpper a || isLower a)))
  && (bool_decide (a = "-"%char)
      || (bool_decide (a = "_"%char) || negb (isUpper a)))
  = allowedChar a.
Proof. by destruct a as [[] [] [] [] [] [] [] []]. Qed.

Lemma validateSpec_allChars protectedService :
  validateSpec protectedService =
    if allChars allowedChar (SpecName protectedService) then None
    else Some {| Type_ := ErrorTypeForbidden; Field := "Name"; BadValue := "" |}.
Proof.
  unfold validateSpec, IsAlphanumeric, IsLowerCase.
  rewrite !removeChar_allChars, <- negb_andb, allChars_and.
  rewrite (allChars_ext _ allowedChar) by apply allowedChar_spec.
  by destruct (allChars allowedChar _).
Qed.

(** [validateSpec] accepts a Spec name exactly when each of its characters
    is a lower-case ASCII letter, a digit, [-] or [_]; the empty name is
    accepted, and so is a name made of [-] and [_] only. *)
Theorem validateSpec_accepts protectedService :
  (validateSpec protectedService = None
   ↔ ∀ a, a ∈ list_ascii_of_string (SpecName protectedService) →
          isLower a = true ∨ isDigit a = true ∨ a = "-"%char ∨ a = "_"%char)
  ∧ (SpecName protectedService = "" → validateSpec protectedService = None)
  ∧ (allChars (λ a, bool_decide (a = "-"%char) || bool_decide (a = "_"%char))
       (SpecName protectedService) = true →
     validateSpec protectedService = None).
Proof.
  rewrite validateSpec_allChars.
  assert (∀ s, allChars allowedChar s = true
               ↔ ∀ a, a ∈ list_ascii_of_string s →
                      isLower a = true ∨ isDigit a = true
                      ∨ a = "-"%char ∨ a = "_"%char) as Hall.
  { induction s as [|a s IH]; simpl.
    - split; [|done]. intros _ a Ha. by apply elem_of_nil in Ha.
    - rewrite andb_true_iff, IH. unfold allowedChar.
      rewrite !orb_true_iff, !bool_decide_eq_true. split.
      + intros [Ha Hs] b Hb. apply elem_of_cons in Hb as [-> | Hb]; [tauto|].
        by apply Hs.
      + intros Hs. split.
        * specialize (Hs a (list_elem_of_here _ _)). tauto.
        * intros b Hb. apply Hs. by right. }
  split; [|split].
  - rewrite <- Hall. by destruct (allChars allowedChar _).
  - by intros ->.
  - intros Hdashes.
    assert (allChars allowedChar (SpecName protectedService) = true) as ->; [|done].
    revert Hdashes. generalize (SpecName protectedService).
    induction s as [|a s IH]; simpl; [done|].
    rewrite !andb_true_iff. intros [Ha Hs]. split; [|by apply IH].
    unfold allowedChar. apply orb_true_iff in Ha as [-> | ->];
      by rewrite ?orb_true_r.
Qed.

(** *** What is admitted *)

Lemma validateNoDuplicateClients_None protectedService items :
  validateNoDuplicateClients protectedService items = None
  ↔ ∀ o, o ∈ items → SpecName o = SpecName protectedService →
         Name o = SpecName protectedService.
Proof.
  induction items as [|o rest IH]; simpl.
  - split; [|done]. intros _ o Ho. by apply elem_of_nil in Ho.
  - destruct (decide (SpecName o = SpecName protectedService)) as [Hs|Hs];
      destruct (decide (Name o = SpecName protectedService)) as [Hn|Hn].
    + rewrite bool_decide_eq_true_2, bool_decide_eq_false_2 by tauto. simpl.
      rewrite IH. split.
      * intros Hrest o' Ho'. apply elem_of_cons in Ho' as [-> | Ho']; [done|].
        by apply Hrest.
      * intros Hall o' Ho'. apply Hall. by right.
    + rewrite !bool_decide_eq_true_2 by done. simpl. split; [done|].
      intros Hall. destruct Hn. apply Hall; [by left|done].
    + rewrite bool_decide_eq_false_2 by done. simpl. rewrite IH. split.
      * intros Hrest o' Ho'. apply elem_of_cons in Ho' as [-> | Ho']; [done|].
        by apply Hrest.
      * intros Hall o' Ho'. apply Hall. by right.
    + rewrite bool_decide_eq_false_2 by done. simpl. rewrite IH. split.
      * intros Hrest o' Ho'. apply elem_of_cons in Ho' as [-> | Ho']; [done|].
        by apply Hrest.
      * intros Hall o' Ho'. apply Hall. by right.
Qed.

Lemma List_items namespace items o :
  List namespace = inr items →
  o ∈ items
  ↔ o ∈ objects store ∧ (namespace = "" ∨ Namespace o = namespace).
Proof.
  unfold List. destruct (listFault store); [done|]. intros [= <-].
  case_bool_decide as Hns.
  - split; [|by intros [? _]]. intros Ho. split; [done|by left].
  - rewrite list_elem_of_filter. split.
    + intros [? ?]. split; [done|by right].
    + intros [? [? | ?]]; done.
Qed.

(** Admission of an object on update is decided as on creation, from the
    new object alone. When the list call fails its error is returned and
    nothing is validated. Otherwise the objects that are compared are the
    stored objects of the namespace of the new object, and the stored
    objects of every namespace when that namespace is empty; the object
    is admitted exactly when each of them with the same Spec name is
    named like that Spec name, and the Spec name has allowed characters
    only; and a rejection carries the name of the object and at least one
    field error. *)
Theorem ValidateUpdate_admits oldObj newObj :
  ValidateUpdate oldObj newObj = ValidateCreate newObj
  ∧ match listFault store with
    | Some e => ValidateCreate newObj = Some (ListFailed e)
    | None =>
        (ValidateCreate newObj = None
         ↔ (∀ o, o ∈ objects store →
                 Namespace newObj = "" ∨ Namespace o = Namespace newObj →
                 SpecName o = SpecName newObj →
                 Name o = SpecName newObj)
           ∧ allChars allowedChar (SpecName newObj) = true)
        ∧ ∀ err, ValidateCreate newObj = Some err →
                 ∃ allErrs, err = Invalid (Name newObj) allErrs ∧ allErrs ≠ []
    end.
Proof.
  split; [done|]. unfold ValidateCreate.
  destruct (List (Namespace newObj)) as [e|items] eqn:Hlist.
  { unfold List in Hlist. destruct (listFault store); [|done].
    by injection Hlist as ->. }
  pose proof (λ o, List_items _ _ o Hlist) as Hitems.
  assert (listFault store = None) as ->.
  { unfold List in Hlist. by destruct (listFault store). }
  pose proof (validateNoDuplicateClients_None newObj items) as Hdup.
  rewrite (validateSpec_allChars newObj).
  destruct (validateNoDuplicateClients newObj items) as [dup|];
    destruct (allChars allowedChar (SpecName newObj)); simpl; split.
  - split; [done|]. intros [Hall _].
    assert (Some dup = None) as [=]. apply Hdup. intros o Ho.
    apply Hitems in Ho as [Ho Hns]. by apply Hall.
  - intros err [= <-]. by eexists.
  - split; [done|]. intros [Hall _].
    assert (Some dup = None) as [=]. apply Hdup. intros o Ho.
    apply Hitems in Ho as [Ho Hns]. by apply Hall.
  - intros err [= <-]. by eexists.
  - split; [|done]. intros _. split; [|done].
    intros o Ho Hns. apply (proj1 Hdup eq_refl). by apply Hitems.
  - done.
  - split; [done|]. by intros [_ ?].
  - intros err [= <-]. by eexists.
Qed.

End Validator.

(** The declaration of [payments] is stored under the object name
    [payments]. *)
Definition paymentsStore : Store :=
  {| objects := [ {| Name := "payments"; Namespace := "ns1";
                     SpecName := "payments" |} ];
     listFault := None |}.

(** The only declaration of [payments] is stored under the object name
    [protect-payments]. *)
Definition protectPaymentsStore : Store :=
  {| objects := [ {| Name := "protect-payments"; Namespace := "ns1";
                     SpecName := "payments" |} ];
     listFault := None |}.

(** An object without namespace is compared with the objects of every
    namespace: it is rejected for the declaration stored in [ns1], and an
    object of another namespace is not. *)
Example ValidateCreate_lists_every_namespace :
  ValidateCreate protectPaymentsStore
    {| Name := "x"; Namespace := ""; SpecName := "payments" |}
  = Some (Invalid "x" [ {| Type_ := ErrorTypeDuplicate; Field := "name";
                           BadValue := "payments" |} ])
  ∧ ValidateCreate protectPaymentsStore
      {| Name := "x"; Namespace := "ns2"; SpecName := "payments" |}
    = None.
Proof. by vm_compute. Qed.

Example validateSpec_examples :
  let named s := {| Name := "obj"; Namespace := "ns1"; SpecName := s |} in
  validateSpec (named "payments-api_v2") = None
  ∧ validateSpec (named "") = None
  ∧ validateSpec (named "Payments") ≠ None
  ∧ validateSpec (named "payments.api") ≠ None.
Proof. by vm_compute. Qed.

(** C8, at two failing inputs. A second object that declares [payments] in
    the same namespace is admitted; and an update of the only object that
    declares [payments] is rejected as a duplicate of itself. *)
Theorem ValidateCreate_compares_with_spec_name :
  ValidateCreate paymentsStore
    {| Name := "payments-again"; Namespace := "ns1"; SpecName := "payments" |}
  = None
  ∧ ValidateUpdate protectPaymentsStore
      {| Name := "protect-payments"; Namespace := "ns1"; SpecName := "payments" |}
      {| Name := "protect-payments"; Namespace := "ns1"; SpecName := "payments" |}
    = Some (Invalid "protect-payments"
              [ {| Type_ := ErrorTypeDuplicate; Field := "name";
                   BadValue := "payments" |} ]).
Proof. by vm_compute. Qed.

End Webhook.

(** ** Both reconcilers on an absent object *)

(** C10. When the object of the request is not found, or is found with a
    nil Spec, each reconciler returns success without requeue. The
    network-policy reconciler has made one call, the lookup, and the
    stored objects and rules are as before; the Kafka ACL reconciler
    leaves the world as it was: no event, no grant, no admin session. *)
Theorem Reconcile_absent_is_noop :
  (∀ identity serverKey accessKey namespaceKey apiFault req c,
     let key := reqNamespacedName req in
     let got := (NetworkPolicy.GetIntents apiFault key c).1 in
     IsNotFound got.1 = true ∨ (got.1 = None ∧ NetworkPolicy.Spec got.2 = None) →
     let run := NetworkPolicy.Reconcile identity serverKey accessKey
                  namespaceKey apiFault req c in
     run.1 = (emptyResult, None)
     ∧ NetworkPolicy.intentsObjects run.2 = NetworkPolicy.intentsObjects c
     ∧ NetworkPolicy.networkPolicies run.2 = NetworkPolicy.networkPolicies c
     ∧ NetworkPolicy.trace run.2
       = NetworkPolicy.trace c ++ [NetworkPolicy.OpGetIntents key])
  ∧ (∀ env r req w,
       let got := (KafkaACL.Get env (reqNamespacedName req) w).1 in
       KafkaACL.IsNotFoundErr got.1 = true
       ∨ (got.1 = None ∧ KafkaACL.Spec got.2 = None) →
       KafkaACL.Reconcile env r req w = ((emptyResult, None), w)).
Proof.
  split.
  - intros identity serverKey accessKey namespaceKey apiFault req c key got
      Hgot run. subst run.
    by rewrite (NetworkPolicy.Reconcile_absent _ _ _ _ apiFault req c Hgot).
  - intros env r req w got Hgot. by apply KafkaACL.Reconcile_no_intents.
Qed.

(** The request names an object that is not stored. *)
Lemma Reconcile_absent_is_noop_witness :
  let req := {| reqNamespace := "ns1"; reqName := "gone" |} in
  (NetworkPolicy.Reconcile (λ name _, name) "server" (λ s, s) "namespace"
     NetworkPolicy.noFault req NetworkPolicy.twoClients).1
  = (emptyResult, None)
  ∧ KafkaACL.Reconcile KafkaACL.quiet KafkaACL.enforcementOff req
      (KafkaACL.worldWith None)
    = ((emptyResult, None), KafkaACL.worldWith None).
Proof.
  intros req. split.
  - refine (proj1 (proj1 Reconcile_absent_is_noop (λ name _, name) "server"
                     (λ s, s) "namespace" NetworkPolicy.noFault req
                     NetworkPolicy.twoClients _)).
    left. by vm_compute.
  - refine (proj2 Reconcile_absent_is_noop KafkaACL.quiet
              KafkaACL.enforcementOff req (KafkaACL.worldWith None) _).
    left. by vm_compute.
Defined.
